(** * Reading-activity analytics of the news reader

    A shallow embedding of [frontend/src/pages/Analytics.tsx]: the time
    window, the article filter, the engagement pass, the daily activity
    series, the read streak, the sentiment buckets, the feed ranking and
    [getClusterTopics], with the properties the specification states about
    them.

    Conventions of the embedding.
    - JavaScript numbers that count things are integers below 2^53,
      which doubles hold exactly, and are modelled in [Z]; sentiment
      scores and differences of dates are modelled in [Q].
    - A percentage is [Math.round((a / b) * 100)], whose quotient and
      whose product are each rounded to a double before [Math.round]
      sees them; the two roundings are modelled ([Double]), since they
      decide the result when [a / b * 100] lies halfway between two
      integers.  [Math.round(a / b)] of two counters has one rounding,
      which cannot move the quotient across a half
      ([Math_round_quotient]), and is written with the exact quotient.
    - An instant ([Date]) is its number of milliseconds on the local
      wall clock, the local zone having a fixed offset; a calendar day is
      [86400000] of them.
    - [format(d, 'yyyy-MM-dd')] names the local calendar day of [d].  The
      key is represented by the number of that day, which orders as the
      zero padded text does.
    - A date string is represented by what [new Date(raw)] makes of it.
    - [useMemo] caches and is transparent; every [new Date()] of one
      computation reads the same instant [now]. *)

From Stdlib Require Import ZArith QArith Qround Qpower.
From Stdlib Require Import String Ascii List Bool Lia.
From Stdlib Require Import Sorted Permutation Lqa.
Import ListNotations.
Open Scope Z_scope.

(** ** JavaScript primitives used by the page *)

(** [Math.round]: the nearest integer, halves going up. *)
Definition Math_round (x : Q) : Z := Qfloor (x + (1 # 2))%Q.

(** Double-precision arithmetic (IEEE 754 binary64), on the rationals:
    the result of an operation is the exact result rounded to the nearest
    number with a significand of 53 bits, a tie going to the even
    significand.  The exponent is left unbounded: the quotients and
    products of the page are of counters and are far from the overflow
    and underflow thresholds. *)
Module Double.
Definition pow2 (e : Z) : Q := (2 ^ e)%Q.

(** The exponent [e] of a positive number: [2^e <= x < 2^(e+1)]. *)
Definition binade (x : Q) : Z :=
  let e := Z.log2 (Qnum x) - Z.log2 (Z.pos (Qden x)) in
  if Qle_bool (pow2 e) x then e else e - 1.

(** The nearest integer, a half going to the even neighbour. *)
Definition nearestEven (x : Q) : Z :=
  let f := Qfloor x in
  match (x - inject_Z f ?= 1 # 2)%Q with
  | Lt => f
  | Gt => f + 1
  | Eq => if Z.even f then f else f + 1
  end.

(** A positive number, rounded to 53 significant bits. *)
Definition roundPositive (x : Q) : Q :=
  let ulp := pow2 (binade x - 52) in
  (inject_Z (nearestEven (x / ulp)) * ulp)%Q.

Definition round (x : Q) : Q :=
  match (x ?= 0)%Q with
  | Eq => 0%Q
  | Gt => roundPositive x
  | Lt => (- roundPositive (- x))%Q
  end.

(** [x / y] and [x * y] of two doubles. *)
Definition div (x y : Q) : Q := round (x / y).
Definition mul (x y : Q) : Q := round (x * y).

(** The unit roundoff, 2^-53. *)
Definition unitRoundoff : Q := 1 # 9007199254740992.
End Double.

(** [Math.round((a / b) * 100)] for two counters, as the engine computes
    it: the quotient is rounded to a double, then its product with 100
    is.  For 23 of 40 the quotient 0.575 is no double, the product comes
    out just below 57.5, and the result is 57. *)
Definition percentOf (a b : Z) : Z :=
  Math_round (Double.mul (Double.div (inject_Z a) (inject_Z b)) 100).

(** [Array.prototype.slice(0, n)]. *)
Definition slice0 {A : Type} (n : nat) (l : list A) : list A := firstn n l.

(** [Array.prototype.sort(cmp)]: the sort is stable, so for a comparator
    that is a weak order its result is the stable insertion sort's. *)
Section ArraySort.
Context {A : Type} (cmp : A -> A -> Z).

Fixpoint sort_insert (x : A) (l : list A) : list A :=
  match l with
  | [] => [x]
  | y :: l' => if 0 <? cmp x y then y :: sort_insert x l' else x :: l
  end.

Definition Array_sort (l : list A) : list A :=
  fold_right sort_insert [] l.

(** The comparator lets [x] stand before [y]. *)
Definition before (x y : A) : Prop := cmp x y <= 0.
End ArraySort.

(** [Map<K, V>]: entries are kept in the order their keys were first set. *)
Module JSMap.
Section Defs.
Context {K V : Type} (eqb : K -> K -> bool).

Definition t : Type := list (K * V).

Definition empty : t := [].

Fixpoint get (k : K) (m : t) : option V :=
  match m with
  | [] => None
  | (k', v) :: m' => if eqb k k' then Some v else get k m'
  end.

Fixpoint set (k : K) (v : V) (m : t) : t :=
  match m with
  | [] => [(k, v)]
  | (k', v') :: m' =>
      if eqb k k' then (k', v) :: m' else (k', v') :: set k v m'
  end.

Definition keys (m : t) : list K := map fst m.
Definition entries (m : t) : list (K * V) := m.
End Defs.
Arguments t : clear implicits.
End JSMap.

(** [Set<K>], with [add] and [size] only. *)
Module JSSet.
Definition t : Type := list Z.
Definition empty : t := [].
Definition has (k : Z) (s : t) : bool := existsb (Z.eqb k) s.
Definition add (k : Z) (s : t) : t := if has k s then s else s ++ [k].
Definition size (s : t) : Z := Z.of_nat (length s).
End JSSet.

(** ** Data model ([types/index.ts]), the fields the page reads *)

(** A date string, by the outcome of [new Date(raw)]. *)
Inductive DateString : Type :=
  | DateEmpty                (* the empty string, falsy *)
  | DateInvalid              (* non-empty, [getTime()] is NaN *)
  | DateValid (time : Z).    (* non-empty, [getTime()] is [time] *)

Record Article : Type := mkArticle {
  id : Z;
  feed_id : Z;
  published_date : option DateString;
  created_at : DateString;
  cluster_id : option Z;
  sentiment_score : option Q;
  topics : option (list string);
  is_read : bool;
  is_bookmarked : bool
}.

Record Feed : Type := mkFeed {
  feed_ident : Z;                 (* [Feed.id] *)
  title : option string;
  is_active : bool
}.

Inductive TimeRange : Type := Range7 | Range30 | Range90 | RangeAll.

(** [timeRange === 'all' ? null : Number.parseInt(timeRange, 10)] *)
Definition timeRangeDays (timeRange : TimeRange) : option Z :=
  match timeRange with
  | Range7 => Some 7
  | Range30 => Some 30
  | Range90 => Some 90
  | RangeAll => None
  end.

(** ** Dates *)

Definition MS_PER_DAY : Z := 1000 * 60 * 60 * 24.

(** [format(date, 'yyyy-MM-dd')], as the number of the local day. *)
Definition format_yyyy_MM_dd (date : Z) : Z := date / MS_PER_DAY.

(** [new Date(`${key}T00:00:00`)]: local midnight of the day. *)
Definition dateOfKey (key : Z) : Z := key * MS_PER_DAY.

(** date-fns [subDays]. *)
Definition subDays (date amount : Z) : Z := date - amount * MS_PER_DAY.

(** [new Date(now.getFullYear(), now.getMonth(), now.getDate(), 23, 59, 59, 999)] *)
Definition endOfToday (now : Z) : Z :=
  dateOfKey (format_yyyy_MM_dd now)
  + (23 * 3600000 + 59 * 60000 + 59 * 1000 + 999).

Definition parseArticleDate (article : Article) : option Z :=
  let raw :=
    match published_date article with
    | None | Some DateEmpty => created_at article
    | Some d => d
    end in
  match raw with
  | DateEmpty => None
  | DateInvalid => None
  | DateValid parsed => Some parsed
  end.

(** ** Records built by the page *)

(** [{ total, read, unread }], the value of [feedTotals] and [countsMap]. *)
Module Counts.
Record t : Type := mk { total : Z; read : Z; unread : Z }.

Definition zero : t := mk 0 0 0.

(** [map.get(key) || { total: 0, read: 0, unread: 0 }] *)
Definition orZero (entry : option t) : t :=
  match entry with Some e => e | None => zero end.

(** [entry.total += 1; if (article.is_read) entry.read += 1; else
    entry.unread += 1;] *)
Definition bump (isRead : bool) (entry : t) : t :=
  mk (total entry + 1)
     (if isRead then read entry + 1 else read entry)
     (if isRead then unread entry else unread entry + 1).
End Counts.

Inductive Sentiment : Type :=
  Positive | SlightlyPositive | Neutral | SlightlyNegative | Negative.

(** The chain of comparisons on [score] in the engagement pass. *)
Definition classify (score : Q) : Sentiment :=
  if Qle_bool (1 # 2) score then Positive
  else if Qle_bool (1 # 20) score then SlightlyPositive
  else if Qle_bool score (- 1 # 2) then Negative
  else if Qle_bool score (- 1 # 20) then SlightlyNegative
  else Neutral.

(** The object [sentimentBuckets] of the engagement pass. *)
Module Buckets.
Record t : Type := mk {
  positive : Z;
  slightlyPositive : Z;
  neutral : Z;
  slightlyNegative : Z;
  negative : Z
}.

Definition zero : t := mk 0 0 0 0 0.

Definition value (s : Sentiment) (b : t) : Z :=
  match s with
  | Positive => positive b
  | SlightlyPositive => slightlyPositive b
  | Neutral => neutral b
  | SlightlyNegative => slightlyNegative b
  | Negative => negative b
  end.

(** [sentimentBuckets.<bucket> += 1] *)
Definition incr (s : Sentiment) (b : t) : t :=
  match s with
  | Positive =>
      mk (positive b + 1) (slightlyPositive b) (neutral b)
         (slightlyNegative b) (negative b)
  | SlightlyPositive =>
      mk (positive b) (slightlyPositive b + 1) (neutral b)
         (slightlyNegative b) (negative b)
  | Neutral =>
      mk (positive b) (slightlyPositive b) (neutral b + 1)
         (slightlyNegative b) (negative b)
  | SlightlyNegative =>
      mk (positive b) (slightlyPositive b) (neutral b)
         (slightlyNegative b + 1) (negative b)
  | Negative =>
      mk (positive b) (slightlyPositive b) (neutral b)
         (slightlyNegative b) (negative b + 1)
  end.

(** [Object.values(b).reduce((sum, value) => sum + value, 0)] *)
Definition sum (b : t) : Z :=
  fold_left Z.add
    [positive b; slightlyPositive b; neutral b; slightlyNegative b;
     negative b] 0.
End Buckets.

(** An element of [feedPerformance]. *)
Module FeedPerformance.
Record t : Type := mk {
  feedId : Z;
  name : string;
  active : bool;
  total : Z;
  read : Z;
  unread : Z;
  readRate : Z
}.
End FeedPerformance.

(** The value of the [engagement] memo. *)
Module Engagement.
Record t : Type := mk {
  total : Z;
  readCount : Z;
  unreadCount : Z;
  bookmarkCount : Z;
  readRate : Z;
  averagePerDay : Z;
  activeFeeds : Z;
  uniqueDays : Z;
  topTopics : list (string * Z);
  feedPerformance : list FeedPerformance.t;
  fallbackSentiments : Buckets.t
}.
End Engagement.

(** [format(date, 'MMM d')] and [format(date, 'MMM d, yyyy')], by the
    pattern and the day they render. *)
Inductive Label : Type :=
  | MMM_d (day : Z)
  | MMM_d_yyyy (day : Z).

Module DailyActivityPoint.
Record t : Type := mk {
  dateKey : Z;
  label : Label;
  read : Z;
  unread : Z;
  total : Z
}.
End DailyActivityPoint.

(** The answer of [articlesApi.getSentimentAnalytics], without
    [daily_trends], which the buckets do not read. *)
Module SentimentAnalytics.
Record t : Type := mk {
  positive : Z;
  slightly_positive : Z;
  neutral : Z;
  slightly_negative : Z;
  negative : Z;
  total : Z
}.
End SentimentAnalytics.

(** An element of the [sentimentBuckets] memo, without [className]. *)
Module SentimentBucket.
Record t : Type := mk {
  id : string;
  label : string;
  value : Z;
  description : string;
  percent : Z
}.
End SentimentBucket.

(** [x || 0] and [x ?? 0] for a counter that may be undefined. *)
Definition orZero (x : option Z) : Z :=
  match x with Some n => n | None => 0 end.

(** ** The engagement pass *)

(** The local variables the [forEach] of the engagement memo updates. *)
Module Acc.
Record t : Type := mk {
  readCount : Z;
  bookmarkCount : Z;
  unreadCount : Z;
  uniqueDaySet : JSSet.t;
  topicCounts : JSMap.t string Z;
  feedTotals : JSMap.t Z Counts.t;
  sentimentBuckets : Buckets.t
}.

Definition init : t :=
  mk 0 0 0 JSSet.empty JSMap.empty JSMap.empty Buckets.zero.
End Acc.

(** [topicCounts.set(topic, (topicCounts.get(topic) || 0) + 1)] *)
Definition countTopic (m : JSMap.t string Z) (topic : string)
    : JSMap.t string Z :=
  JSMap.set String.eqb topic (orZero (JSMap.get String.eqb topic m) + 1) m.

(** The body of [filteredArticles.forEach] in the engagement memo. *)
Definition engagementStep (acc : Acc.t) (article : Article) : Acc.t :=
  let feedEntry :=
    Counts.orZero (JSMap.get Z.eqb (feed_id article) (Acc.feedTotals acc)) in
  Acc.mk
    (if is_read article then Acc.readCount acc + 1 else Acc.readCount acc)
    (if is_bookmarked article
     then Acc.bookmarkCount acc + 1 else Acc.bookmarkCount acc)
    (if is_read article then Acc.unreadCount acc else Acc.unreadCount acc + 1)
    (match parseArticleDate article with
     | Some articleDate =>
         JSSet.add (format_yyyy_MM_dd articleDate) (Acc.uniqueDaySet acc)
     | None => Acc.uniqueDaySet acc
     end)
    (match topics article with
     | Some ts => fold_left countTopic ts (Acc.topicCounts acc)
     | None => Acc.topicCounts acc
     end)
    (JSMap.set Z.eqb (feed_id article)
       (Counts.bump (is_read article) feedEntry) (Acc.feedTotals acc))
    (match sentiment_score article with
     | Some score =>
         Buckets.incr (classify score) (Acc.sentimentBuckets acc)
     | None => Acc.sentimentBuckets acc
     end).

Definition engagementPass (filtered : list Article) : Acc.t :=
  fold_left engagementStep filtered Acc.init.

(** The callback of [.map] that turns an entry of [feedTotals] into an
    element of [feedPerformance]. *)
Definition feedPerformanceOf (feedsById : JSMap.t Z Feed)
    (entry : Z * Counts.t) : FeedPerformance.t :=
  let '(feedId, stats) := entry in
  let feed := JSMap.get Z.eqb feedId feedsById in
  FeedPerformance.mk
    feedId
    (match feed with
     | Some f =>
         match title f with
         | Some s => if String.eqb s EmptyString then "Untitled"%string else s
         | None => "Untitled"%string
         end
     | None => "Untitled"%string
     end)
    (match feed with Some f => is_active f | None => false end)
    (Counts.total stats)
    (Counts.read stats)
    (Counts.unread stats)
    (if 0 <? Counts.total stats
     then percentOf (Counts.read stats) (Counts.total stats) else 0).

(** The chain [.map(...).filter(...).sort(...).slice(0, 10)]. *)
Definition rankFeeds (feedsById : JSMap.t Z Feed)
    (feedTotals : JSMap.t Z Counts.t) : list FeedPerformance.t :=
  slice0 10
    (Array_sort
       (fun a b => FeedPerformance.total b - FeedPerformance.total a)
       (filter (fun item => 0 <? FeedPerformance.total item)
          (map (feedPerformanceOf feedsById) (JSMap.entries feedTotals)))).

(** [Array.from(topicCounts.entries()).sort(...).slice(0, 15)] *)
Definition rankTopics (topicCounts : JSMap.t string Z) : list (string * Z) :=
  slice0 15
    (Array_sort (fun a b : string * Z => snd b - snd a)
       (JSMap.entries topicCounts)).

(** ** The daily activity series *)

(** The body of [filteredArticles.forEach] in the daily activity memo. *)
Definition countsStep (countsMap : JSMap.t Z Counts.t) (article : Article)
    : JSMap.t Z Counts.t :=
  match parseArticleDate article with
  | None => countsMap
  | Some articleDate =>
      let dateKey := format_yyyy_MM_dd articleDate in
      let entry := Counts.orZero (JSMap.get Z.eqb dateKey countsMap) in
      JSMap.set Z.eqb dateKey (Counts.bump (is_read article) entry) countsMap
  end.

Definition countsOf (filtered : list Article) : JSMap.t Z Counts.t :=
  fold_left countsStep filtered JSMap.empty.

(** The values [offset] takes in
    [for (let offset = n - 1; offset >= 0; offset -= 1)], for [n]
    iterations. *)
Fixpoint offsetsFrom (n : nat) : list Z :=
  match n with
  | O => []
  | S n' => Z.of_nat n' :: offsetsFrom n'
  end.

(** The point pushed for one [offset] of the finite window. *)
Definition pointAtOffset (now : Z) (countsMap : JSMap.t Z Counts.t)
    (offset : Z) : DailyActivityPoint.t :=
  let date := subDays now offset in
  let dateKey := format_yyyy_MM_dd date in
  let entry := Counts.orZero (JSMap.get Z.eqb dateKey countsMap) in
  DailyActivityPoint.mk dateKey (MMM_d dateKey)
    (Counts.read entry) (Counts.unread entry) (Counts.total entry).

(** The point pushed for one key of the unbounded window;
    [countsMap.get(key)!] is defined for every key of the map. *)
Definition pointAtKey (countsMap : JSMap.t Z Counts.t) (key : Z)
    : DailyActivityPoint.t :=
  let entry := Counts.orZero (JSMap.get Z.eqb key countsMap) in
  DailyActivityPoint.mk key (MMM_d_yyyy (format_yyyy_MM_dd (dateOfKey key)))
    (Counts.read entry) (Counts.unread entry) (Counts.total entry).

(** The rest of the memo.  [Array.from(countsMap.keys()).sort()] puts
    the key strings in their default order, the order of the days. *)
Definition buildDailyActivity (now : Z) (days : option Z)
    (filtered : list Article) : list DailyActivityPoint.t :=
  let countsMap := countsOf filtered in
  match days with
  | Some n => map (pointAtOffset now countsMap) (offsetsFrom (Z.to_nat n))
  | None =>
      let sortedKeys :=
        Array_sort (fun a b => a - b) (JSMap.keys countsMap) in
      map (pointAtKey countsMap) sortedKeys
  end.

(** ** The read streak *)

(** The state of the walk: [best], [current], [prevDate]. *)
Definition streakStep (st : Z * Z * option Z) (day : DailyActivityPoint.t)
    : Z * Z * option Z :=
  let '(best, current, prevDate) := st in
  let date := dateOfKey (DailyActivityPoint.dateKey day) in
  let current :=
    match prevDate with
    | Some prev =>
        let diff :=
          Math_round (inject_Z (date - prev) / inject_Z MS_PER_DAY)%Q in
        if 1 <? diff then 0 else current
    | None => current
    end in
  if 0 <? DailyActivityPoint.read day
  then (Z.max best (current + 1), current + 1, Some date)
  else (best, 0, Some date).

Definition streakOf (dailyActivity : list DailyActivityPoint.t) : Z :=
  match dailyActivity with
  | [] => 0
  | _ => fst (fst (fold_left streakStep dailyActivity (0, 0, None)))
  end.

(** ** The sentiment buckets *)

Definition withPercent (totals : Z) (bucket : string * string * Z * string)
    : SentimentBucket.t :=
  let '(ident, label, value, description) := bucket in
  SentimentBucket.mk ident label value description
    (if 0 <? totals then percentOf value totals else 0).

(** The five literals of either array of the memo, for the five values. *)
Definition bucketRows (positive slightlyPositive neutral slightlyNegative
    negative : Z) : list (string * string * Z * string) :=
  [("positive", "Positive", positive, "Score ≥ 0.5");
   ("slightlyPositive", "Slightly Positive", slightlyPositive,
    "0.05 — 0.49");
   ("neutral", "Neutral", neutral, "Between -0.04 and 0.04");
   ("slightlyNegative", "Slightly Negative", slightlyNegative,
    "-0.49 — -0.06");
   ("negative", "Negative", negative, "Score ≤ -0.5")]%string.

Definition resolveSentiment (sentimentAnalytics : option SentimentAnalytics.t)
    (engagement : option Engagement.t) : list SentimentBucket.t :=
  let totals :=
    match sentimentAnalytics with
    | Some sa => SentimentAnalytics.total sa
    | None =>
        match engagement with
        | Some e => Buckets.sum (Engagement.fallbackSentiments e)
        | None => 0
        end
    end in
  let fromFallback :=
    match engagement with
    | None => []
    | Some e =>
        let fallback := Engagement.fallbackSentiments e in
        map (withPercent totals)
          (bucketRows (Buckets.positive fallback)
             (Buckets.slightlyPositive fallback) (Buckets.neutral fallback)
             (Buckets.slightlyNegative fallback) (Buckets.negative fallback))
    end in
  match sentimentAnalytics with
  | Some sa =>
      if 0 <? SentimentAnalytics.total sa
      then
        map (withPercent totals)
          (bucketRows (SentimentAnalytics.positive sa)
             (SentimentAnalytics.slightly_positive sa)
             (SentimentAnalytics.neutral sa)
             (SentimentAnalytics.slightly_negative sa)
             (SentimentAnalytics.negative sa))
      else fromFallback
  | None => fromFallback
  end.

(** ** The page: the memos of the [Analytics] component *)

Section Analytics.
Variable now : Z.
Variable articles : option (list Article).
Variable feeds : option (list Feed).
Variable sentimentAnalytics : option SentimentAnalytics.t.
Variable timeRange : TimeRange.

Definition cutoffDate : option Z :=
  match timeRangeDays timeRange with
  | None => None
  | Some n => Some (subDays (endOfToday now) (n - 1))
  end.

Definition filteredArticles : list Article :=
  match articles with
  | None => []
  | Some l =>
      filter
        (fun article =>
           match cutoffDate with
           | None => true
           | Some cutoff =>
               match parseArticleDate article with
               | None => false
               | Some articleDate => cutoff <=? articleDate
               end
           end) l
  end.

Definition feedsById : JSMap.t Z Feed :=
  match feeds with
  | None => JSMap.empty
  | Some l =>
      fold_left (fun m feed => JSMap.set Z.eqb (feed_ident feed) feed m)
        l JSMap.empty
  end.

Definition engagement : option Engagement.t :=
  match feeds, articles with
  | Some fs, Some _ =>
      let acc := engagementPass filteredArticles in
      let feedPerformance := rankFeeds feedsById (Acc.feedTotals acc) in
      let activeFeeds := Z.of_nat (length (filter is_active fs)) in
      let total := Z.of_nat (length filteredArticles) in
      let uniqueDays :=
        if JSSet.size (Acc.uniqueDaySet acc) =? 0
        then orZero (timeRangeDays timeRange)
        else JSSet.size (Acc.uniqueDaySet acc) in
      let averagePerDay :=
        if 0 <? uniqueDays
        then Math_round (inject_Z total / inject_Z uniqueDays)%Q
        else total in
      Some (Engagement.mk
              total
              (Acc.readCount acc)
              (Acc.unreadCount acc)
              (Acc.bookmarkCount acc)
              (if 0 <? total then percentOf (Acc.readCount acc) total else 0)
              averagePerDay
              activeFeeds
              uniqueDays
              (rankTopics (Acc.topicCounts acc))
              feedPerformance
              (Acc.sentimentBuckets acc))
  | _, _ => None
  end.

Definition dailyActivity : list DailyActivityPoint.t :=
  match articles with
  | None => []
  | Some _ => buildDailyActivity now (timeRangeDays timeRange) filteredArticles
  end.

Definition longestReadStreak : Z := streakOf dailyActivity.

Definition sentimentBuckets : list SentimentBucket.t :=
  resolveSentiment sentimentAnalytics engagement.

Definition topFeedsForChart : list FeedPerformance.t :=
  match engagement with
  | Some e => slice0 8 (Engagement.feedPerformance e)
  | None => []
  end.
End Analytics.

(** ** Cluster topics *)

(** A plain object used as [Record<string, number>], created as [{}]: the
    own properties in the order of their creation.

    An object created as [{}] inherits the properties of
    [Object.prototype].  Reading a key that names one of them, while the
    object does not own it, finds the inherited function and not
    [undefined]; what [(acc[topic] || 0) + 1] then stores is a string, the
    comparator of the later sort yields NaN on it, and the order of a
    sort with such a comparator is left to the engine.  The object is
    modelled for the other keys, [inherited key = false], for which a
    read finds the own property or [undefined]; what is stated of counts
    read from the object, or of the order of the result, is stated for
    these keys. *)
Module JSObject.
Definition t : Type := list (string * Z).

Definition empty : t := [].

(** The names of the properties of [Object.prototype]. *)
Definition prototypeKeys : list string :=
  ["constructor"; "hasOwnProperty"; "isPrototypeOf"; "propertyIsEnumerable";
   "toLocaleString"; "toString"; "valueOf"; "__proto__";
   "__defineGetter__"; "__defineSetter__"; "__lookupGetter__";
   "__lookupSetter__"]%string.

(** The key names a property every plain object inherits. *)
Definition inherited (key : string) : bool :=
  existsb (String.eqb key) prototypeKeys.

(** [o[key]] for a key that is not inherited: the own property, or
    [undefined]. *)
Definition get (key : string) (o : t) : option Z :=
  JSMap.get String.eqb key o.

Definition set (key : string) (v : Z) (o : t) : t :=
  JSMap.set String.eqb key v o.

Definition digit (c : ascii) : option Z :=
  let n := Z.of_nat (nat_of_ascii c) in
  if (48 <=? n) && (n <=? 57) then Some (n - 48) else None.

Fixpoint digits (s : string) (acc : Z) : option Z :=
  match s with
  | EmptyString => Some acc
  | String c s' =>
      match digit c with
      | Some d => digits s' (10 * acc + d)
      | None => None
      end
  end.

(** The keys that are array indices: the canonical decimal text of an
    integer from 0 to 2^32 - 2. *)
Definition arrayIndex (key : string) : option Z :=
  match key with
  | EmptyString => None
  | String c rest =>
      if Ascii.eqb c "0" && negb (String.eqb rest EmptyString) then None
      else
        match digits key 0 with
        | Some n => if n <? 2 ^ 32 - 1 then Some n else None
        | None => None
        end
  end.

Definition isIndex (entry : string * Z) : bool :=
  match arrayIndex (fst entry) with Some _ => true | None => false end.

(** [Object.entries]: the array indices in ascending numeric order,
    then the other keys in the order of their creation. *)
Definition entries (o : t) : list (string * Z) :=
  Array_sort
    (fun a b => orZero (arrayIndex (fst a)) - orZero (arrayIndex (fst b)))
    (filter isIndex o)
  ++ filter (fun entry => negb (isIndex entry)) o.
End JSObject.

(** The body of [articleIds.forEach]: [topics.push(...article.topics)]
    for the first article with that id. *)
Definition pushTopics (articles : list Article) (acc : list string)
    (articleId : Z) : list string :=
  match find (fun item => id item =? articleId) articles with
  | Some article =>
      match topics article with
      | Some ts => acc ++ ts
      | None => acc
      end
  | None => acc
  end.

(** The callback of [topics.reduce], [acc[topic] = (acc[topic] || 0) + 1],
    for a topic that is not inherited. *)
Definition tally (acc : JSObject.t) (topic : string) : JSObject.t :=
  JSObject.set topic (orZero (JSObject.get topic acc) + 1) acc.

(** The array [topics] after [articleIds.forEach]. *)
Definition collectTopics (articles : list Article) (articleIds : list Z)
    : list string :=
  fold_left (pushTopics articles) articleIds [].

(** The object [topicCounts]. *)
Definition countTopics (topics : list string) : JSObject.t :=
  fold_left tally topics JSObject.empty.

Definition getClusterTopics (articleIds : list Z)
    (articles : option (list Article)) : list string :=
  match articles with
  | None => []
  | Some l =>
      let topics := collectTopics l articleIds in
      let topicCounts := countTopics topics in
      map fst
        (slice0 3
           (Array_sort (fun a b : string * Z => snd b - snd a)
              (JSObject.entries topicCounts)))
  end.

(** ** The other memos and helpers of the page *)

(** [timeRange === 'all' ? 90 : Number.parseInt(timeRange, 10)] *)
Definition topicTrendDays (timeRange : TimeRange) : Z :=
  match timeRange with
  | RangeAll => 90
  | _ => orZero (timeRangeDays timeRange)
  end.

(** The [queryFn] of the cluster articles: [!selectedCluster] holds for
    [null] and for the number 0; [article.cluster_id === selectedCluster]
    fails for an article without a cluster. *)
Definition clusterArticles (selectedCluster : option Z)
    (articles : option (list Article)) : list Article :=
  match selectedCluster, articles with
  | Some selected, Some l =>
      if selected =? 0 then []
      else
        filter
          (fun article =>
             match cluster_id article with
             | Some c => c =? selected
             | None => false
             end) l
  | _, _ => []
  end.

(** A value of [daily_trends]. *)
Module Trend.
Record t : Type := mk { positive : Z; neutral : Z; negative : Z }.
End Trend.

(** An element of [sentimentTrendData]. *)
Module TrendPoint.
Record t : Type := mk {
  fullDate : Z;
  dateLabel : Label;
  positive : Z;
  neutral : Z;
  negative : Z
}.
End TrendPoint.

(** The callback of [.map] over [Object.entries(daily_trends)]; the key
    is represented by what [new Date(dateKey)] makes of it, and [None]
    stands for the [null] that the following [.filter] removes. *)
Definition trendPointOf (cutoff : option Z) (entry : DateString * Trend.t)
    : option TrendPoint.t :=
  let '(dateKey, counts) := entry in
  match dateKey with
  | DateValid date =>
      let point :=
        TrendPoint.mk date (MMM_d (format_yyyy_MM_dd date))
          (Trend.positive counts) (Trend.neutral counts)
          (Trend.negative counts) in
      match cutoff with
      | Some c => if date <? c then None else Some point
      | None => Some point
      end
  | DateEmpty | DateInvalid => None
  end.

(** [.map(...).filter((item) => !!item)] *)
Fixpoint keepSome {A B : Type} (f : A -> option B) (l : list A) : list B :=
  match l with
  | [] => []
  | x :: l' =>
      match f x with
      | Some y => y :: keepSome f l'
      | None => keepSome f l'
      end
  end.

(** The memo [sentimentTrendData]; [dailyTrends] is
    [sentimentAnalytics?.daily_trends], its entries in the order of
    [Object.entries]. *)
Definition sentimentTrendDataOf (cutoff : option Z)
    (dailyTrends : option (list (DateString * Trend.t)))
    : list TrendPoint.t :=
  match dailyTrends with
  | None => []
  | Some entries =>
      Array_sort (fun a b => TrendPoint.fullDate a - TrendPoint.fullDate b)
        (keepSome (trendPointOf cutoff) entries)
  end.

(** An element of [trending_topics] in the answer of the server. *)
Module TopicTrend.
Record t : Type := mk { topic : string; count : Z; growth : Q }.
End TopicTrend.

(** An element of the memo [trendingTopics]. *)
Module TrendingTopic.
Record t : Type := mk { topic : string; count : Z; growth : option Q }.
End TrendingTopic.

(** The memo [trendingTopics]; [trending] is
    [topicTrends?.trending_topics]. *)
Definition trendingTopicsOf (trending : option (list TopicTrend.t))
    (engagement : option Engagement.t) : list TrendingTopic.t :=
  let fromEngagement :=
    match engagement with
    | Some e =>
        map (fun item : string * Z =>
               TrendingTopic.mk (fst item) (snd item) None)
          (slice0 8 (Engagement.topTopics e))
    | None => []
    end in
  match trending with
  | Some (item :: rest) =>
      map (fun item =>
             TrendingTopic.mk (TopicTrend.topic item) (TopicTrend.count item)
               (Some (TopicTrend.growth item)))
        (item :: rest)
  | Some [] | None => fromEngagement
  end.

(** An element of [clusterData.clusters]. *)
Module Cluster.
Record t : Type := mk {
  cluster_id : Z;
  article_count : Z;
  article_ids : list Z
}.
End Cluster.

(** [clusters.reduce((sum, cluster) => sum + cluster.article_count, 0)] *)
Definition clusteredArticleCount (clusters : list Cluster.t) : Z :=
  fold_left (fun sum cluster => sum + Cluster.article_count cluster)
    clusters 0.

(** [clusters.slice().sort((a, b) => b.article_count - a.article_count)] *)
Definition clustersBySize (clusters : list Cluster.t) : list Cluster.t :=
  Array_sort (fun a b => Cluster.article_count b - Cluster.article_count a)
    clusters.

(** The [tickFormatter] of the feed chart; a character stands for one
    UTF-16 code unit. *)
Definition tickFormatter (value : string) : string :=
  if (16 <? String.length value)%nat
  then (String.substring 0 16 value ++ "...")%string
  else value.

(** ** The article card ([components/ArticleCard.tsx]) *)

Module ArticleCard.
(** [getSentimentInfo], the [label] of its answer. *)
Definition getSentimentInfo (score : option Q) : option string :=
  match score with
  | None => None
  | Some score =>
      if Qle_bool (1 # 2) score then Some "Positive"%string
      else if Qle_bool (1 # 20) score then Some "Slightly Positive"%string
      else if Qle_bool score (- 1 # 2) then Some "Negative"%string
      else if Qle_bool score (- 1 # 20) then Some "Slightly Negative"%string
      else Some "Neutral"%string
  end.
End ArticleCard.

(** ** The clusters page ([pages/Clusters.tsx]) *)

Module Clusters.
(** The body of [clusterArticles.forEach]. *)
Definition pushArticleTopics (acc : list string) (article : Article)
    : list string :=
  match topics article with
  | Some ts => acc ++ ts
  | None => acc
  end.

(** The array [allTopics]: the topics of the articles whose id the list
    includes, in the order of the articles. *)
Definition collectTopics (allArticles : list Article) (articleIds : list Z)
    : list string :=
  fold_left pushArticleTopics
    (filter (fun a => existsb (Z.eqb (id a)) articleIds) allArticles) [].

(** [getClusterTopics] of the clusters page. *)
Definition getClusterTopics (articleIds : list Z)
    (allArticles : option (list Article)) : list string :=
  match allArticles with
  | None => []
  | Some l =>
      let allTopics := collectTopics l articleIds in
      let topicCounts := fold_left tally allTopics JSObject.empty in
      map fst
        (slice0 3
           (Array_sort (fun a b : string * Z => snd b - snd a)
              (JSObject.entries topicCounts)))
  end.
End Clusters.

(** ** The page, continued *)

Section AnalyticsTrends.
Variable now : Z.
Variable articles : option (list Article).
Variable feeds : option (list Feed).
Variable timeRange : TimeRange.
Variable dailyTrends : option (list (DateString * Trend.t)).
Variable trending : option (list TopicTrend.t).

Definition sentimentTrendData : list TrendPoint.t :=
  sentimentTrendDataOf (cutoffDate now timeRange) dailyTrends.

Definition trendingTopics : list TrendingTopic.t :=
  trendingTopicsOf trending (engagement now articles feeds timeRange).
End AnalyticsTrends.

(** ** Vocabulary of the statements *)

(** How many elements of a list pass a test. *)
Definition countIf {A : Type} (f : A -> bool) (l : list A) : Z :=
  Z.of_nat (length (filter f l)).

Definition sumZ (l : list Z) : Z := fold_right Z.add 0 l.

(** The calendar day of an article's effective date, when it parses. *)
Definition dayOf (article : Article) : option Z :=
  option_map format_yyyy_MM_dd (parseArticleDate article).

Definition hasDate (article : Article) : bool :=
  match parseArticleDate article with Some _ => true | None => false end.

Definition onDay (day : Z) (article : Article) : bool :=
  match dayOf article with Some d => d =? day | None => false end.



Definition Sentiment_eqb (x y : Sentiment) : bool :=
  match x, y with
  | Positive, Positive
  | SlightlyPositive, SlightlyPositive
  | Neutral, Neutral
  | SlightlyNegative, SlightlyNegative
  | Negative, Negative => true
  | _, _ => false
  end.

(** The article carries a score that the thresholds put in the bucket. *)
Definition scoredAs (bucket : Sentiment) (article : Article) : bool :=
  match sentiment_score article with
  | Some score => Sentiment_eqb (classify score) bucket
  | None => false
  end.

(** [title ?? fallback], in the words of the specification. *)
Definition nullishOr (value : option string) (fallback : string) : string :=
  match value with Some s => s | None => fallback end.

(** [title || fallback]: an absent or empty title gives way. *)
Definition truthyOr (value : option string) (fallback : string) : string :=
  match value with
  | Some (String c s) => String c s
  | Some EmptyString | None => fallback
  end.

(** The statistics of a source hold together. *)
Definition balanced (stats : Counts.t) : Prop :=
  Counts.read stats + Counts.unread stats = Counts.total stats.

(** Successive points are no more than one day apart; in an ascending
    series they are on consecutive calendar days. *)
Fixpoint noGap (l : list DailyActivityPoint.t) : Prop :=
  match l with
  | p :: (q :: _) as rest =>
      DailyActivityPoint.dateKey q - DailyActivityPoint.dateKey p <= 1
      /\ noGap rest
  | _ => True
  end.

(** Each point is on the calendar day after the point before it. *)
Fixpoint consecutiveDays (l : list DailyActivityPoint.t) : Prop :=
  match l with
  | p :: (q :: _) as rest =>
      DailyActivityPoint.dateKey q = DailyActivityPoint.dateKey p + 1
      /\ consecutiveDays rest
  | _ => True
  end.

(** A run: days that follow each other without a gap, each with a read
    article. *)
Definition isRun (run : list DailyActivityPoint.t) : Prop :=
  Forall (fun p => 0 < DailyActivityPoint.read p) run /\ noGap run.

(** The day of the last point. *)
Fixpoint lastKey (l : list DailyActivityPoint.t) : option Z :=
  match l with
  | [] => None
  | [p] => Some (DailyActivityPoint.dateKey p)
  | _ :: rest => lastKey rest
  end.

(** What the walk of the streak knows after the points [pre]: the day
    of the last point, the longest run that ends [pre], and the longest
    run anywhere in [pre]. *)
Definition streakInv (pre : list DailyActivityPoint.t)
    (st : Z * Z * option Z) : Prop :=
  let '(best, current, prevDate) := st in
  prevDate = option_map dateOfKey (lastKey pre)
  /\ (exists l1 run,
        pre = l1 ++ run /\ isRun run /\ Z.of_nat (length run) = current)
  /\ (forall l1 run,
        pre = l1 ++ run -> isRun run -> Z.of_nat (length run) <= current)
  /\ (exists l1 run l2,
        pre = l1 ++ run ++ l2 /\ isRun run /\ Z.of_nat (length run) = best)
  /\ (forall l1 run l2,
        pre = l1 ++ run ++ l2 -> isRun run -> Z.of_nat (length run) <= best).

(** The percentage as the specification writes it, round(a / b * 100),
    in exact arithmetic. *)
Definition exactPercent (a b : Z) : Z :=
  Math_round ((inject_Z a / inject_Z b) * 100)%Q.

(** The topics a member id contributes: those of the first article with
    that id, none when there is no such article or it has no topics. *)
Definition memberTopics (articles : list Article) (articleId : Z)
    : list string :=
  match find (fun item => id item =? articleId) articles with
  | Some article =>
      match topics article with Some ts => ts | None => [] end
  | None => []
  end.

(** Descending by [key], ties in the order [T]. *)
Definition descendingThen {A : Type} (key : A -> Z) (T : A -> A -> Prop)
    (x y : A) : Prop :=
  key y < key x \/ (key y = key x /\ T x y).

(** How often a topic occurs in the accumulation. *)
Definition frequency (ts : list string) (topic : string) : Z :=
  countIf (String.eqb topic) ts.

(** [t1] is seen in the accumulation before [t2] is. *)
Definition firstSeenBefore (ts : list string) (t1 t2 : string) : Prop :=
  t1 <> t2 /\ exists pre post, ts = pre ++ t1 :: post /\ ~ In t2 pre.

(** [t1] ranks before [t2]: it is more frequent, or as frequent and seen
    first. *)
Definition ranksBefore (ts : list string) (t1 t2 : string) : Prop :=
  frequency ts t2 < frequency ts t1
  \/ (frequency ts t2 = frequency ts t1 /\ firstSeenBefore ts t1 t2).

(** The article carries a sentiment score. *)
Definition hasScore (article : Article) : bool :=
  match sentiment_score article with Some _ => true | None => false end.

(** The article belongs to the feed. *)
Definition ofFeed (feed : Z) (article : Article) : bool :=
  feed_id article =? feed.

(** The topics of an article, none when the list is absent. *)
Definition topicsOf (article : Article) : list string :=
  match topics article with Some ts => ts | None => [] end.

(** The first range is not longer than the second. *)
Definition withinRange (inner outer : TimeRange) : bool :=
  match timeRangeDays inner, timeRangeDays outer with
  | _, None => true
  | Some a, Some b => a <=? b
  | None, Some _ => false
  end.

(** A day of the series has a read article. *)
Definition hasRead (day : DailyActivityPoint.t) : bool :=
  0 <? DailyActivityPoint.read day.

(** The entry of [daily_trends] has a key that parses to a date not
    before the cutoff. *)
Definition trendKept (cutoff : option Z) (entry : DateString * Trend.t)
    : bool :=
  match fst entry, cutoff with
  | DateValid date, Some c => c <=? date
  | DateValid _, None => true
  | _, _ => false
  end.

(** ** Sample inputs *)

Module Sample.
(** 15:00 on day 20000 of the local calendar. *)
Definition now : Z := 20000 * MS_PER_DAY + 15 * 3600000.

Definition article (ident feed : Z) (date : Z) (isRead : bool)
    (score : option Q) (ts : option (list string)) : Article :=
  mkArticle ident feed (Some (DateValid date)) (DateValid date) None
    score ts isRead false.

(** Read today, unread and read yesterday. *)
Definition threeArticles : list Article :=
  [article 1 1 now true (Some (6 # 10)) (Some ["AI"; "Tech"]%string);
   article 2 1 (now - MS_PER_DAY) false (Some (- 6 # 10))
     (Some ["AI"; "Climate"]%string);
   article 3 2 (now - MS_PER_DAY) true None None].

(** Published at noon six days ago. *)
Definition sixDaysAgo : Article :=
  article 4 1 (now - 6 * MS_PER_DAY - 3 * 3600000) true None None.


Definition feedList : list Feed :=
  [mkFeed 1 (Some EmptyString) true; mkFeed 2 None false].

(** Forty articles of the first feed, dated now, the first 23 of them
    read. *)
Definition fortyArticles : list Article :=
  map (fun i => article i 1 now (i <=? 23) None None)
    (map Z.of_nat (seq 1 40)).

(** One article of three topics, one of a single topic. *)
Definition clusterArticles : list Article :=
  [article 1 1 now true None (Some ["a"; "b"; "c"]%string);
   article 2 1 now true None (Some ["d"]%string)].

(** An article whose second topic reads as an integer. *)
Definition numberedTopic : list Article :=
  [article 1 1 now true None (Some ["b"; "1"]%string)].

(** Seven consecutive days with the reads 1, 1, 0, 1, 1, 1, 0. *)
Definition weekOfReads : list DailyActivityPoint.t :=
  map (fun '(i, r) =>
         DailyActivityPoint.mk (19994 + i) (MMM_d (19994 + i)) r (2 - r) 2)
    [(0, 1); (1, 1); (2, 0); (3, 1); (4, 1); (5, 1); (6, 0)].

(** An aggregate of the server that counted nothing. *)
Definition emptyAggregate : SentimentAnalytics.t :=
  SentimentAnalytics.mk 0 0 0 0 0 0.
End Sample.

(** * Properties *)

(** ** Double-precision rounding *)

Section DoubleFacts.
Import Double.

Lemma pow2_pos (e : Z) : (0 < pow2 e)%Q.
Proof. apply Qpower_0_lt. reflexivity. Qed.

Lemma pow2_add (a b : Z) : (pow2 (a + b) == pow2 a * pow2 b)%Q.
Proof. apply Qpower_plus. discriminate. Qed.

Lemma pow2_le (a b : Z) : a <= b -> (pow2 a <= pow2 b)%Q.
Proof. intros H. apply Qpower_le_compat_l; [exact H | discriminate]. Qed.

Lemma pow2_le_inv (a b : Z) : (pow2 a <= pow2 b)%Q -> a <= b.
Proof. intros H. apply (Qpower_le_compat_l_inv 2); [exact H | reflexivity]. Qed.

Lemma pow2_Z (k : Z) : 0 <= k -> (pow2 k == inject_Z (2 ^ k))%Q.
Proof.
  intros H. unfold pow2. rewrite Zpower_Qpower by exact H. reflexivity.
Qed.

(** The exponent the model takes for a positive number is its binade:
    [2^e <= x < 2^(e+1)]. *)
Lemma binade_lower (x : Q) : (0 < x)%Q -> (pow2 (binade x) <= x)%Q.
Proof.
  intros Hx. unfold binade.
  set (ln := Z.log2 (Qnum x)). set (ld := Z.log2 (Z.pos (Qden x))).
  destruct (Qle_bool (pow2 (ln - ld)) x) eqn:E; [now apply Qle_bool_iff |].
  destruct x as [n d]. cbn [Qnum Qden] in *.
  assert (Hn : 0 < n) by (unfold Qlt in Hx; cbn in Hx; lia).
  assert (Hln : 0 <= ln) by apply Z.log2_nonneg.
  assert (Hld : 0 <= ld) by apply Z.log2_nonneg.
  pose proof (Z.log2_spec n Hn) as [Hn1 _]. fold ln in Hn1.
  pose proof (Z.log2_spec (Z.pos d) (Pos2Z.is_pos d)) as [_ Hd2].
  fold ld in Hd2.
  replace (ln - ld - 1) with (ln + - (ld + 1)) by lia.
  rewrite pow2_add. unfold pow2 at 2. rewrite Qpower_opp. fold (pow2 (ld + 1)).
  rewrite (pow2_Z ln Hln), (pow2_Z (ld + 1)) by lia.
  assert (H1 : 0 < 2 ^ ln) by (apply Z.pow_pos_nonneg; lia).
  assert (H2 : 0 < 2 ^ (ld + 1)) by (apply Z.pow_pos_nonneg; lia).
  unfold Z.succ in Hd2.
  destruct (2 ^ (ld + 1)) as [| pb | pb] eqn:Eb; try lia.
  unfold Qle, Qmult, Qinv, inject_Z. cbn [Qnum Qden].
  rewrite Pos.mul_1_l, Z.mul_1_r. nia.
Qed.

Lemma binade_upper (x : Q) : (0 < x)%Q -> (x < pow2 (binade x + 1))%Q.
Proof.
  intros Hx. unfold binade.
  set (ln := Z.log2 (Qnum x)). set (ld := Z.log2 (Z.pos (Qden x))).
  destruct (Qle_bool (pow2 (ln - ld)) x) eqn:E.
  - destruct x as [n d]. cbn [Qnum Qden] in *.
    assert (Hn : 0 < n) by (unfold Qlt in Hx; cbn in Hx; lia).
    assert (Hln : 0 <= ln) by apply Z.log2_nonneg.
    assert (Hld : 0 <= ld) by apply Z.log2_nonneg.
    pose proof (Z.log2_spec n Hn) as [_ Hn2]. fold ln in Hn2.
    pose proof (Z.log2_spec (Z.pos d) (Pos2Z.is_pos d)) as [Hd1 _].
    fold ld in Hd1. unfold Z.succ in Hn2.
    replace (ln - ld + 1) with (ln + 1 + - ld) by lia.
    rewrite pow2_add. unfold pow2 at 2. rewrite Qpower_opp. fold (pow2 ld).
    rewrite (pow2_Z (ln + 1)), (pow2_Z ld) by lia.
    assert (H2 : 0 < 2 ^ ld) by (apply Z.pow_pos_nonneg; lia).
    destruct (2 ^ ld) as [| pb | pb] eqn:Eb; try lia.
    unfold Qlt, Qmult, Qinv, inject_Z. cbn [Qnum Qden].
    rewrite Pos.mul_1_l, Z.mul_1_r. nia.
  - replace (ln - ld - 1 + 1) with (ln - ld) by lia.
    apply Qnot_le_lt. intros H. apply Qle_bool_iff in H. congruence.
Qed.

Lemma nearestEven_le (x : Q) (M : Z) :
  (x <= inject_Z M)%Q -> nearestEven x <= M.
Proof.
  intros H. unfold nearestEven.
  pose proof (Qfloor_le x) as Hf. pose proof (Qlt_floor x) as Hf'.
  pose proof (Qfloor_resp_le _ _ H) as Hm. rewrite Qfloor_Z in Hm.
  destruct (Qcompare_spec (x - inject_Z (Qfloor x)) (1 # 2)) as [E | E | E].
  - destruct (Z.even (Qfloor x)); [exact Hm |].
    destruct (Z.eq_dec (Qfloor x) M) as [Heq | Hne]; [| lia].
    exfalso. rewrite Heq in E. clear - E H.
    generalize dependent (inject_Z M). intros y H E. lra.
  - exact Hm.
  - destruct (Z.eq_dec (Qfloor x) M) as [Heq | Hne]; [| lia].
    exfalso. rewrite Heq in E. clear - E H.
    generalize dependent (inject_Z M). intros y H E. lra.
Qed.

Lemma nearestEven_nonneg (x : Q) : (0 <= x)%Q -> 0 <= nearestEven x.
Proof.
  intros H. unfold nearestEven.
  pose proof (Qfloor_resp_le _ _ H) as Hf. change (Qfloor 0) with 0 in Hf.
  destruct (x - inject_Z (Qfloor x) ?= 1 # 2)%Q;
    [destruct (Z.even (Qfloor x)) | |]; lia.
Qed.

(** Rounding to an integer moves a number by half a unit at most. *)
Lemma nearestEven_close (y : Q) :
  (y - (1 # 2) <= inject_Z (nearestEven y))%Q
  /\ (inject_Z (nearestEven y) <= y + (1 # 2))%Q.
Proof.
  unfold nearestEven.
  pose proof (Qfloor_le y) as Hf. pose proof (Qlt_floor y) as Hf'.
  rewrite inject_Z_plus in Hf'. change (inject_Z 1) with 1%Q in Hf'.
  destruct (Qcompare_spec (y - inject_Z (Qfloor y)) (1 # 2)) as [E | E | E].
  - destruct (Z.even (Qfloor y)).
    + generalize dependent (inject_Z (Qfloor y)). intros f. intros. lra.
    + rewrite inject_Z_plus. change (inject_Z 1) with 1%Q.
      generalize dependent (inject_Z (Qfloor y)). intros f. intros. lra.
  - generalize dependent (inject_Z (Qfloor y)). intros f. intros. lra.
  - rewrite inject_Z_plus. change (inject_Z 1) with 1%Q.
    generalize dependent (inject_Z (Qfloor y)). intros f. intros. lra.
Qed.

(** An integer rounds to itself. *)
Lemma nearestEven_integer (x : Q) (k : Z) :
  (x == inject_Z k)%Q -> nearestEven x = k.
Proof.
  intros H. unfold nearestEven.
  assert (Hf : Qfloor x = k) by (rewrite (Qfloor_comp _ _ H); apply Qfloor_Z).
  rewrite Hf.
  destruct (Qcompare_spec (x - inject_Z k) (1 # 2)) as [E | E | E].
  - exfalso. generalize dependent (inject_Z k). intros y H E. lra.
  - reflexivity.
  - exfalso. generalize dependent (inject_Z k). intros y H E. lra.
Qed.

(** The significand of a rounded number has 53 bits. *)
Lemma significand_range (x : Q) :
  (0 < x)%Q ->
  2 ^ 52 <= nearestEven (x / pow2 (binade x - 52)) <= 2 ^ 53.
Proof.
  intros Hx. set (e := binade x).
  pose proof (binade_lower x Hx) as H1. pose proof (binade_upper x Hx) as H2.
  fold e in H1, H2.
  pose proof (pow2_pos (e - 52)) as Hu.
  assert (Hlo : (inject_Z (2 ^ 52) <= x / pow2 (e - 52))%Q).
  { apply Qle_shift_div_l; [exact Hu |].
    rewrite <- (pow2_Z 52), <- pow2_add by lia.
    replace (52 + (e - 52)) with e by lia. exact H1. }
  assert (Hhi : (x / pow2 (e - 52) <= inject_Z (2 ^ 53))%Q).
  { apply Qle_shift_div_r; [exact Hu |].
    rewrite <- (pow2_Z 53), <- pow2_add by lia.
    replace (53 + (e - 52)) with (e + 1) by lia. apply Qlt_le_weak, H2. }
  split; [| apply nearestEven_le, Hhi].
  destruct (nearestEven_close (x / pow2 (e - 52))) as [G _].
  assert (G' : (inject_Z (2 ^ 52 - 1)
                < inject_Z (nearestEven (x / pow2 (e - 52))))%Q).
  { eapply Qlt_le_trans; [| exact G].
    change (inject_Z (2 ^ 52 - 1)) with (4503599627370495 # 1)%Q.
    change (inject_Z (2 ^ 52)) with (4503599627370496 # 1)%Q in Hlo.
    generalize dependent (x / pow2 (e - 52))%Q. intros y. intros. lra. }
  rewrite <- Zlt_Qlt in G'. lia.
Qed.

Lemma roundPositive_nonneg (x : Q) : (0 < x)%Q -> (0 <= roundPositive x)%Q.
Proof.
  intros Hx. unfold roundPositive.
  pose proof (pow2_pos (binade x - 52)) as Hu.
  apply Qmult_le_0_compat; [| lra].
  change 0%Q with (inject_Z 0). rewrite <- Zle_Qle. apply nearestEven_nonneg.
  apply Qle_shift_div_l; lra.
Qed.

Lemma roundPositive_le (x : Q) (c : Z) :
  (0 < x)%Q -> (x <= inject_Z c)%Q -> c <= 2 ^ 52 ->
  (roundPositive x <= inject_Z c)%Q.
Proof.
  intros Hx Hc Hc52. unfold roundPositive.
  set (e := binade x).
  pose proof (binade_lower x Hx) as He. fold e in He.
  assert (He52 : e <= 52).
  { apply pow2_le_inv. rewrite (pow2_Z 52) by lia.
    rewrite Zle_Qle in Hc52. lra. }
  pose proof (pow2_pos (e - 52)) as Hu.
  assert (Hinv : (pow2 (e - 52) * pow2 (52 - e) == 1)%Q).
  { rewrite <- pow2_add. replace (e - 52 + (52 - e)) with 0 by lia.
    reflexivity. }
  assert (HN : nearestEven (x / pow2 (e - 52)) <= c * 2 ^ (52 - e)).
  { apply nearestEven_le. rewrite inject_Z_mult, <- (pow2_Z (52 - e)) by lia.
    apply Qle_shift_div_r; [exact Hu |].
    rewrite <- Qmult_assoc, (Qmult_comm (pow2 (52 - e))), Hinv, Qmult_1_r.
    exact Hc. }
  rewrite Zle_Qle, inject_Z_mult, <- (pow2_Z (52 - e)) in HN by lia.
  apply Qle_trans
    with (inject_Z c * pow2 (52 - e) * pow2 (e - 52))%Q.
  - apply Qmult_le_compat_r; [exact HN | lra].
  - rewrite <- Qmult_assoc, (Qmult_comm (pow2 (52 - e))), Hinv, Qmult_1_r.
    apply Qle_refl.
Qed.

(** Rounding does not cross a counter: a number between 0 and a counter
    rounds to a number between them. *)
Lemma round_bounds (x : Q) (c : Z) :
  (0 <= x)%Q -> (x <= inject_Z c)%Q -> c <= 2 ^ 52 ->
  (0 <= round x)%Q /\ (round x <= inject_Z c)%Q.
Proof.
  intros H0 Hc Hc52. unfold round.
  destruct (Qcompare_spec x 0) as [E | E | E].
  - split; [apply Qle_refl | lra].
  - lra.
  - split; [apply roundPositive_nonneg, E | now apply roundPositive_le].
Qed.

Lemma roundPositive_close (x : Q) :
  (0 < x)%Q ->
  (x * (1 - unitRoundoff) <= roundPositive x)%Q
  /\ (roundPositive x <= x * (1 + unitRoundoff))%Q.
Proof.
  intros Hx. unfold roundPositive.
  set (e := binade x).
  pose proof (binade_lower x Hx) as He. fold e in He.
  pose proof (pow2_pos (e - 52)) as Hu.
  set (ulp := pow2 (e - 52)) in *.
  destruct (nearestEven_close (x / ulp)) as [H1 H2].
  set (N := inject_Z (nearestEven (x / ulp))) in *.
  assert (Hy : (x / ulp * ulp == x)%Q) by (field; lra).
  assert (Hhalf : (ulp * (1 # 2) <= x * unitRoundoff)%Q).
  { unfold ulp. replace (e - 52) with (e + -52) by lia.
    rewrite pow2_add.
    setoid_replace (pow2 e * pow2 (-52) * (1 # 2))%Q
      with (pow2 e * unitRoundoff)%Q
      by (unfold unitRoundoff;
          change (pow2 (-52)) with (1 # 4503599627370496)%Q; ring).
    apply Qmult_le_compat_r; [exact He | discriminate]. }
  assert (G1 : ((x / ulp - (1 # 2)) * ulp <= N * ulp)%Q)
    by (apply Qmult_le_compat_r; [exact H1 | lra]).
  assert (G2 : (N * ulp <= (x / ulp + (1 # 2)) * ulp)%Q)
    by (apply Qmult_le_compat_r; [exact H2 | lra]).
  setoid_replace ((x / ulp - (1 # 2)) * ulp)%Q
    with (x / ulp * ulp - ulp * (1 # 2))%Q in G1 by ring.
  setoid_replace ((x / ulp + (1 # 2)) * ulp)%Q
    with (x / ulp * ulp + ulp * (1 # 2))%Q in G2 by ring.
  rewrite Hy in G1, G2.
  generalize dependent (N * ulp)%Q. intros r G1 G2.
  generalize dependent (ulp * (1 # 2))%Q. intros h Hh G1 G2.
  split; lra.
Qed.

(** The relative error of a rounding is at most the unit roundoff. *)
Lemma round_close (x : Q) :
  (0 <= x)%Q ->
  (x * (1 - unitRoundoff) <= round x)%Q
  /\ (round x <= x * (1 + unitRoundoff))%Q.
Proof.
  intros Hx. unfold round.
  destruct (Qcompare_spec x 0) as [E | E | E].
  - rewrite E. split; lra.
  - lra.
  - apply roundPositive_close, E.
Qed.

(** A counter below 2^53 is a double: converting it rounds nothing. *)
Lemma round_integer (z : Z) :
  0 <= z < 2 ^ 53 -> (round (inject_Z z) == inject_Z z)%Q.
Proof.
  intros [Hz0 Hz53]. unfold round.
  destruct (Qcompare_spec (inject_Z z) 0) as [E | E | E].
  - symmetry. exact E.
  - exfalso. change 0%Q with (inject_Z 0) in E. rewrite <- Zlt_Qlt in E. lia.
  - unfold roundPositive. set (e := binade (inject_Z z)).
    pose proof (binade_lower _ E) as He. fold e in He.
    assert (He52 : e <= 52).
    { assert (H : e < 53); [| lia].
      apply Z.nle_gt. intros H. apply pow2_le in H.
      rewrite (pow2_Z 53) in H by lia.
      rewrite Zlt_Qlt in Hz53. lra. }
    pose proof (pow2_pos (e - 52)) as Hu.
    assert (Hinv : (pow2 (52 - e) * pow2 (e - 52) == 1)%Q).
    { rewrite <- pow2_add. replace (52 - e + (e - 52)) with 0 by lia.
      reflexivity. }
    rewrite (nearestEven_integer _ (z * 2 ^ (52 - e))).
    + rewrite inject_Z_mult, <- (pow2_Z (52 - e)) by lia.
      rewrite <- Qmult_assoc, Hinv. ring.
    + rewrite inject_Z_mult, <- (pow2_Z (52 - e)) by lia.
      apply Qmult_inj_r with (z := pow2 (e - 52)); [lra |].
      setoid_replace (inject_Z z / pow2 (e - 52) * pow2 (e - 52))%Q
        with (inject_Z z) by (field; lra).
      rewrite <- Qmult_assoc, Hinv. ring.
Qed.

(** A number with a significand of at most 53 bits is a double. *)
Lemma round_dyadic (x : Q) (m k : Z) :
  0 < m < 2 ^ 53 -> (x == inject_Z m * pow2 k)%Q -> (round x == x)%Q.
Proof.
  intros [Hm0 Hm53] Hx.
  pose proof (pow2_pos k) as Hk.
  assert (Hm0' : (0 < inject_Z m)%Q)
    by (change 0%Q with (inject_Z 0); now rewrite <- Zlt_Qlt).
  assert (Hpos : (0 < x)%Q).
  { rewrite Hx. apply Qmult_lt_0_compat; assumption. }
  unfold round. destruct (Qcompare_spec x 0) as [E | E | E]; try lra.
  unfold roundPositive. set (e := binade x).
  pose proof (binade_lower x Hpos) as He. fold e in He.
  assert (Hek : e - 52 <= k).
  { assert (H : e < 53 + k); [| lia].
    apply Z.nle_gt. intros H. apply pow2_le in H.
    rewrite pow2_add, (pow2_Z 53) in H by lia.
    assert (Hlt : (inject_Z m * pow2 k < inject_Z (2 ^ 53) * pow2 k)%Q).
    { apply Qmult_lt_compat_r; [exact Hk |]. now rewrite <- Zlt_Qlt. }
    rewrite <- Hx in Hlt.
    generalize dependent (inject_Z (2 ^ 53) * pow2 k)%Q. intros y H Hlt.
    generalize dependent (pow2 e). intros z He H. lra. }
  pose proof (pow2_pos (e - 52)) as Hu.
  assert (Hsplit : (pow2 k == pow2 (k - (e - 52)) * pow2 (e - 52))%Q).
  { rewrite <- pow2_add. replace (k - (e - 52) + (e - 52)) with k by lia.
    reflexivity. }
  assert (Hint : (x / pow2 (e - 52)
                  == inject_Z (m * 2 ^ (k - (e - 52))))%Q).
  { rewrite inject_Z_mult, <- (pow2_Z (k - (e - 52))) by lia.
    rewrite Hx, Hsplit. field. lra. }
  rewrite (nearestEven_integer _ _ Hint).
  rewrite inject_Z_mult, <- (pow2_Z (k - (e - 52))) by lia.
  rewrite Hx, Hsplit. ring.
Qed.

Lemma Qfloor_unique (y : Q) (F : Z) :
  (inject_Z F <= y)%Q -> (y < inject_Z (F + 1))%Q -> Qfloor y = F.
Proof.
  intros H1 H2.
  pose proof (Qfloor_resp_le _ _ H1) as G1. rewrite Qfloor_Z in G1.
  pose proof (Qfloor_le y) as G2.
  assert (G3 : (inject_Z (Qfloor y) < inject_Z (F + 1))%Q)
    by (eapply Qle_lt_trans; eassumption).
  rewrite <- Zlt_Qlt in G3. lia.
Qed.

(** The exact rounding, in integer arithmetic. *)
Lemma exactPercent_div (a b : Z) :
  0 < b -> exactPercent a b = (200 * a + b) / (2 * b).
Proof.
  intros Hb. destruct b as [| p | p]; try lia.
  unfold exactPercent, Math_round, Qfloor, Qplus, Qdiv, Qinv, inject_Z.
  cbn [Qnum Qden Qmult].
  rewrite !Pos.mul_1_l, !Pos.mul_1_r, Pos2Z.inj_mul.
  f_equal; lia.
Qed.

(** The percentage of a part is between 0 and 100. *)
Lemma percentOf_bounds (a b : Z) :
  0 <= a <= b -> 0 < b -> 0 <= percentOf a b <= 100.
Proof.
  intros Ha Hb. unfold percentOf, mul, div.
  assert (Hq : (0 <= inject_Z a / inject_Z b)%Q
               /\ (inject_Z a / inject_Z b <= inject_Z 1)%Q).
  { rewrite Zlt_Qlt in Hb. destruct Ha as [Ha0 Hab].
    rewrite Zle_Qle in Ha0, Hab.
    change (inject_Z 0) with 0%Q in Ha0, Hb. change (inject_Z 1) with 1%Q.
    split.
    - apply Qle_shift_div_l; [exact Hb | lra].
    - apply Qle_shift_div_r; [exact Hb | lra]. }
  destruct Hq as [Hq0 Hq1].
  destruct (round_bounds _ 1 Hq0 Hq1) as [Hr0 Hr1]; [lia |].
  set (q := round (inject_Z a / inject_Z b)) in *.
  assert (Hp0 : (0 <= q * 100)%Q)
    by (change (inject_Z 1) with 1%Q in Hr1; lra).
  assert (Hp1 : (q * 100 <= inject_Z 100)%Q)
    by (change (inject_Z 1) with 1%Q in Hr1;
        change (inject_Z 100) with 100%Q; lra).
  destruct (round_bounds _ 100 Hp0 Hp1) as [Hs0 Hs1]; [lia |].
  set (p := round (q * 100)) in *.
  unfold Math_round. split.
  - change 0 with (Qfloor 0). apply Qfloor_resp_le. lra.
  - assert (H : Qfloor (p + (1 # 2)) <= Qfloor (inject_Z 100 + (1 # 2)))
      by (apply Qfloor_resp_le; lra).
    exact H.
Qed.

(** The percentage the engine computes is the exact rounding, except
    that it may be one less when [a / b * 100] lies halfway between two
    integers: the two roundings move the product by less than 2^-44,
    and a product that is not halfway is at least [1 / (2 b)] away from
    the half. *)
Lemma percentOf_exact (a b : Z) :
  0 <= a <= b -> 0 < b < 2 ^ 32 ->
  percentOf a b = exactPercent a b
  \/ ((200 * a + b) mod (2 * b) = 0
      /\ percentOf a b = exactPercent a b - 1).
Proof.
  intros [Ha0 Hab] [Hb0 Hb32].
  rewrite exactPercent_div by exact Hb0.
  set (T := 200 * a + b). set (D := 2 * b).
  assert (HD : 0 < D) by (unfold D; lia).
  pose proof (Z.div_mod T D ltac:(lia)) as Hdm.
  pose proof (Z.mod_pos_bound T D HD) as Hr.
  set (F := T / D) in *. set (r := T mod D) in *.
  unfold percentOf, mul, div, Math_round.
  set (E := (inject_Z a / inject_Z b)%Q).
  assert (HbQ : (0 < inject_Z b)%Q)
    by (change 0%Q with (inject_Z 0); now rewrite <- Zlt_Qlt).
  assert (HE : (0 <= E)%Q /\ (E <= 1)%Q).
  { rewrite Zle_Qle in Ha0, Hab. change (inject_Z 0) with 0%Q in Ha0.
    unfold E. split.
    - apply Qle_shift_div_l; [exact HbQ | lra].
    - apply Qle_shift_div_r; [exact HbQ | lra]. }
  destruct HE as [HE0 HE1].
  destruct (round_close E HE0) as [Hq1 Hq2].
  set (q := round E) in *.
  assert (Hq0 : (0 <= q * 100)%Q) by (unfold unitRoundoff in *; lra).
  destruct (round_close (q * 100) Hq0) as [Hp1 Hp2].
  set (p := round (q * 100)) in *.
  set (d := (300 # 9007199254740992)%Q).
  assert (Hp : (E * 100 + (1 # 2) - d <= p + (1 # 2))%Q
               /\ (p + (1 # 2) <= E * 100 + (1 # 2) + d)%Q)
    by (unfold unitRoundoff, d in *; split; lra).
  clearbody p q. clear Hq1 Hq2 Hq0 Hp1 Hp2.
  assert (HDQ : (0 < inject_Z D)%Q)
    by (change 0%Q with (inject_Z 0); now rewrite <- Zlt_Qlt).
  set (invD := (/ inject_Z D)%Q).
  assert (Hinv : (inject_Z D * invD == 1)%Q)
    by (unfold invD; field; lra).
  assert (HX : (E * 100 + (1 # 2) == inject_Z F + inject_Z r * invD)%Q).
  { assert (HT : (inject_Z T == inject_Z D * inject_Z F + inject_Z r)%Q)
      by (rewrite <- inject_Z_mult, <- inject_Z_plus, <- Hdm; reflexivity).
    assert (HX' : (E * 100 + (1 # 2) == inject_Z T * invD)%Q).
    { unfold E, invD, T, D.
      rewrite !inject_Z_plus, !inject_Z_mult.
      change (inject_Z 200) with 200%Q. change (inject_Z 2) with 2%Q.
      field. lra. }
    rewrite HX', HT.
    setoid_replace ((inject_Z D * inject_Z F + inject_Z r) * invD)%Q
      with (inject_Z F * (inject_Z D * invD) + inject_Z r * invD)%Q by ring.
    rewrite Hinv. ring. }
  assert (HinvD : ((1 # 8589934592) <= invD)%Q).
  { unfold invD. apply Qle_shift_inv_l; [exact HDQ |].
    assert (H : D <= 8589934592) by (unfold D; lia).
    rewrite Zle_Qle in H. change (inject_Z 8589934592) with 8589934592%Q in H.
    lra. }
  destruct Hp as [Hp1 Hp2]. rewrite HX in Hp1, Hp2.
  destruct (Z.eq_dec r 0) as [Hr0 | Hr0].
  - rewrite Hr0 in *. change (inject_Z 0) with 0%Q in *.
    destruct (Qlt_le_dec (p + (1 # 2)) (inject_Z F)) as [Hlt | Hge].
    + right. split; [reflexivity |].
      apply Qfloor_unique.
      * replace (F - 1) with (F + -1) by lia. rewrite inject_Z_plus.
        change (inject_Z (-1)) with (-1 # 1)%Q. unfold d in *. lra.
      * replace (F - 1 + 1) with F by lia. exact Hlt.
    + left. apply Qfloor_unique; [exact Hge |].
      rewrite inject_Z_plus. change (inject_Z 1) with 1%Q. unfold d in *. lra.
  - left.
    assert (Hr1 : (invD <= inject_Z r * invD)%Q).
    { setoid_replace invD with (1 * invD)%Q at 1 by ring.
      apply Qmult_le_compat_r; [| lra].
      change 1%Q with (inject_Z 1). rewrite <- Zle_Qle. lia. }
    assert (Hr2 : (inject_Z r * invD <= 1 - invD)%Q).
    { assert (H : (inject_Z r * invD <= inject_Z (D + -1) * invD)%Q).
      { apply Qmult_le_compat_r; [| lra]. rewrite <- Zle_Qle. lia. }
      rewrite inject_Z_plus in H. change (inject_Z (-1)) with (-1 # 1)%Q in H.
      setoid_replace ((inject_Z D + (-1 # 1)) * invD)%Q
        with (inject_Z D * invD - invD)%Q in H by ring.
      rewrite Hinv in H. exact H. }
    apply Qfloor_unique.
    + unfold d in *. lra.
    + rewrite inject_Z_plus. change (inject_Z 1) with 1%Q. unfold d in *. lra.
Qed.

(** [Math.round(a / b)] of two counters: rounding the quotient to a
    double does not change the result. *)
Lemma Math_round_quotient (a b : Z) :
  0 <= a < 2 ^ 52 -> 0 < b ->
  Math_round (div (inject_Z a) (inject_Z b))
  = Math_round (inject_Z a / inject_Z b).
Proof.
  intros [Ha0 Ha52] Hb0.
  set (T := 2 * a + b). set (D := 2 * b).
  assert (HD : 0 < D) by (unfold D; lia).
  pose proof (Z.div_mod T D ltac:(lia)) as Hdm.
  pose proof (Z.mod_pos_bound T D HD) as Hr.
  set (F := T / D) in *. set (r := T mod D) in *.
  unfold div, Math_round.
  set (E := (inject_Z a / inject_Z b)%Q).
  assert (HbQ : (0 < inject_Z b)%Q)
    by (change 0%Q with (inject_Z 0); now rewrite <- Zlt_Qlt).
  assert (HDQ : (0 < inject_Z D)%Q)
    by (change 0%Q with (inject_Z 0); now rewrite <- Zlt_Qlt).
  assert (HE0 : (0 <= E)%Q).
  { rewrite Zle_Qle in Ha0. change (inject_Z 0) with 0%Q in Ha0.
    unfold E. apply Qle_shift_div_l; [exact HbQ | lra]. }
  set (invD := (/ inject_Z D)%Q).
  assert (HinvD : (0 < invD)%Q) by (apply Qinv_lt_0_compat, HDQ).
  assert (Hinv : (inject_Z D * invD == 1)%Q)
    by (unfold invD; field; lra).
  assert (HX : (E + (1 # 2) == inject_Z F + inject_Z r * invD)%Q).
  { assert (HT : (inject_Z T == inject_Z D * inject_Z F + inject_Z r)%Q)
      by (rewrite <- inject_Z_mult, <- inject_Z_plus, <- Hdm; reflexivity).
    assert (HX' : (E + (1 # 2) == inject_Z T * invD)%Q).
    { unfold E, invD, T, D.
      rewrite !inject_Z_plus, !inject_Z_mult.
      change (inject_Z 2) with 2%Q. field. lra. }
    rewrite HX', HT.
    setoid_replace ((inject_Z D * inject_Z F + inject_Z r) * invD)%Q
      with (inject_Z F * (inject_Z D * invD) + inject_Z r * invD)%Q by ring.
    rewrite Hinv. ring. }
  assert (Hexact : Qfloor (E + (1 # 2)) = F).
  { apply Qfloor_unique; rewrite HX.
    - assert (H : (0 <= inject_Z r * invD)%Q).
      { apply Qmult_le_0_compat; [| lra].
        change 0%Q with (inject_Z 0). rewrite <- Zle_Qle. lia. }
      lra.
    - rewrite inject_Z_plus. change (inject_Z 1) with 1%Q.
      assert (H : (inject_Z r * invD < inject_Z D * invD)%Q).
      { apply Qmult_lt_compat_r; [exact HinvD |]. rewrite <- Zlt_Qlt. lia. }
      rewrite Hinv in H. lra. }
  rewrite Hexact.
  destruct (Z.eq_dec r 0) as [Hr0 | Hr0].
  - (* the quotient is a half-integer, which is a double *)
    rewrite Hr0 in *. change (inject_Z 0) with 0%Q in HX.
    assert (Hrep : (round E == E)%Q).
    { apply (round_dyadic E (2 * F - 1) (-1)).
      - assert (H : 2 * a = b * (2 * F - 1)) by (unfold T, D in Hdm; lia).
        split; nia.
      - change (pow2 (-1)) with (1 # 2)%Q.
        replace (2 * F - 1) with (2 * F + -1) by lia.
        rewrite inject_Z_plus, inject_Z_mult.
        change (inject_Z 2) with 2%Q. change (inject_Z (-1)) with (-1 # 1)%Q.
        lra. }
    rewrite (Qfloor_comp (round E + (1 # 2)) (E + (1 # 2)))
      by (rewrite Hrep; reflexivity).
    exact Hexact.
  - destruct (round_close E HE0) as [Hq1 Hq2].
    set (q := round E) in *. clearbody q.
    assert (Hr1 : (invD <= inject_Z r * invD)%Q).
    { setoid_replace invD with (1 * invD)%Q at 1 by ring.
      apply Qmult_le_compat_r; [| lra].
      change 1%Q with (inject_Z 1). rewrite <- Zle_Qle. lia. }
    assert (Hr2 : (inject_Z r * invD <= 1 - invD)%Q).
    { assert (H : (inject_Z r * invD <= inject_Z (D + -1) * invD)%Q).
      { apply Qmult_le_compat_r; [| lra]. rewrite <- Zle_Qle. lia. }
      rewrite inject_Z_plus in H. change (inject_Z (-1)) with (-1 # 1)%Q in H.
      setoid_replace ((inject_Z D + (-1 # 1)) * invD)%Q
        with (inject_Z D * invD - invD)%Q in H by ring.
      rewrite Hinv in H. exact H. }
    assert (Herr : (E * unitRoundoff < invD)%Q).
    { assert (Hau : (inject_Z a * unitRoundoff < 1 # 2)%Q).
      { rewrite Zlt_Qlt in Ha52.
        change (inject_Z (2 ^ 52)) with (4503599627370496 # 1)%Q in Ha52.
        unfold unitRoundoff. lra. }
      assert (HE : (E * unitRoundoff
                    == inject_Z a * unitRoundoff * (2 * invD))%Q).
      { unfold E, invD, D. rewrite inject_Z_mult.
        change (inject_Z 2) with 2%Q. field. lra. }
      rewrite HE.
      assert (H : (inject_Z a * unitRoundoff * (2 * invD)
                   < (1 # 2) * (2 * invD))%Q)
        by (apply Qmult_lt_compat_r; [lra | exact Hau]).
      lra. }
    apply Qfloor_unique.
    + lra.
    + rewrite inject_Z_plus. change (inject_Z 1) with 1%Q. lra.
Qed.
End DoubleFacts.

(** ** The stable sort *)

Section ArraySortFacts.
Context {A : Type} (cmp : A -> A -> Z).

Lemma sort_insert_perm (x : A) (l : list A) :
  Permutation (sort_insert cmp x l) (x :: l).
Proof.
  induction l as [| y l IH]; simpl.
  - apply Permutation_refl.
  - destruct (0 <? cmp x y).
    + apply perm_trans with (y :: x :: l).
      * apply perm_skip, IH.
      * apply perm_swap.
    + apply Permutation_refl.
Qed.

Lemma Array_sort_perm (l : list A) : Permutation (Array_sort cmp l) l.
Proof.
  induction l as [| x l IH]; simpl.
  - apply perm_nil.
  - eapply perm_trans; [apply sort_insert_perm |].
    apply perm_skip, IH.
Qed.

Lemma Array_sort_In (l : list A) (x : A) :
  In x (Array_sort cmp l) <-> In x l.
Proof.
  split; apply Permutation_in;
    [| apply Permutation_sym]; apply Array_sort_perm.
Qed.

Lemma Array_sort_length (l : list A) :
  length (Array_sort cmp l) = length l.
Proof. apply Permutation_length, Array_sort_perm. Qed.

Hypothesis cmp_total : forall x y, 0 < cmp x y -> cmp y x <= 0.
Hypothesis cmp_trans :
  forall x y z, cmp x y <= 0 -> cmp y z <= 0 -> cmp x z <= 0.

Lemma sort_insert_sorted (x : A) (l : list A) :
  StronglySorted (before cmp) l ->
  StronglySorted (before cmp) (sort_insert cmp x l).
Proof.
  induction 1 as [| y l Hs IH Hy]; simpl.
  - repeat constructor.
  - destruct (0 <? cmp x y) eqn:E.
    + apply Z.ltb_lt in E.
      constructor; [exact IH |].
      rewrite Forall_forall in *.
      intros z Hz.
      apply (Permutation_in _ (sort_insert_perm x l)) in Hz.
      destruct Hz as [<- | Hz]; [apply cmp_total, E | apply Hy, Hz].
    + apply Z.ltb_ge in E.
      constructor; [constructor; assumption |].
      constructor; [exact E |].
      rewrite Forall_forall in *.
      intros z Hz. apply cmp_trans with y; [exact E | apply Hy, Hz].
Qed.

Lemma Array_sort_sorted (l : list A) :
  StronglySorted (before cmp) (Array_sort cmp l).
Proof.
  induction l as [| x l IH]; simpl.
  - constructor.
  - apply sort_insert_sorted, IH.
Qed.
End ArraySortFacts.

Lemma firstn_In {A : Type} (n : nat) (l : list A) (x : A) :
  In x (firstn n l) -> In x l.
Proof.
  revert n. induction l as [| y l IH]; intros [| n]; simpl; try tauto.
  intros [H | H]; [now left | right; eapply IH; eauto].
Qed.

Lemma StronglySorted_firstn {A : Type} (R : A -> A -> Prop) (n : nat)
    (l : list A) :
  StronglySorted R l -> StronglySorted R (firstn n l).
Proof.
  intros H. revert n.
  induction H as [| x l Hs IH Hx]; intros [| n]; simpl; try constructor.
  - apply IH.
  - rewrite Forall_forall in *. intros y Hy.
    apply Hx. eapply firstn_In; eauto.
Qed.

(** ** The insertion ordered map *)

Section JSMapFacts.
Context {K V : Type} (eqb : K -> K -> bool).
Hypothesis eqb_spec : forall x y, eqb x y = true <-> x = y.

Lemma eqb_refl' (x : K) : eqb x x = true.
Proof. now apply eqb_spec. Qed.

Lemma eqb_neq (x y : K) : x <> y -> eqb x y = false.
Proof.
  intros H. destruct (eqb x y) eqn:E; [| reflexivity].
  apply eqb_spec in E. contradiction.
Qed.

Lemma get_set_eq (k : K) (v : V) (m : JSMap.t K V) :
  JSMap.get eqb k (JSMap.set eqb k v m) = Some v.
Proof.
  induction m as [| [k' v'] m IH]; simpl.
  - now rewrite eqb_refl'.
  - destruct (eqb k k') eqn:E; simpl; rewrite E; auto.
Qed.

Lemma get_set_ne (k k0 : K) (v : V) (m : JSMap.t K V) :
  k0 <> k ->
  JSMap.get eqb k0 (JSMap.set eqb k v m) = JSMap.get eqb k0 m.
Proof.
  intros Hne.
  induction m as [| [k' v'] m IH]; simpl.
  - now rewrite (eqb_neq _ _ Hne).
  - destruct (eqb k k') eqn:E; simpl.
    + apply eqb_spec in E. subst k'. now rewrite (eqb_neq _ _ Hne).
    + now rewrite IH.
Qed.

Lemma get_None_keys (k : K) (m : JSMap.t K V) :
  JSMap.get eqb k m = None <-> ~ In k (JSMap.keys m).
Proof.
  induction m as [| [k' v'] m IH]; simpl.
  - tauto.
  - destruct (eqb k k') eqn:E.
    + apply eqb_spec in E. subst. split; [discriminate | tauto].
    + rewrite IH. split.
      * intros Hn [Hk | Hk]; [| tauto].
        subst. rewrite eqb_refl' in E. discriminate.
      * tauto.
Qed.

Lemma get_In (k : K) (v : V) (m : JSMap.t K V) :
  JSMap.get eqb k m = Some v -> In (k, v) m.
Proof.
  induction m as [| [k' v'] m IH]; simpl; [discriminate |].
  destruct (eqb k k') eqn:E.
  - apply eqb_spec in E. subst. intros [= ->]. now left.
  - intros H. right. now apply IH.
Qed.

Lemma keys_set (k : K) (v : V) (m : JSMap.t K V) :
  JSMap.keys (JSMap.set eqb k v m) =
  if existsb (eqb k) (JSMap.keys m)
  then JSMap.keys m else JSMap.keys m ++ [k].
Proof.
  induction m as [| [k' v'] m IH]; simpl; [reflexivity |].
  destruct (eqb k k') eqn:E; simpl; [reflexivity |].
  unfold JSMap.keys in *. rewrite IH.
  now destruct (existsb (eqb k) (map fst m)).
Qed.

Lemma existsb_eqb_In (k : K) (l : list K) :
  existsb (eqb k) l = true <-> In k l.
Proof.
  rewrite existsb_exists. split.
  - intros [x [Hx E]]. apply eqb_spec in E. now subst.
  - intros H. exists k. split; [exact H | apply eqb_refl'].
Qed.

Lemma keys_set_NoDup (k : K) (v : V) (m : JSMap.t K V) :
  NoDup (JSMap.keys m) -> NoDup (JSMap.keys (JSMap.set eqb k v m)).
Proof.
  intros H. rewrite keys_set.
  destruct (existsb (eqb k) (JSMap.keys m)) eqn:E; [exact H |].
  apply NoDup_app; [exact H | repeat constructor; simpl; tauto |].
  intros x Hx [<- | []].
  apply existsb_eqb_In in Hx. congruence.
Qed.

Lemma In_get (k : K) (v : V) (m : JSMap.t K V) :
  NoDup (JSMap.keys m) -> In (k, v) m -> JSMap.get eqb k m = Some v.
Proof.
  induction m as [| [k' v'] m IH]; simpl; [tauto |].
  intros Hnd [[= -> ->] | Hin].
  - now rewrite eqb_refl'.
  - inversion Hnd as [| ? ? Hk Hnd']; subst.
    destruct (eqb k k') eqn:E.
    + apply eqb_spec in E. subst k'.
      exfalso. apply Hk. change (In (fst (k, v)) (map fst m)).
      now apply in_map.
    + now apply IH.
Qed.
End JSMapFacts.

(** ** Counting and dates *)

Lemma countIf_cons {A : Type} (f : A -> bool) (x : A) (l : list A) :
  countIf f (x :: l) = (if f x then 1 else 0) + countIf f l.
Proof.
  unfold countIf. simpl. destruct (f x); simpl length; lia.
Qed.

Lemma countIf_nonneg {A : Type} (f : A -> bool) (l : list A) :
  0 <= countIf f l.
Proof. unfold countIf. lia. Qed.

Lemma countIf_ext {A : Type} (f g : A -> bool) (l : list A) :
  (forall x, In x l -> f x = g x) -> countIf f l = countIf g l.
Proof.
  induction l as [| x l IH]; intros H; [reflexivity |].
  rewrite !countIf_cons, (H x (or_introl eq_refl)), IH; [reflexivity |].
  intros y Hy. apply H. now right.
Qed.

Lemma countIf_zero {A : Type} (f : A -> bool) (l : list A) :
  (forall x, In x l -> f x = false) -> countIf f l = 0.
Proof.
  induction l as [| x l IH]; intros H; [reflexivity |].
  rewrite countIf_cons, (H x (or_introl eq_refl)), IH; [reflexivity |].
  intros y Hy. apply H. now right.
Qed.

Lemma MS_PER_DAY_pos : 0 < MS_PER_DAY.
Proof. reflexivity. Qed.

Lemma format_subDays (date amount : Z) :
  format_yyyy_MM_dd (subDays date amount) = format_yyyy_MM_dd date - amount.
Proof.
  unfold format_yyyy_MM_dd, subDays.
  replace (date - amount * MS_PER_DAY) with (date + (- amount) * MS_PER_DAY)
    by ring.
  rewrite Z.div_add by (pose proof MS_PER_DAY_pos; lia).
  ring.
Qed.

Lemma format_dateOfKey (key : Z) : format_yyyy_MM_dd (dateOfKey key) = key.
Proof.
  unfold format_yyyy_MM_dd, dateOfKey.
  apply Z.div_mul. pose proof MS_PER_DAY_pos. lia.
Qed.

Lemma format_mono (d1 d2 : Z) :
  d1 <= d2 -> format_yyyy_MM_dd d1 <= format_yyyy_MM_dd d2.
Proof. intros H. apply Z.div_le_mono; [apply MS_PER_DAY_pos | exact H]. Qed.

(** ** The day keyed accumulation *)

Lemma Zeqb_spec' (x y : Z) : (x =? y) = true <-> x = y.
Proof. apply Z.eqb_eq. Qed.

Lemma countsStep_lookup (m : JSMap.t Z Counts.t) (a : Article) (k : Z) :
  let e := Counts.orZero (JSMap.get Z.eqb k (countsStep m a)) in
  let e0 := Counts.orZero (JSMap.get Z.eqb k m) in
  Counts.total e = Counts.total e0 + (if onDay k a then 1 else 0)
  /\ Counts.read e =
     Counts.read e0 + (if onDay k a && is_read a then 1 else 0)
  /\ Counts.unread e =
     Counts.unread e0 + (if onDay k a && negb (is_read a) then 1 else 0).
Proof.
  unfold countsStep, onDay, dayOf.
  destruct (parseArticleDate a) as [d |]; cbn [option_map andb]; [| lia].
  destruct (Z.eqb_spec (format_yyyy_MM_dd d) k) as [-> | Hne].
  - rewrite (get_set_eq Z.eqb Zeqb_spec').
    destruct (is_read a); cbn; lia.
  - rewrite (get_set_ne Z.eqb Zeqb_spec') by congruence. cbn [andb]. lia.
Qed.

Lemma countsOf_lookup_from (l : list Article) (m : JSMap.t Z Counts.t)
    (k : Z) :
  let e := Counts.orZero (JSMap.get Z.eqb k (fold_left countsStep l m)) in
  let e0 := Counts.orZero (JSMap.get Z.eqb k m) in
  Counts.total e = Counts.total e0 + countIf (onDay k) l
  /\ Counts.read e =
     Counts.read e0 + countIf (fun a => onDay k a && is_read a) l
  /\ Counts.unread e =
     Counts.unread e0 + countIf (fun a => onDay k a && negb (is_read a)) l.
Proof.
  revert m. induction l as [| a l IH]; intros m; cbn [fold_left].
  - unfold countIf. cbn. lia.
  - rewrite !countIf_cons.
    specialize (IH (countsStep m a)). cbv zeta in IH.
    pose proof (countsStep_lookup m a k) as Hs. cbv zeta in Hs.
    lia.
Qed.

Lemma countsOf_lookup (l : list Article) (k : Z) :
  let e := Counts.orZero (JSMap.get Z.eqb k (countsOf l)) in
  Counts.total e = countIf (onDay k) l
  /\ Counts.read e = countIf (fun a => onDay k a && is_read a) l
  /\ Counts.unread e = countIf (fun a => onDay k a && negb (is_read a)) l.
Proof.
  pose proof (countsOf_lookup_from l JSMap.empty k) as H.
  cbn in H. exact H.
Qed.

Lemma countsStep_keys_NoDup (m : JSMap.t Z Counts.t) (a : Article) :
  NoDup (JSMap.keys m) -> NoDup (JSMap.keys (countsStep m a)).
Proof.
  intros H. unfold countsStep.
  destruct (parseArticleDate a); [| exact H].
  now apply (keys_set_NoDup Z.eqb Zeqb_spec').
Qed.

Lemma countsOf_keys_NoDup (l : list Article) :
  NoDup (JSMap.keys (countsOf l)).
Proof.
  unfold countsOf.
  assert (G : forall m, NoDup (JSMap.keys m) ->
                        NoDup (JSMap.keys (fold_left countsStep l m))).
  { induction l as [| a l IH]; intros m Hm; simpl; [exact Hm |].
    apply IH, countsStep_keys_NoDup, Hm. }
  apply G. constructor.
Qed.

(** A day is a key of the accumulation exactly when an article falls on
    it. *)
Lemma countsOf_keys_onDay (l : list Article) (k : Z) :
  In k (JSMap.keys (countsOf l)) <-> 0 < countIf (onDay k) l.
Proof.
  unfold countsOf.
  assert (G : forall m,
             (forall k', In k' (JSMap.keys m) ->
                0 < Counts.total (Counts.orZero (JSMap.get Z.eqb k' m))) ->
             forall k', In k' (JSMap.keys (fold_left countsStep l m)) ->
                0 < Counts.total
                      (Counts.orZero
                         (JSMap.get Z.eqb k' (fold_left countsStep l m)))).
  { induction l as [| a l IH]; intros m Hm; simpl; [exact Hm |].
    apply IH. intros k' Hk'.
    pose proof (countsStep_lookup m a k') as [Ht _]. simpl in Ht.
    rewrite Ht.
    unfold countsStep, onDay, dayOf in *.
    destruct (parseArticleDate a) as [d |]; simpl in *.
    - rewrite (keys_set Z.eqb) in Hk'.
      destruct (existsb (Z.eqb (format_yyyy_MM_dd d)) (JSMap.keys m)) eqn:E.
      + specialize (Hm k' Hk').
        destruct (format_yyyy_MM_dd d =? k'); lia.
      + apply in_app_or in Hk'. destruct Hk' as [Hk' | [<- | []]].
        * specialize (Hm k' Hk').
          destruct (format_yyyy_MM_dd d =? k'); lia.
        * rewrite Z.eqb_refl.
          assert (Hn : JSMap.get Z.eqb (format_yyyy_MM_dd d) m = None).
          { apply (get_None_keys Z.eqb Zeqb_spec'). intros Hin.
            apply (existsb_eqb_In Z.eqb Zeqb_spec') in Hin. congruence. }
          rewrite Hn. simpl. lia.
    - specialize (Hm k' Hk'). lia. }
  split.
  - intros Hin. apply (G JSMap.empty) in Hin; [| intros ? []].
    pose proof (countsOf_lookup l k) as [Ht _]. unfold countsOf in Ht.
    simpl in Ht. lia.
  - intros Hpos.
    destruct (in_dec Z.eq_dec k (JSMap.keys (fold_left countsStep l JSMap.empty)))
      as [Hin | Hnin]; [exact Hin |].
    apply (get_None_keys Z.eqb Zeqb_spec') in Hnin.
    pose proof (countsOf_lookup l k) as [Ht _]. unfold countsOf in Ht.
    simpl in Ht. rewrite Hnin in Ht. simpl in Ht. lia.
Qed.


(** ** The window and the filter *)

Lemma timeRangeDays_pos (timeRange : TimeRange) (n : Z) :
  timeRangeDays timeRange = Some n -> 0 < n.
Proof. destruct timeRange; intros [= <-]; reflexivity. Qed.


Lemma filteredArticles_In (now : Z) (l : list Article) (timeRange : TimeRange)
    (a : Article) :
  In a (filteredArticles now (Some l) timeRange) <->
  In a l /\
  match cutoffDate now timeRange with
  | None => True
  | Some cutoff =>
      exists articleDate,
        parseArticleDate a = Some articleDate /\ cutoff <= articleDate
  end.
Proof.
  unfold filteredArticles. rewrite filter_In.
  destruct (cutoffDate now timeRange) as [c |]; [| tauto].
  destruct (parseArticleDate a) as [d |].
  - rewrite Z.leb_le. split.
    + intros [H1 H2]. split; [exact H1 | exists d; auto].
    + intros [H1 [d' [[= <-] H2]]]. auto.
  - split; [intros [_ [=]] | intros [_ [d' [[=] _]]]].
Qed.


(** ** The daily activity series *)


Lemma offsetsFrom_days (today : Z) (m : nat) :
  map (fun offset => today - offset) (offsetsFrom m) =
  map (fun i => today - (Z.of_nat m - 1) + Z.of_nat i) (seq 0 m).
Proof.
  induction m as [| m IH]; [reflexivity |].
  cbn [offsetsFrom map seq]. f_equal; [lia |].
  rewrite IH, <- seq_shift, map_map.
  apply map_ext. intros i. lia.
Qed.

Lemma ascending_days_sorted (start : Z) (from m : nat) :
  StronglySorted Z.lt (map (fun i => start + Z.of_nat i) (seq from m)).
Proof.
  revert from. induction m as [| m IH]; intros from; simpl.
  - constructor.
  - constructor; [apply IH |].
    rewrite Forall_forall. intros k Hk.
    apply in_map_iff in Hk. destruct Hk as [i [<- Hi]].
    apply in_seq in Hi. lia.
Qed.

Lemma sorted_lt_NoDup (l : list Z) : StronglySorted Z.lt l -> NoDup l.
Proof.
  induction 1 as [| x l Hs IH Hx]; constructor; [| exact IH].
  intros Hin. rewrite Forall_forall in Hx. specialize (Hx x Hin). lia.
Qed.

Lemma finite_keys (now : Z) (cm : JSMap.t Z Counts.t) (m : nat) :
  map DailyActivityPoint.dateKey (map (pointAtOffset now cm) (offsetsFrom m))
  = map (fun offset => format_yyyy_MM_dd now - offset) (offsetsFrom m).
Proof.
  rewrite map_map. apply map_ext. intros offset.
  unfold pointAtOffset. cbn [DailyActivityPoint.dateKey].
  apply format_subDays.
Qed.



Lemma countIf_pos {A : Type} (f : A -> bool) (l : list A) (x : A) :
  In x l -> f x = true -> 0 < countIf f l.
Proof.
  induction l as [| y l IH]; intros Hin Hf; [destruct Hin |].
  destruct Hin as [-> | Hin]; rewrite countIf_cons.
  - rewrite Hf. pose proof (countIf_nonneg f l). lia.
  - specialize (IH Hin Hf). destruct (f y); lia.
Qed.

(** C4.  For a finite window of [n] days the series has [n] points, its
    keys are the calendar days from [today - (n - 1)] to [today] in that
    order, strictly ascending and without duplicates, and a day on which
    no filtered article falls carries zero read, unread and total. *)
Theorem daily_activity_finite_window
    (now : Z) (l : list Article) (timeRange : TimeRange) (n : Z) :
  timeRangeDays timeRange = Some n ->
  let points := dailyActivity now (Some l) timeRange in
  let today := format_yyyy_MM_dd now in
  Z.of_nat (length points) = n
  /\ map DailyActivityPoint.dateKey points =
     map (fun i => today - (n - 1) + Z.of_nat i) (seq 0 (Z.to_nat n))
  /\ StronglySorted Z.lt (map DailyActivityPoint.dateKey points)
  /\ NoDup (map DailyActivityPoint.dateKey points)
  /\ (forall p, In p points ->
        (forall a, In a (filteredArticles now (Some l) timeRange) ->
                   dayOf a <> Some (DailyActivityPoint.dateKey p)) ->
        DailyActivityPoint.read p = 0
        /\ DailyActivityPoint.unread p = 0
        /\ DailyActivityPoint.total p = 0).
Proof.
  intros Hn points today.
  pose proof (timeRangeDays_pos _ _ Hn) as Hpos.
  assert (Hkeys : map DailyActivityPoint.dateKey points =
                  map (fun i => today - (n - 1) + Z.of_nat i)
                    (seq 0 (Z.to_nat n))).
  { unfold points, dailyActivity, buildDailyActivity. rewrite Hn.
    rewrite finite_keys, offsetsFrom_days.
    apply map_ext. intros i. rewrite Z2Nat.id by lia. reflexivity. }
  assert (Hsorted : StronglySorted Z.lt (map DailyActivityPoint.dateKey points)).
  { rewrite Hkeys. apply ascending_days_sorted. }
  split; [| split; [exact Hkeys | split; [exact Hsorted | split]]].
  - unfold points, dailyActivity, buildDailyActivity. rewrite Hn.
    rewrite length_map.
    assert (G : forall m, length (offsetsFrom m) = m)
      by (induction m; simpl; congruence).
    rewrite G. lia.
  - apply sorted_lt_NoDup, Hsorted.
  - intros p Hp Hnone.
    unfold points, dailyActivity, buildDailyActivity in Hp. rewrite Hn in Hp.
    apply in_map_iff in Hp. destruct Hp as [offset [<- _]].
    unfold pointAtOffset in *.
    cbn [DailyActivityPoint.dateKey DailyActivityPoint.read
         DailyActivityPoint.unread DailyActivityPoint.total] in *.
    pose proof (countsOf_lookup (filteredArticles now (Some l) timeRange)
                  (format_yyyy_MM_dd (subDays now offset))) as [Ht [Hr Hu]].
    rewrite Ht, Hr, Hu.
    repeat split; apply countIf_zero; intros a Ha;
      specialize (Hnone a Ha); unfold onDay;
      destruct (dayOf a) as [d |]; try reflexivity;
      (destruct (Z.eqb_spec d (format_yyyy_MM_dd (subDays now offset)));
       [congruence | reflexivity]).
Qed.

Lemma daily_activity_finite_window_witness :
  timeRangeDays Range7 = Some 7
  /\ Z.of_nat
       (length (dailyActivity Sample.now (Some Sample.threeArticles) Range7))
     = 7.
Proof.
  split; [reflexivity |].
  apply (daily_activity_finite_window Sample.now Sample.threeArticles
           Range7 7 eq_refl).
Defined.



(** ** The window, as the code computes it *)

(** With the unbounded window every article passes the filter. *)
Lemma unbounded_window_keeps_all (now : Z) (l : list Article) :
  filteredArticles now (Some l) RangeAll = l.
Proof.
  unfold filteredArticles. cbn.
  induction l as [| a l IH]; cbn; congruence.
Qed.

(** With a finite window an article passes exactly when its effective
    date parses and is not before 23:59:59.999 of the day
    [today - (n - 1)]. *)
Lemma finite_window_cutoff (now : Z) (timeRange : TimeRange) (n : Z) :
  timeRangeDays timeRange = Some n ->
  cutoffDate now timeRange =
  Some (dateOfKey (format_yyyy_MM_dd now - (n - 1)) + (MS_PER_DAY - 1)).
Proof.
  intros Hn. unfold cutoffDate. rewrite Hn. f_equal.
  unfold subDays, endOfToday, dateOfKey, MS_PER_DAY. ring.
Qed.

(** An article dated on a later day of the window, or after it, passes. *)
Lemma finite_window_keeps_later_days (now : Z) (l : list Article)
    (timeRange : TimeRange) (n : Z) (a : Article) (d : Z) :
  timeRangeDays timeRange = Some n ->
  In a l ->
  dayOf a = Some d ->
  format_yyyy_MM_dd now - (n - 1) < d ->
  In a (filteredArticles now (Some l) timeRange).
Proof.
  intros Hn Ha Hd Hlt. apply filteredArticles_In. split; [exact Ha |].
  rewrite (finite_window_cutoff _ _ _ Hn).
  unfold dayOf in Hd. destruct (parseArticleDate a) as [t |]; [| discriminate].
  injection Hd as <-. exists t. split; [reflexivity |].
  unfold format_yyyy_MM_dd, dateOfKey in *.
  pose proof MS_PER_DAY_pos as Hpos.
  pose proof (Z.mul_div_le t MS_PER_DAY Hpos).
  nia.
Qed.

(** An article dated on the first day of the window, before its last
    millisecond, does not pass. *)
Lemma finite_window_drops_first_day (now : Z) (l : list Article)
    (timeRange : TimeRange) (n : Z) (a : Article) (t : Z) :
  timeRangeDays timeRange = Some n ->
  parseArticleDate a = Some t ->
  format_yyyy_MM_dd t = format_yyyy_MM_dd now - (n - 1) ->
  t < dateOfKey (format_yyyy_MM_dd t) + (MS_PER_DAY - 1) ->
  ~ In a (filteredArticles now (Some l) timeRange).
Proof.
  intros Hn Ht Hday Hlt Hin. apply filteredArticles_In in Hin.
  destruct Hin as [_ Hin]. rewrite (finite_window_cutoff _ _ _ Hn) in Hin.
  destruct Hin as [t' [Ht' Hle]]. rewrite Ht in Ht'. injection Ht' as <-.
  rewrite <- Hday in Hle. lia.
Qed.

(** C2.  The code at the failing input: with the seven day window, an
    article published at noon six days ago falls on the first of the
    seven calendar days that end today, its date parses, and the filter
    drops it. *)
Theorem window_first_day_excluded :
  dayOf Sample.sixDaysAgo = Some (format_yyyy_MM_dd Sample.now - (7 - 1))
  /\ hasDate Sample.sixDaysAgo = true
  /\ filteredArticles Sample.now (Some [Sample.sixDaysAgo]) Range7 = [].
Proof. repeat split. Qed.

(** ** The sentiment buckets *)

(** Without an aggregate of the server the buckets are the fallback
    counters, each with its share of their sum. *)
Lemma sentiment_without_aggregate (e : Engagement.t) :
  let fallback := Engagement.fallbackSentiments e in
  let S := Buckets.sum fallback in
  let buckets := resolveSentiment None (Some e) in
  map SentimentBucket.value buckets =
    [Buckets.positive fallback; Buckets.slightlyPositive fallback;
     Buckets.neutral fallback; Buckets.slightlyNegative fallback;
     Buckets.negative fallback]
  /\ Forall (fun bucket =>
               SentimentBucket.percent bucket =
               if 0 <? S then percentOf (SentimentBucket.value bucket) S
               else 0) buckets.
Proof.
  cbv zeta. split; [reflexivity |]. repeat constructor.
Qed.

(** With an aggregate whose total is not positive the buckets are the
    fallback counters as well, and every percent is 0. *)
Lemma sentiment_with_empty_aggregate (sa : SentimentAnalytics.t)
    (e : Engagement.t) :
  SentimentAnalytics.total sa <= 0 ->
  let fallback := Engagement.fallbackSentiments e in
  let buckets := resolveSentiment (Some sa) (Some e) in
  map SentimentBucket.value buckets =
    [Buckets.positive fallback; Buckets.slightlyPositive fallback;
     Buckets.neutral fallback; Buckets.slightlyNegative fallback;
     Buckets.negative fallback]
  /\ map SentimentBucket.percent buckets = [0; 0; 0; 0; 0].
Proof.
  intros Hle. cbv zeta. unfold resolveSentiment.
  assert (E : (0 <? SentimentAnalytics.total sa) = false)
    by (apply Z.ltb_ge; exact Hle).
  rewrite E. unfold bucketRows, withPercent. cbn [map]. rewrite E.
  split; reflexivity.
Qed.

(** C1.  The code at the failing input: the server supplies an aggregate
    whose total is 0 while two filtered articles score 0.6 and -0.6.  The
    buckets carry the fallback counters 1, 0, 0, 0, 1, whose sum is 2,
    and every percent is 0, where the share of 1 in 2 is 50. *)
Theorem sentiment_percent_with_empty_aggregate :
  let buckets :=
    sentimentBuckets Sample.now (Some Sample.threeArticles)
      (Some Sample.feedList) (Some Sample.emptyAggregate) Range7 in
  map SentimentBucket.value buckets = [1; 0; 0; 0; 1]
  /\ map SentimentBucket.percent buckets = [0; 0; 0; 0; 0]
  /\ percentOf 1 (1 + 0 + 0 + 0 + 1) = 50.
Proof. repeat split. Qed.

(** ** The classification of scores *)

Lemma incr_value (s b : Sentiment) (buckets : Buckets.t) :
  Buckets.value b (Buckets.incr s buckets) =
  Buckets.value b buckets + (if Sentiment_eqb s b then 1 else 0).
Proof. destruct s, b; cbn; lia. Qed.

Lemma engagementPass_buckets (filtered : list Article) (acc : Acc.t)
    (b : Sentiment) :
  Buckets.value b (Acc.sentimentBuckets (fold_left engagementStep filtered acc))
  = Buckets.value b (Acc.sentimentBuckets acc) + countIf (scoredAs b) filtered.
Proof.
  revert acc. induction filtered as [| a l IH]; intros acc; cbn [fold_left].
  - unfold countIf. cbn. lia.
  - rewrite IH, countIf_cons. unfold engagementStep, scoredAs.
    cbn [Acc.sentimentBuckets].
    destruct (sentiment_score a) as [score |]; [| lia].
    rewrite incr_value. lia.
Qed.

(** C6.  The bucket of a score follows the threshold table, and each
    fallback counter is the number of filtered articles that carry a
    score of its bucket. *)
Theorem fallback_classification :
  (forall score : Q,
     (classify score = Positive <-> 1 # 2 <= score)%Q
     /\ (classify score = SlightlyPositive <->
         1 # 20 <= score /\ score < 1 # 2)%Q
     /\ (classify score = Neutral <->
         - (1 # 20) < score /\ score < 1 # 20)%Q
     /\ (classify score = SlightlyNegative <->
         - (1 # 2) < score /\ score <= - (1 # 20))%Q
     /\ (classify score = Negative <-> score <= - (1 # 2))%Q)
  /\ (forall (filtered : list Article) (bucket : Sentiment),
        Buckets.value bucket (Acc.sentimentBuckets (engagementPass filtered))
        = countIf (scoredAs bucket) filtered).
Proof.
  split.
  - intros score. unfold classify.
    destruct (Qle_bool (1 # 2) score) eqn:E1;
      [apply Qle_bool_iff in E1
      | assert (~ (1 # 2 <= score)%Q)
          by (rewrite <- Qle_bool_iff; congruence)];
    (destruct (Qle_bool (1 # 20) score) eqn:E2;
      [apply Qle_bool_iff in E2
      | assert (~ (1 # 20 <= score)%Q)
          by (rewrite <- Qle_bool_iff; congruence)]);
    (destruct (Qle_bool score (- 1 # 2)) eqn:E3;
      [apply Qle_bool_iff in E3
      | assert (~ (score <= - 1 # 2)%Q)
          by (rewrite <- Qle_bool_iff; congruence)]);
    (destruct (Qle_bool score (- 1 # 20)) eqn:E4;
      [apply Qle_bool_iff in E4
      | assert (~ (score <= - 1 # 20)%Q)
          by (rewrite <- Qle_bool_iff; congruence)]);
    repeat split; intros; try discriminate; try reflexivity;
      try lra; exfalso; lra.
  - intros filtered bucket. unfold engagementPass.
    rewrite engagementPass_buckets. destruct bucket; cbn; lia.
Qed.

(** ** The engagement pass *)

Section ForallValues.
Context {K V : Type} (eqb : K -> K -> bool) (P : V -> Prop).
Hypothesis eqb_spec : forall x y, eqb x y = true <-> x = y.

Lemma set_Forall (k : K) (v : V) (m : JSMap.t K V) :
  Forall (fun kv => P (snd kv)) m -> P v ->
  Forall (fun kv => P (snd kv)) (JSMap.set eqb k v m).
Proof.
  intros Hm Hv. induction Hm as [| [k' v'] m Hx Hm IH]; cbn.
  - repeat constructor. exact Hv.
  - destruct (eqb k k'); constructor; auto.
Qed.

Lemma get_Forall (k : K) (v : V) (m : JSMap.t K V) :
  Forall (fun kv => P (snd kv)) m -> JSMap.get eqb k m = Some v -> P v.
Proof.
  intros Hm Hg. apply (get_In eqb eqb_spec) in Hg.
  rewrite Forall_forall in Hm. apply (Hm (k, v) Hg).
Qed.
End ForallValues.

Lemma bump_balanced (isRead : bool) (entry : Counts.t) :
  balanced entry -> balanced (Counts.bump isRead entry).
Proof. unfold balanced. destruct isRead; cbn; lia. Qed.

Lemma engagementStep_counts (acc : Acc.t) (a : Article) :
  Acc.readCount (engagementStep acc a) + Acc.unreadCount (engagementStep acc a)
  = Acc.readCount acc + Acc.unreadCount acc + 1.
Proof. unfold engagementStep. cbn. destruct (is_read a); lia. Qed.

Lemma engagementStep_balanced (acc : Acc.t) (a : Article) :
  Forall (fun kv => balanced (snd kv)) (Acc.feedTotals acc) ->
  Forall (fun kv => balanced (snd kv)) (Acc.feedTotals (engagementStep acc a)).
Proof.
  intros H. unfold engagementStep. cbn [Acc.feedTotals].
  apply set_Forall; [exact H |]. apply bump_balanced.
  destruct (JSMap.get Z.eqb (feed_id a) (Acc.feedTotals acc)) as [e |] eqn:E.
  - cbn. apply (get_Forall Z.eqb balanced Zeqb_spec' _ _ _ H E).
  - reflexivity.
Qed.

Lemma engagementPass_invariant (filtered : list Article) :
  let acc := engagementPass filtered in
  Acc.readCount acc + Acc.unreadCount acc = Z.of_nat (length filtered)
  /\ Forall (fun kv => balanced (snd kv)) (Acc.feedTotals acc).
Proof.
  unfold engagementPass.
  assert (G : forall acc,
             Forall (fun kv => balanced (snd kv)) (Acc.feedTotals acc) ->
             let acc' := fold_left engagementStep filtered acc in
             Acc.readCount acc' + Acc.unreadCount acc'
             = Acc.readCount acc + Acc.unreadCount acc
               + Z.of_nat (length filtered)
             /\ Forall (fun kv => balanced (snd kv)) (Acc.feedTotals acc')).
  { induction filtered as [| a l IH]; intros acc Hacc; cbn [fold_left].
    - split; [cbn; lia | exact Hacc].
    - destruct (IH (engagementStep acc a) (engagementStep_balanced _ _ Hacc))
        as [H1 H2].
      split; [| exact H2].
      rewrite H1, engagementStep_counts. cbn [length]. lia. }
  destruct (G Acc.init (Forall_nil _)) as [H1 H2].
  split; [rewrite H1; reflexivity | exact H2].
Qed.

(** An element of the ranking comes from an entry of the per-source
    totals whose total is positive. *)
Lemma rankFeeds_In (feedsById : JSMap.t Z Feed)
    (feedTotals : JSMap.t Z Counts.t) (entry : FeedPerformance.t) :
  In entry (rankFeeds feedsById feedTotals) ->
  exists feedId stats,
    In (feedId, stats) feedTotals
    /\ entry = feedPerformanceOf feedsById (feedId, stats)
    /\ 0 < Counts.total stats.
Proof.
  unfold rankFeeds, slice0. intros H.
  apply firstn_In, Array_sort_In, filter_In in H. destruct H as [H Hpos].
  apply in_map_iff in H. destruct H as [[feedId stats] [<- Hin]].
  exists feedId, stats. repeat split; [exact Hin |].
  apply Z.ltb_lt in Hpos. exact Hpos.
Qed.

Lemma engagement_Some (now : Z) (articles : option (list Article))
    (feeds : option (list Feed)) (timeRange : TimeRange) (e : Engagement.t) :
  engagement now articles feeds timeRange = Some e ->
  let acc := engagementPass (filteredArticles now articles timeRange) in
  Engagement.total e =
    Z.of_nat (length (filteredArticles now articles timeRange))
  /\ Engagement.readCount e = Acc.readCount acc
  /\ Engagement.unreadCount e = Acc.unreadCount acc
  /\ Engagement.feedPerformance e =
     rankFeeds (feedsById feeds) (Acc.feedTotals acc)
  /\ Engagement.fallbackSentiments e = Acc.sentimentBuckets acc.
Proof.
  unfold engagement.
  destruct feeds as [fs |]; [| discriminate].
  destruct articles as [l |]; [| discriminate].
  intros [= <-]. cbn. repeat split.
Qed.

(** C7.  In the engagement aggregate the total is the number of filtered
    articles and the read and unread counts add up to it; the read and
    unread counts of every source, and of every feed-performance entry,
    add up to its total. *)
Theorem read_unread_partition
    (now : Z) (articles : option (list Article)) (feeds : option (list Feed))
    (timeRange : TimeRange) (e : Engagement.t) :
  engagement now articles feeds timeRange = Some e ->
  let filtered := filteredArticles now articles timeRange in
  Engagement.total e = Z.of_nat (length filtered)
  /\ Engagement.readCount e + Engagement.unreadCount e = Engagement.total e
  /\ Forall (fun kv => balanced (snd kv))
       (Acc.feedTotals (engagementPass filtered))
  /\ Forall (fun entry =>
               FeedPerformance.read entry + FeedPerformance.unread entry
               = FeedPerformance.total entry)
       (Engagement.feedPerformance e).
Proof.
  intros He filtered.
  destruct (engagement_Some _ _ _ _ _ He) as [Ht [Hr [Hu [Hf _]]]].
  destruct (engagementPass_invariant filtered) as [Hsum Hbal].
  fold filtered in Ht, Hr, Hu, Hf.
  split; [exact Ht |]. split; [rewrite Hr, Hu, Ht; exact Hsum |].
  split; [exact Hbal |].
  rewrite Hf. apply Forall_forall. intros entry Hin.
  apply rankFeeds_In in Hin. destruct Hin as [k [stats [Hin [-> _]]]].
  rewrite Forall_forall in Hbal. apply (Hbal (k, stats) Hin).
Qed.

Lemma read_unread_partition_witness :
  exists e,
    engagement Sample.now (Some Sample.threeArticles) (Some Sample.feedList)
      Range7 = Some e
    /\ Engagement.total e = 3
    /\ Engagement.readCount e + Engagement.unreadCount e = Engagement.total e.
Proof.
  eexists. split; [reflexivity |].
  pose proof (read_unread_partition Sample.now (Some Sample.threeArticles)
                (Some Sample.feedList) Range7 _ eq_refl) as H.
  cbv zeta in H. destruct H as [Ht [Hs _]].
  split; [exact Ht | exact Hs].
Defined.

(** ** The feed ranking *)

Lemma StronglySorted_impl {A : Type} (R S : A -> A -> Prop) (l : list A) :
  (forall x y, R x y -> S x y) -> StronglySorted R l -> StronglySorted S l.
Proof.
  intros HRS. induction 1 as [| x l Hs IH Hx]; constructor; [exact IH |].
  eapply Forall_impl; [| exact Hx]. intros y. apply HRS.
Qed.

Lemma engagementPass_feedTotals_NoDup (filtered : list Article) :
  NoDup (JSMap.keys (Acc.feedTotals (engagementPass filtered))).
Proof.
  unfold engagementPass.
  assert (G : forall acc,
             NoDup (JSMap.keys (Acc.feedTotals acc)) ->
             NoDup (JSMap.keys
                      (Acc.feedTotals (fold_left engagementStep filtered acc)))).
  { induction filtered as [| a l IH]; intros acc Hacc; cbn [fold_left].
    - exact Hacc.
    - apply IH. unfold engagementStep. cbn [Acc.feedTotals].
      apply (keys_set_NoDup Z.eqb Zeqb_spec'), Hacc. }
  apply G. constructor.
Qed.

Lemma truthyOr_eqb (value : option string) (fallback : string) :
  truthyOr value fallback =
  match value with
  | Some s => if String.eqb s EmptyString then fallback else s
  | None => fallback
  end.
Proof. destruct value as [[| c s] |]; reflexivity. Qed.

(** What the pass keeps for a source: the numbers of its filtered
    articles, of the read and of the unread ones. *)
Lemma engagementPass_feed_lookup (filtered : list Article) (feed : Z) :
  let stats :=
    Counts.orZero
      (JSMap.get Z.eqb feed (Acc.feedTotals (engagementPass filtered))) in
  Counts.total stats = countIf (ofFeed feed) filtered
  /\ Counts.read stats =
     countIf (fun a => ofFeed feed a && is_read a) filtered
  /\ Counts.unread stats =
     countIf (fun a => ofFeed feed a && negb (is_read a)) filtered.
Proof.
  unfold engagementPass.
  assert (G : forall acc,
             let stats acc :=
               Counts.orZero (JSMap.get Z.eqb feed (Acc.feedTotals acc)) in
             let acc' := fold_left engagementStep filtered acc in
             Counts.total (stats acc') =
               Counts.total (stats acc) + countIf (ofFeed feed) filtered
             /\ Counts.read (stats acc') =
                Counts.read (stats acc)
                + countIf (fun a => ofFeed feed a && is_read a) filtered
             /\ Counts.unread (stats acc') =
                Counts.unread (stats acc)
                + countIf (fun a => ofFeed feed a && negb (is_read a))
                    filtered).
  { induction filtered as [| a l IH]; intros acc; cbn [fold_left].
    - unfold countIf. cbn. lia.
    - specialize (IH (engagementStep acc a)). cbv zeta in IH.
      destruct IH as [H1 [H2 H3]]. cbv zeta.
      rewrite H1, H2, H3, !countIf_cons.
      unfold engagementStep, ofFeed. cbn [Acc.feedTotals].
      destruct (Z.eqb_spec (feed_id a) feed) as [-> | Hne].
      + rewrite (get_set_eq Z.eqb Zeqb_spec').
        destruct (is_read a);
          cbn [Counts.orZero Counts.bump Counts.total Counts.read
               Counts.unread andb negb]; lia.
      + rewrite (get_set_ne Z.eqb Zeqb_spec') by congruence.
        cbn [andb]. lia. }
  specialize (G Acc.init). cbv zeta in G.
  cbn [Acc.init Acc.feedTotals JSMap.get JSMap.empty Counts.orZero
       Counts.zero Counts.total Counts.read Counts.unread] in G.
  exact G.
Qed.

(** C8, as stated, fails: the feed of the entry has the empty title, for
    which [title ?? "Untitled"] is the empty title, and the entry is named
    "Untitled". *)
Lemma feed_name_counterexample :
  exists e entry feed,
    engagement Sample.now (Some Sample.threeArticles) (Some Sample.feedList)
      Range7 = Some e
    /\ In entry (Engagement.feedPerformance e)
    /\ 0 < FeedPerformance.total entry
    /\ JSMap.get Z.eqb (FeedPerformance.feedId entry)
         (feedsById (Some Sample.feedList)) = Some feed
    /\ FeedPerformance.name entry <> nullishOr (title feed) "Untitled".
Proof.
  eexists. eexists. exists (mkFeed 1 (Some EmptyString) true).
  split; [reflexivity |].
  split; [left; reflexivity |].
  split; [reflexivity |].
  split; [reflexivity |].
  cbn. discriminate.
Qed.

(** C8, amended.  Every feed-performance entry has a positive total and
    carries the statistics of its source; its name is the title of the
    source when that is a non-empty string and "Untitled" otherwise, its
    active flag is the source's, or false without a source, and its read
    rate is [Math.round((read / total) * 100)] as doubles compute it:
    the exact rounding of read / total * 100, or one less when that value
    lies halfway between two integers, as for a feed with 23 read of 40
    articles, whose rate is 57.  The entries are in non-increasing order
    of total, at most 10 of them are kept, and the chart takes the first
    8 at most. *)
Theorem feed_performance_ranking
    (now : Z) (articles : option (list Article)) (feeds : option (list Feed))
    (timeRange : TimeRange) (e : Engagement.t) :
  engagement now articles feeds timeRange = Some e ->
  let ranked := Engagement.feedPerformance e in
  let perSourceTotals :=
    Acc.feedTotals (engagementPass (filteredArticles now articles timeRange)) in
  let chart := topFeedsForChart now articles feeds timeRange in
  Forall (fun entry =>
            let feed :=
              JSMap.get Z.eqb (FeedPerformance.feedId entry)
                (feedsById feeds) in
            0 < FeedPerformance.total entry
            /\ JSMap.get Z.eqb (FeedPerformance.feedId entry) perSourceTotals
               = Some (Counts.mk (FeedPerformance.total entry)
                         (FeedPerformance.read entry)
                         (FeedPerformance.unread entry))
            /\ FeedPerformance.name entry =
               truthyOr
                 (match feed with Some f => title f | None => None end)
                 "Untitled"
            /\ FeedPerformance.active entry =
               match feed with Some f => is_active f | None => false end
            /\ FeedPerformance.readRate entry =
               percentOf (FeedPerformance.read entry)
                 (FeedPerformance.total entry)
            /\ (FeedPerformance.total entry < 2 ^ 32 ->
                FeedPerformance.readRate entry =
                exactPercent (FeedPerformance.read entry)
                  (FeedPerformance.total entry)
                \/ ((200 * FeedPerformance.read entry
                      + FeedPerformance.total entry)
                     mod (2 * FeedPerformance.total entry) = 0
                    /\ FeedPerformance.readRate entry =
                       exactPercent (FeedPerformance.read entry)
                         (FeedPerformance.total entry) - 1))) ranked
  /\ StronglySorted
       (fun a b => FeedPerformance.total b <= FeedPerformance.total a) ranked
  /\ (length ranked <= 10)%nat
  /\ chart = firstn 8 ranked
  /\ (length chart <= 8)%nat
  /\ option_map
       (fun e' => map FeedPerformance.readRate (Engagement.feedPerformance e'))
       (engagement Sample.now (Some Sample.fortyArticles)
          (Some Sample.feedList) Range7)
     = Some [57]
  /\ percentOf 23 40 = 57
  /\ exactPercent 23 40 = 58.
Proof.
  intros He ranked perSourceTotals chart.
  destruct (engagement_Some _ _ _ _ _ He) as [_ [_ [_ [Hf _]]]].
  fold perSourceTotals in Hf. fold ranked in Hf.
  assert (Hchart : chart = firstn 8 ranked).
  { unfold chart, topFeedsForChart. rewrite He. reflexivity. }
  split; [| split; [| split; [| split; [| split; [| split; [| split]]]]]];
    [| | | | | vm_compute; reflexivity | reflexivity | reflexivity].
  - rewrite Hf. apply Forall_forall. intros entry Hin.
    apply rankFeeds_In in Hin. destruct Hin as [k [stats [Hin [-> Hpos]]]].
    assert (Hget : JSMap.get Z.eqb k perSourceTotals = Some stats).
    { apply (In_get Z.eqb Zeqb_spec'); [| exact Hin].
      apply engagementPass_feedTotals_NoDup. }
    assert (Hread : 0 <= Counts.read stats <= Counts.total stats).
    { pose proof (engagementPass_feed_lookup
                    (filteredArticles now articles timeRange) k) as [Ct [Cr _]].
      fold perSourceTotals in Ct, Cr.
      rewrite Hget in Ct, Cr. cbn [Counts.orZero] in Ct, Cr.
      rewrite Ct, Cr. unfold countIf. split; [lia |].
      apply Nat2Z.inj_le. clear.
      induction (filteredArticles now articles timeRange) as [| a l IH];
        cbn [filter]; [lia |].
      destruct (ofFeed k a); cbn [andb].
      - destruct (is_read a); cbn [length]; lia.
      - exact IH. }
    unfold feedPerformanceOf.
    cbn [FeedPerformance.feedId FeedPerformance.total FeedPerformance.read
         FeedPerformance.unread FeedPerformance.name FeedPerformance.active
         FeedPerformance.readRate].
    assert (Hrate : (if 0 <? Counts.total stats
                     then percentOf (Counts.read stats) (Counts.total stats)
                     else 0)
                    = percentOf (Counts.read stats) (Counts.total stats)).
    { apply Z.ltb_lt in Hpos. now rewrite Hpos. }
    split; [exact Hpos |]. split; [| split; [| split; [| split]]].
    + destruct stats as [t r u]. exact Hget.
    + destruct (JSMap.get Z.eqb k (feedsById feeds)) as [f |];
        [| reflexivity].
      now rewrite truthyOr_eqb.
    + reflexivity.
    + exact Hrate.
    + intros Hlt. rewrite Hrate. apply percentOf_exact; [exact Hread |].
      split; [exact Hpos | exact Hlt].
  - rewrite Hf. unfold rankFeeds, slice0.
    apply StronglySorted_firstn.
    eapply StronglySorted_impl; [| apply Array_sort_sorted].
    + unfold before. intros x y. lia.
    + intros x y. lia.
    + intros x y z. lia.
  - rewrite Hf. unfold rankFeeds, slice0. apply firstn_le_length.
  - exact Hchart.
  - rewrite Hchart. apply firstn_le_length.
Qed.

Lemma feed_performance_ranking_witness :
  exists e,
    engagement Sample.now (Some Sample.threeArticles) (Some Sample.feedList)
      Range7 = Some e
    /\ map FeedPerformance.name (Engagement.feedPerformance e)
       = ["Untitled"; "Untitled"]%string
    /\ StronglySorted
         (fun a b => FeedPerformance.total b <= FeedPerformance.total a)
         (Engagement.feedPerformance e).
Proof.
  eexists. split; [reflexivity |]. split; [reflexivity |].
  apply (feed_performance_ranking Sample.now (Some Sample.threeArticles)
           (Some Sample.feedList) Range7 _ eq_refl).
Defined.

(** ** The read streak *)

Lemma Math_round_integer (z : Z) : Math_round (inject_Z z) = z.
Proof.
  unfold Math_round, Qfloor, Qplus, inject_Z. cbn [Qnum Qden].
  change (Z.pos (1 * 2)) with 2. change (1 * 1) with 1.
  rewrite Z.div_add_l by lia. change (1 / 2) with 0. lia.
Qed.

(** The difference in days the walk computes is the difference of the
    day keys. *)
Lemma days_between (k1 k2 : Z) :
  Math_round (inject_Z (dateOfKey k2 - dateOfKey k1) / inject_Z MS_PER_DAY)%Q
  = k2 - k1.
Proof.
  rewrite <- (Math_round_integer (k2 - k1)).
  unfold Math_round. apply Qfloor_comp.
  apply Qplus_comp; [| reflexivity].
  unfold dateOfKey.
  replace (k2 * MS_PER_DAY - k1 * MS_PER_DAY) with ((k2 - k1) * MS_PER_DAY)
    by ring.
  rewrite inject_Z_mult. field. discriminate.
Qed.

Lemma streakStep_keys (best current : Z) (prevKey : option Z)
    (day : DailyActivityPoint.t) :
  streakStep (best, current, option_map dateOfKey prevKey) day =
  let current' :=
    match prevKey with
    | Some k => if 1 <? DailyActivityPoint.dateKey day - k then 0 else current
    | None => current
    end in
  if 0 <? DailyActivityPoint.read day
  then (Z.max best (current' + 1), current' + 1,
        Some (dateOfKey (DailyActivityPoint.dateKey day)))
  else (best, 0, Some (dateOfKey (DailyActivityPoint.dateKey day))).
Proof.
  unfold streakStep. destruct prevKey as [k |]; cbn [option_map].
  - rewrite days_between. reflexivity.
  - reflexivity.
Qed.

Lemma lastKey_snoc (l : list DailyActivityPoint.t) (p : DailyActivityPoint.t) :
  lastKey (l ++ [p]) = Some (DailyActivityPoint.dateKey p).
Proof.
  induction l as [| a l IH]; [reflexivity |].
  cbn [app lastKey]. rewrite IH. now destruct (l ++ [p]).
Qed.

Lemma lastKey_app (l r : list DailyActivityPoint.t) :
  r <> [] -> lastKey (l ++ r) = lastKey r.
Proof.
  intros Hr. induction l as [| a l IH]; [reflexivity |].
  cbn [app lastKey]. rewrite IH.
  destruct (l ++ r) eqn:E; [| reflexivity].
  apply app_eq_nil in E. tauto.
Qed.

Lemma noGap_snoc (r : list DailyActivityPoint.t) (q : DailyActivityPoint.t) :
  noGap (r ++ [q]) <->
  noGap r /\
  match lastKey r with
  | Some k => DailyActivityPoint.dateKey q - k <= 1
  | None => True
  end.
Proof.
  induction r as [| p r IH]; [cbn; tauto |].
  destruct r as [| p' r]; [cbn; tauto |].
  change (noGap ((p :: p' :: r) ++ [q])) with
    (DailyActivityPoint.dateKey p' - DailyActivityPoint.dateKey p <= 1
     /\ noGap ((p' :: r) ++ [q])).
  change (noGap (p :: p' :: r)) with
    (DailyActivityPoint.dateKey p' - DailyActivityPoint.dateKey p <= 1
     /\ noGap (p' :: r)).
  change (lastKey (p :: p' :: r)) with (lastKey (p' :: r)).
  rewrite IH. tauto.
Qed.

Lemma isRun_nil : isRun [].
Proof. split; [constructor | exact I]. Qed.

Lemma isRun_snoc (r : list DailyActivityPoint.t) (q : DailyActivityPoint.t) :
  isRun (r ++ [q]) <->
  isRun r /\ 0 < DailyActivityPoint.read q /\
  match lastKey r with
  | Some k => DailyActivityPoint.dateKey q - k <= 1
  | None => True
  end.
Proof.
  unfold isRun. rewrite Forall_app, noGap_snoc. split.
  - intros [[H1 H2] [H3 H4]]. inversion H2; subst. tauto.
  - intros [[H1 H2] [H3 H4]]. repeat split; auto.
Qed.

Lemma snoc_split {A : Type} (pre l1 l2 : list A) (p : A) :
  pre ++ [p] = l1 ++ l2 ->
  (l2 = [] /\ l1 = pre ++ [p])
  \/ (exists l2', l2 = l2' ++ [p] /\ pre = l1 ++ l2').
Proof.
  intros H. destruct l2 as [| y l2].
  - left. rewrite app_nil_r in H. auto.
  - destruct (@exists_last _ (y :: l2)) as [l2' [x E]]; [discriminate |].
    rewrite E in *. clear E. right. rewrite app_assoc in H. apply app_inj_tail in H.
    destruct H as [-> ->]. eauto.
Qed.

Lemma streakInv_init : streakInv [] (0, 0, None).
Proof.
  split; [reflexivity |].
  split; [exists [], []; split; [reflexivity | split; [apply isRun_nil |]];
          reflexivity |].
  split.
  { intros l1 run E _. symmetry in E. apply app_eq_nil in E.
    destruct E as [_ ->]. reflexivity. }
  split; [exists [], [], []; split; [reflexivity | split; [apply isRun_nil |]];
          reflexivity |].
  intros l1 run l2 E _. symmetry in E. apply app_eq_nil in E.
  destruct E as [_ E]. apply app_eq_nil in E. destruct E as [-> _].
  reflexivity.
Qed.

(** From what is known of the runs that end [pre ++ [p]], what is known
    of the runs anywhere in it. *)
Lemma streakInv_extend (pre : list DailyActivityPoint.t)
    (p : DailyActivityPoint.t) (best current current' : Z) (prev : option Z) :
  streakInv pre (best, current, prev) ->
  (exists l1 run,
     pre ++ [p] = l1 ++ run /\ isRun run /\ Z.of_nat (length run) = current') ->
  (forall l1 run,
     pre ++ [p] = l1 ++ run -> isRun run -> Z.of_nat (length run) <= current') ->
  streakInv (pre ++ [p])
    (Z.max best current', current',
     Some (dateOfKey (DailyActivityPoint.dateKey p))).
Proof.
  intros [_ [_ [_ [Hd He]]]] Hb' Hc'.
  split; [rewrite lastKey_snoc; reflexivity |].
  split; [exact Hb' |]. split; [exact Hc' |]. split.
  - destruct (Z.max_spec best current') as [[Hlt ->] | [Hle ->]].
    + destruct Hb' as [l1 [run [E [Hrun Hlen]]]].
      exists l1, run, []. rewrite app_nil_r. auto.
    + destruct Hd as [l1 [run [l2 [E [Hrun Hlen]]]]].
      exists l1, run, (l2 ++ [p]). rewrite E, <- !app_assoc. auto.
  - intros l1 run l2 E Hrun. rewrite app_assoc in E.
    apply snoc_split in E. destruct E as [[-> E] | [l2' [-> E]]].
    + symmetry in E. specialize (Hc' _ _ E Hrun). lia.
    + rewrite <- app_assoc in E. specialize (He _ _ _ E Hrun). lia.
Qed.

Lemma streakInv_step (pre : list DailyActivityPoint.t)
    (st : Z * Z * option Z) (p : DailyActivityPoint.t) :
  streakInv pre st -> streakInv (pre ++ [p]) (streakStep st p).
Proof.
  destruct st as [[best current] prev]. intros Hinv.
  pose proof Hinv as [Hprev [Hb [Hc [Hd He]]]].
  assert (Hcur0 : 0 <= current).
  { specialize (Hc pre [] (eq_sym (app_nil_r pre)) isRun_nil). exact Hc. }
  assert (Hcb : current <= best).
  { destruct Hb as [l1 [run [E [Hrun <-]]]].
    apply (He l1 run []); [now rewrite app_nil_r | exact Hrun]. }
  rewrite Hprev, streakStep_keys. cbv zeta.
  destruct (0 <? DailyActivityPoint.read p) eqn:Hread.
  - apply Z.ltb_lt in Hread.
    set (current' :=
           match lastKey pre with
           | Some k =>
               if 1 <? DailyActivityPoint.dateKey p - k then 0 else current
           | None => current
           end).
    assert (Hgap :
              (exists k, lastKey pre = Some k
                         /\ 1 < DailyActivityPoint.dateKey p - k
                         /\ current' = 0)
              \/ (match lastKey pre with
                  | Some k => DailyActivityPoint.dateKey p - k <= 1
                  | None => True
                  end /\ current' = current)).
    { unfold current'. destruct (lastKey pre) as [k |]; [| now right].
      destruct (Z.ltb_spec 1 (DailyActivityPoint.dateKey p - k)).
      - left. exists k. auto.
      - right. auto. }
    apply streakInv_extend with current prev; [exact Hinv | |].
    + destruct Hgap as [[k [Hk [Hgt ->]]] | [Hok ->]].
      * exists pre, [p]. split; [reflexivity |].
        split; [| reflexivity].
        apply (isRun_snoc [] p). split; [apply isRun_nil |].
        split; [exact Hread | exact I].
      * destruct Hb as [l1 [run [E [Hrun Hlen]]]].
        exists l1, (run ++ [p]). split; [rewrite E, app_assoc; reflexivity |].
        split; [| rewrite length_app; cbn [length]; lia].
        apply isRun_snoc. split; [exact Hrun |]. split; [exact Hread |].
        destruct run as [| x run]; [exact I |].
        rewrite E, lastKey_app in Hok by discriminate. exact Hok.
    + intros l1 run E Hrun.
      apply snoc_split in E. destruct E as [[-> _] | [r [-> E]]].
      * cbn [length]. destruct Hgap as [[k [_ [_ ->]]] | [_ ->]]; lia.
      * apply isRun_snoc in Hrun. destruct Hrun as [Hr [_ Hok]].
        rewrite length_app. cbn [length].
        destruct Hgap as [[k [Hk [Hgt ->]]] | [_ ->]].
        -- destruct r as [| x r]; [cbn; lia |].
           rewrite E, lastKey_app in Hk by discriminate.
           rewrite Hk in Hok. lia.
        -- specialize (Hc _ _ E Hr). lia.
  - apply Z.ltb_ge in Hread.
    replace best with (Z.max best 0) at 1 by lia.
    apply streakInv_extend with current prev; [exact Hinv | |].
    + exists (pre ++ [p]), []. rewrite app_nil_r.
      split; [reflexivity | split; [apply isRun_nil | reflexivity]].
    + intros l1 run E Hrun.
      apply snoc_split in E. destruct E as [[-> _] | [r [-> E]]].
      * reflexivity.
      * apply isRun_snoc in Hrun. lia.
Qed.

Lemma streakInv_fold (series pre : list DailyActivityPoint.t)
    (st : Z * Z * option Z) :
  streakInv pre st ->
  streakInv (pre ++ series) (fold_left streakStep series st).
Proof.
  revert pre st. induction series as [| p series IH]; intros pre st H.
  - rewrite app_nil_r. exact H.
  - cbn [fold_left].
    replace (pre ++ p :: series) with ((pre ++ [p]) ++ series)
      by (rewrite <- app_assoc; reflexivity).
    apply IH, streakInv_step, H.
Qed.

Lemma streakOf_fold (series : list DailyActivityPoint.t) :
  streakOf series = fst (fst (fold_left streakStep series (0, 0, None))).
Proof. destruct series; reflexivity. Qed.

(** In an ascending series the points of a stretch without a gap are on
    consecutive calendar days. *)
Lemma noGap_consecutiveDays (run : list DailyActivityPoint.t) :
  StronglySorted Z.lt (map DailyActivityPoint.dateKey run) ->
  (noGap run <-> consecutiveDays run).
Proof.
  induction run as [| p run IH]; [cbn; tauto |].
  destruct run as [| q run]; [cbn; tauto |].
  intros Hs. cbn [map] in Hs.
  inversion Hs as [| ? ? Hs' Hp]; subst.
  inversion Hp as [| ? ? Hpq _]; subst.
  change (noGap (p :: q :: run)) with
    (DailyActivityPoint.dateKey q - DailyActivityPoint.dateKey p <= 1
     /\ noGap (q :: run)).
  change (consecutiveDays (p :: q :: run)) with
    (DailyActivityPoint.dateKey q = DailyActivityPoint.dateKey p + 1
     /\ consecutiveDays (q :: run)).
  rewrite (IH Hs'). split; intros [H1 H2]; (split; [lia | exact H2]).
Qed.

(** The series of the unbounded window is strictly ascending as well. *)
Lemma daily_activity_unbounded_ascending (now : Z) (l : list Article) :
  StronglySorted Z.lt
    (map DailyActivityPoint.dateKey (dailyActivity now (Some l) RangeAll)).
Proof.
  unfold dailyActivity, buildDailyActivity. cbn [timeRangeDays].
  set (filtered := filteredArticles now (Some l) RangeAll).
  set (sortedKeys := Array_sort (fun a b => a - b)
                       (JSMap.keys (countsOf filtered))).
  assert (E : map DailyActivityPoint.dateKey
                (map (pointAtKey (countsOf filtered)) sortedKeys)
              = sortedKeys).
  { rewrite map_map. cbn [pointAtKey DailyActivityPoint.dateKey].
    apply map_id. }
  rewrite E.
  assert (Hnd : NoDup sortedKeys).
  { eapply Permutation_NoDup;
      [apply Permutation_sym, Array_sort_perm | apply countsOf_keys_NoDup]. }
  assert (Hle : StronglySorted (fun a b => a <= b) sortedKeys).
  { eapply StronglySorted_impl; [| apply Array_sort_sorted].
    - unfold before. intros x y. lia.
    - intros x y. lia.
    - intros x y z. lia. }
  clear E. induction Hle as [| k ks Hs IH Hk]; constructor.
  - apply IH. now inversion Hnd.
  - inversion Hnd as [| ? ? Hnin _]; subst.
    rewrite Forall_forall in *. intros k' Hk'.
    specialize (Hk k' Hk').
    assert (k <> k') by (intros ->; contradiction). lia.
Qed.

(** C5.  The streak is the length of the longest run of the series, a
    run being a stretch of successive points, each with a read article
    and none more than one day after the point before it; it is 0 for the
    empty series; and seven consecutive days with the reads 1, 1, 0, 1,
    1, 1, 0 give 3. *)
Theorem longest_read_streak :
  (forall series,
     exists l1 run l2,
       series = l1 ++ run ++ l2
       /\ isRun run
       /\ streakOf series = Z.of_nat (length run))
  /\ (forall series l1 run l2,
        series = l1 ++ run ++ l2 -> isRun run ->
        Z.of_nat (length run) <= streakOf series)
  /\ streakOf [] = 0
  /\ (forall (d : Z) (points : list DailyActivityPoint.t),
        map DailyActivityPoint.dateKey points =
          [d; d + 1; d + 2; d + 3; d + 4; d + 5; d + 6] ->
        map DailyActivityPoint.read points = [1; 1; 0; 1; 1; 1; 0] ->
        streakOf points = 3).
Proof.
  assert (Hinv : forall series,
             streakInv series (fold_left streakStep series (0, 0, None))).
  { intros series. apply (streakInv_fold series []), streakInv_init. }
  split; [| split; [| split]].
  - intros series. specialize (Hinv series). rewrite streakOf_fold.
    destruct (fold_left streakStep series (0, 0, None)) as [[best cur] prev].
    destruct Hinv as [_ [_ [_ [[l1 [run [l2 [E [Hrun Hlen]]]]] _]]]].
    exists l1, run, l2. cbn [fst]. auto.
  - intros series l1 run l2 E Hrun. specialize (Hinv series).
    rewrite streakOf_fold.
    destruct (fold_left streakStep series (0, 0, None)) as [[best cur] prev].
    destruct Hinv as [_ [_ [_ [_ He]]]]. cbn [fst]. eauto.
  - reflexivity.
  - intros d points Hkeys Hreads.
    do 8 (destruct points as [| [? ? ? ? ?] points]; try discriminate).
    cbn [map DailyActivityPoint.dateKey DailyActivityPoint.read]
      in Hkeys, Hreads.
    injection Hkeys as -> -> -> -> -> -> ->.
    injection Hreads as -> -> -> -> -> -> ->.
    rewrite streakOf_fold.
    cbn [fold_left streakStep DailyActivityPoint.read
         DailyActivityPoint.dateKey Z.ltb Z.compare].
    rewrite !days_between.
    repeat match goal with
           | |- context [1 <? ?a - ?b] => replace (a - b) with 1 by lia
           end.
    reflexivity.
Qed.

Lemma longest_read_streak_witness : streakOf Sample.weekOfReads = 3.
Proof.
  apply (proj2 (proj2 (proj2 longest_read_streak)) 19994 Sample.weekOfReads);
    reflexivity.
Defined.

(** ** Cluster topics *)

Lemma countIf_app {A : Type} (f : A -> bool) (l1 l2 : list A) :
  countIf f (l1 ++ l2) = countIf f l1 + countIf f l2.
Proof.
  unfold countIf. rewrite filter_app, length_app. lia.
Qed.

Lemma pushTopics_member (l : list Article) (acc : list string) (i : Z) :
  pushTopics l acc i = acc ++ memberTopics l i.
Proof.
  unfold pushTopics, memberTopics.
  destruct (find _ l) as [a |]; [| now rewrite app_nil_r].
  destruct (topics a); [reflexivity | now rewrite app_nil_r].
Qed.

Lemma collectTopics_flat_map (l : list Article) (ids : list Z) :
  collectTopics l ids = flat_map (memberTopics l) ids.
Proof.
  unfold collectTopics.
  assert (G : forall acc,
             fold_left (pushTopics l) ids acc
             = acc ++ flat_map (memberTopics l) ids).
  { induction ids as [| i ids IH]; intros acc; cbn [fold_left flat_map].
    - now rewrite app_nil_r.
    - rewrite IH, pushTopics_member, app_assoc. reflexivity. }
  apply (G []).
Qed.

Lemma String_eqb_spec' (x y : string) : String.eqb x y = true <-> x = y.
Proof. apply String.eqb_eq. Qed.

Lemma tally_get (ts : list string) (o : JSObject.t) (topic : string) :
  orZero (JSObject.get topic (fold_left tally ts o))
  = orZero (JSObject.get topic o) + countIf (String.eqb topic) ts.
Proof.
  revert o. induction ts as [| x ts IH]; intros o; cbn [fold_left].
  - unfold countIf. cbn. lia.
  - rewrite IH, countIf_cons. unfold tally, JSObject.get, JSObject.set.
    destruct (String.eqb_spec topic x) as [-> | Hne].
    + rewrite (get_set_eq String.eqb String_eqb_spec'). cbn [orZero]. lia.
    + rewrite (get_set_ne String.eqb String_eqb_spec') by exact Hne. lia.
Qed.

Lemma countIf_flat_map {A B : Type} (f : B -> bool) (g : A -> list B)
    (l : list A) :
  countIf f (flat_map g l) = sumZ (map (fun x => countIf f (g x)) l).
Proof.
  induction l as [| x l IH]; [reflexivity |].
  cbn [flat_map map sumZ fold_right]. rewrite countIf_app, IH. reflexivity.
Qed.

(** C10.  The accumulation takes the topics of the matching article once
    for every occurrence of its id and removes no duplicate: a topic
    occurs in the accumulated array as often as the sum, over the
    occurrences of the ids, of its occurrences among the topics of the
    article, so twice as often for an id listed twice as for the id
    listed once.  The object counts a topic that is not an inherited key
    as often as it occurs in the array, and listing an id twice can
    change the three topics returned. *)
Theorem duplicate_ids_inflate_counts :
  (forall (l : list Article) (ids : list Z),
     collectTopics l ids = flat_map (memberTopics l) ids)
  /\ (forall (l : list Article) (ids : list Z) (topic : string),
        frequency (collectTopics l ids) topic
        = sumZ (map (fun i => countIf (String.eqb topic) (memberTopics l i))
                  ids))
  /\ (forall (l : list Article) (i : Z) (topic : string),
        frequency (collectTopics l [i; i]) topic
        = 2 * frequency (collectTopics l [i]) topic)
  /\ (forall (l : list Article) (ids : list Z) (topic : string),
        JSObject.inherited topic = false ->
        orZero (JSObject.get topic (countTopics (collectTopics l ids)))
        = frequency (collectTopics l ids) topic)
  /\ getClusterTopics [1; 2] (Some Sample.clusterArticles)
     = ["a"; "b"; "c"]%string
  /\ getClusterTopics [1; 2; 2] (Some Sample.clusterArticles)
     = ["d"; "a"; "b"]%string.
Proof.
  assert (Hcount : forall l ids topic,
             frequency (collectTopics l ids) topic
             = sumZ (map (fun i => countIf (String.eqb topic)
                                     (memberTopics l i)) ids)).
  { intros l ids topic. unfold frequency.
    rewrite collectTopics_flat_map, countIf_flat_map. reflexivity. }
  split; [exact collectTopics_flat_map |].
  split; [exact Hcount |].
  split; [| split; [| split; reflexivity]].
  - intros l i topic. rewrite !Hcount. cbn [map sumZ fold_right]. lia.
  - intros l ids topic _. unfold countTopics, frequency.
    rewrite tally_get. reflexivity.
Qed.

Lemma duplicate_ids_inflate_counts_witness :
  JSObject.inherited "a" = false
  /\ orZero (JSObject.get "a"
               (countTopics (collectTopics Sample.clusterArticles [1; 1])))
     = frequency (collectTopics Sample.clusterArticles [1; 1]) "a".
Proof.
  split; [reflexivity |].
  destruct duplicate_ids_inflate_counts as [_ [_ [_ [H _]]]].
  apply H. reflexivity.
Defined.

(** C9.  The code at the failing input: the only member article lists
    the topics "b" and "1", each counted once, "b" seen first; the object
    enumerates the integer key first and "1" is returned before "b". *)
Theorem cluster_topics_integer_key_first :
  collectTopics Sample.numberedTopic [1] = ["b"; "1"]%string
  /\ countTopics (collectTopics Sample.numberedTopic [1])
     = [("b", 1); ("1", 1)]%string
  /\ getClusterTopics [1] (Some Sample.numberedTopic) = ["1"; "b"]%string.
Proof. repeat split. Qed.

(** *** The ranking of the cluster topics *)

Section StableSort.
Context {A : Type} (key : A -> Z) (T : A -> A -> Prop).

Lemma sort_insert_stable (x : A) (l : list A) :
  StronglySorted (descendingThen key T) l -> Forall (T x) l ->
  StronglySorted (descendingThen key T)
    (sort_insert (fun a b => key b - key a) x l).
Proof.
  induction 1 as [| y l Hs IH Hy]; intros HT; cbn [sort_insert].
  - repeat constructor.
  - inversion HT as [| ? ? HTy HTl]; subst.
    destruct (0 <? key y - key x) eqn:E.
    + apply Z.ltb_lt in E.
      constructor; [apply IH, HTl |].
      rewrite Forall_forall in *. intros z Hz.
      apply (Permutation_in _ (sort_insert_perm _ x l)) in Hz.
      destruct Hz as [<- | Hz]; [left; lia | apply Hy, Hz].
    + apply Z.ltb_ge in E.
      constructor; [constructor; assumption |].
      constructor.
      * unfold descendingThen.
        destruct (Z.eq_dec (key y) (key x)); [right | left; lia].
        auto.
      * rewrite Forall_forall in *. intros z Hz.
        specialize (Hy z Hz). specialize (HTl z Hz).
        unfold descendingThen in *.
        destruct (Z.eq_dec (key z) (key x)); [right; auto | left; lia].
Qed.

Lemma Array_sort_stable (l : list A) :
  StronglySorted T l ->
  StronglySorted (descendingThen key T)
    (Array_sort (fun a b => key b - key a) l).
Proof.
  induction 1 as [| x l Hs IH Hx]; cbn [Array_sort fold_right].
  - constructor.
  - apply sort_insert_stable; [exact IH |].
    rewrite Forall_forall in *. intros z Hz.
    apply Array_sort_In in Hz. apply Hx, Hz.
Qed.
End StableSort.

Lemma StronglySorted_snoc {A : Type} (R : A -> A -> Prop) (l : list A)
    (x : A) :
  StronglySorted R l -> Forall (fun y => R y x) l ->
  StronglySorted R (l ++ [x]).
Proof.
  induction 1 as [| y l Hs IH Hy]; intros Hx; cbn [app].
  - repeat constructor.
  - inversion Hx; subst. constructor; [apply IH; assumption |].
    apply Forall_app. split; [exact Hy | repeat constructor; assumption].
Qed.

Lemma StronglySorted_map {A B : Type} (f : A -> B) (R : B -> B -> Prop)
    (l : list A) :
  StronglySorted (fun x y => R (f x) (f y)) l -> StronglySorted R (map f l).
Proof.
  induction 1 as [| x l Hs IH Hx]; cbn [map]; constructor; [exact IH |].
  rewrite Forall_forall in *. intros y Hy.
  apply in_map_iff in Hy. destruct Hy as [z [<- Hz]]. apply Hx, Hz.
Qed.

Lemma filter_split_perm {A : Type} (f : A -> bool) (l : list A) :
  Permutation (filter f l ++ filter (fun x => negb (f x)) l) l.
Proof.
  induction l as [| x l IH]; cbn [filter]; [constructor |].
  destruct (f x); cbn [negb app].
  - apply perm_skip, IH.
  - apply Permutation_sym, Permutation_cons_app, Permutation_sym, IH.
Qed.

Lemma entries_perm (o : JSObject.t) : Permutation (JSObject.entries o) o.
Proof.
  unfold JSObject.entries.
  eapply perm_trans; [| apply (filter_split_perm JSObject.isIndex)].
  apply Permutation_app_tail, Array_sort_perm.
Qed.

(** Without integer-like keys the object enumerates in creation order. *)
Lemma entries_plain (o : JSObject.t) :
  Forall (fun kv => JSObject.arrayIndex (fst kv) = None) o ->
  JSObject.entries o = o.
Proof.
  intros H. unfold JSObject.entries.
  assert (E : filter JSObject.isIndex o = []
              /\ filter (fun entry => negb (JSObject.isIndex entry)) o = o).
  { induction H as [| kv o Hkv Ho [IH1 IH2]]; cbn [filter]; [auto |].
    assert (Hf : JSObject.isIndex kv = false)
      by (unfold JSObject.isIndex; now rewrite Hkv).
    rewrite Hf. cbn [negb]. split; [exact IH1 | now rewrite IH2]. }
  destruct E as [-> ->]. reflexivity.
Qed.

Lemma StronglySorted_impl_In {A : Type} (R S : A -> A -> Prop) (l : list A) :
  (forall x y, In x l -> In y l -> R x y -> S x y) ->
  StronglySorted R l -> StronglySorted S l.
Proof.
  intros HRS H. induction H as [| x l Hs IH Hx]; constructor.
  - apply IH. intros a b Ha Hb. apply HRS; now right.
  - rewrite Forall_forall in *. intros y Hy.
    apply HRS; [now left | now right | apply Hx, Hy].
Qed.

Lemma StronglySorted_map_inv {A B : Type} (f : A -> B) (R : B -> B -> Prop)
    (l : list A) :
  StronglySorted R (map f l) -> StronglySorted (fun x y => R (f x) (f y)) l.
Proof.
  induction l as [| x l IH]; cbn [map]; intros H; [constructor |].
  inversion H as [| ? ? Hs Hx]; subst. constructor; [apply IH, Hs |].
  rewrite Forall_forall in *. intros y Hy. apply Hx, in_map, Hy.
Qed.

Lemma NoDup_firstn {A : Type} (n : nat) (l : list A) :
  NoDup l -> NoDup (firstn n l).
Proof.
  intros H. revert n.
  induction H as [| x l Hx Hl IH]; intros [| n]; cbn [firstn];
    try constructor.
  - intros Hin. apply Hx. eapply firstn_In, Hin.
  - apply IH.
Qed.

Lemma firstSeenBefore_snoc (pre : list string) (t a b : string) :
  firstSeenBefore pre a b -> firstSeenBefore (pre ++ [t]) a b.
Proof.
  intros [Hne [p1 [p2 [-> Hb]]]]. split; [exact Hne |].
  exists p1, (p2 ++ [t]). split; [| exact Hb].
  rewrite <- app_assoc. reflexivity.
Qed.

(** The keys of the tally are the topics seen, each once, in the order
    in which they were first seen. *)
Lemma tally_keys (ts pre : list string) (o : JSObject.t) :
  NoDup (JSMap.keys o) ->
  (forall k, In k (JSMap.keys o) <-> In k pre) ->
  StronglySorted (firstSeenBefore pre) (JSMap.keys o) ->
  let o' := fold_left tally ts o in
  NoDup (JSMap.keys o')
  /\ (forall k, In k (JSMap.keys o') <-> In k (pre ++ ts))
  /\ StronglySorted (firstSeenBefore (pre ++ ts)) (JSMap.keys o').
Proof.
  revert pre o. induction ts as [| t ts IH]; intros pre o Hnd Hin Hs;
    cbn [fold_left].
  - rewrite app_nil_r. auto.
  - replace (pre ++ t :: ts) with ((pre ++ [t]) ++ ts)
      by (rewrite <- app_assoc; reflexivity).
    assert (Hkeys : JSMap.keys (tally o t) =
                    if existsb (String.eqb t) (JSMap.keys o)
                    then JSMap.keys o else JSMap.keys o ++ [t])
      by apply keys_set.
    apply IH.
    + apply (keys_set_NoDup String.eqb String_eqb_spec'), Hnd.
    + intros k. rewrite Hkeys, in_app_iff. cbn [In].
      destruct (existsb (String.eqb t) (JSMap.keys o)) eqn:E.
      * apply (existsb_eqb_In String.eqb String_eqb_spec') in E.
        rewrite Hin in *. split; [tauto |].
        intros [H | [<- | []]]; assumption.
      * rewrite in_app_iff, Hin. cbn [In]. tauto.
    + rewrite Hkeys.
      assert (Hs' : StronglySorted (firstSeenBefore (pre ++ [t]))
                      (JSMap.keys o)).
      { eapply StronglySorted_impl; [| exact Hs].
        intros a b. apply firstSeenBefore_snoc. }
      destruct (existsb (String.eqb t) (JSMap.keys o)) eqn:E; [exact Hs' |].
      apply StronglySorted_snoc; [exact Hs' |].
      assert (Ht : ~ In t pre).
      { rewrite <- Hin. intros H.
        apply (existsb_eqb_In String.eqb String_eqb_spec') in H. congruence. }
      rewrite Forall_forall. intros y Hy. apply Hin in Hy.
      split; [intros ->; contradiction |].
      apply in_split in Hy. destruct Hy as [p1 [p2 ->]].
      exists p1, (p2 ++ [t]). split.
      * rewrite <- app_assoc. reflexivity.
      * intros H. apply Ht. apply in_or_app. now left.
Qed.

Lemma countTopics_keys (ts : list string) :
  NoDup (JSMap.keys (countTopics ts))
  /\ (forall k, In k (JSMap.keys (countTopics ts)) <-> In k ts)
  /\ StronglySorted (firstSeenBefore ts) (JSMap.keys (countTopics ts)).
Proof.
  apply (tally_keys ts [] JSObject.empty); [constructor | | constructor].
  intros k. cbn. tauto.
Qed.

(** An entry of the tally pairs a topic with its frequency. *)
Lemma countTopics_entry (ts : list string) (topic : string) (count : Z) :
  In (topic, count) (countTopics ts) -> count = frequency ts topic.
Proof.
  intros Hin.
  apply (In_get String.eqb String_eqb_spec') in Hin;
    [| apply countTopics_keys].
  pose proof (tally_get ts JSObject.empty topic) as H.
  unfold JSObject.get in H. fold (countTopics ts) in H.
  rewrite Hin in H. cbn [orZero JSMap.get JSObject.empty] in H.
  unfold frequency. lia.
Qed.

(** With the object of own keys, the cluster topics are at most three
    distinct topics of the accumulation in non-increasing order of
    frequency, none when nothing was accumulated; and when no topic is an
    integer-like string they are the first three of the ranking by
    frequency with ties in first-seen order. *)
Lemma cluster_topics_ranking (ids : list Z) (l : list Article) :
  let ts := collectTopics l ids in
  let result := getClusterTopics ids (Some l) in
  (length result <= 3)%nat
  /\ NoDup result
  /\ (forall t, In t result -> In t ts)
  /\ StronglySorted (fun t1 t2 => frequency ts t2 <= frequency ts t1) result
  /\ (ts = [] -> result = [])
  /\ (Forall (fun t => JSObject.arrayIndex t = None) ts ->
      exists ranking,
        NoDup ranking
        /\ (forall t, In t ranking <-> In t ts)
        /\ StronglySorted (ranksBefore ts) ranking
        /\ result = firstn 3 ranking).
Proof.
  intros ts result.
  destruct (countTopics_keys ts) as [Hnd [Hkeys Hseen]].
  set (cmp := fun a b : string * Z => snd b - snd a).
  set (sorted := Array_sort cmp (JSObject.entries (countTopics ts))).
  assert (Hresult : result = firstn 3 (map fst sorted)).
  { unfold result, getClusterTopics, slice0. fold ts. fold cmp. fold sorted.
    symmetry. apply firstn_map. }
  assert (Hperm : Permutation sorted (countTopics ts)).
  { eapply perm_trans; [apply Array_sort_perm | apply entries_perm]. }
  assert (Hfreq : forall kv, In kv sorted -> snd kv = frequency ts (fst kv)).
  { intros [t c] Hin. apply (Permutation_in _ Hperm) in Hin.
    apply countTopics_entry, Hin. }
  assert (Hnd' : NoDup (map fst sorted)).
  { eapply Permutation_NoDup; [| exact Hnd].
    apply Permutation_sym, Permutation_map, Hperm. }
  assert (Hin' : forall t, In t (map fst sorted) <-> In t ts).
  { intros t. rewrite <- Hkeys. unfold JSMap.keys.
    split; apply Permutation_in;
      [| apply Permutation_sym]; apply Permutation_map, Hperm. }
  split; [rewrite Hresult; apply firstn_le_length |].
  split; [rewrite Hresult; apply NoDup_firstn, Hnd' |].
  split; [intros t Ht; rewrite Hresult in Ht;
          apply Hin'; eapply firstn_In, Ht |].
  split; [| split].
  - rewrite Hresult. apply StronglySorted_firstn, StronglySorted_map.
    eapply StronglySorted_impl_In; [| apply (Array_sort_sorted cmp)].
    + intros x y Hx Hy. unfold before, cmp.
      fold sorted in Hx, Hy. rewrite (Hfreq x Hx), (Hfreq y Hy). lia.
    + intros x y. unfold cmp. lia.
    + intros x y z. unfold cmp. lia.
  - intros Hnil. unfold result, getClusterTopics. fold ts. now rewrite Hnil.
  - intros Hplain. exists (map fst sorted).
    split; [exact Hnd' |]. split; [exact Hin' |]. split; [| exact Hresult].
    apply StronglySorted_map.
    assert (Hentries : JSObject.entries (countTopics ts) = countTopics ts).
    { apply entries_plain. rewrite Forall_forall in *.
      intros [t c] Hin. apply Hplain, Hkeys.
      unfold JSMap.keys. apply (in_map fst) in Hin. exact Hin. }
    unfold sorted in *. rewrite Hentries in *.
    eapply StronglySorted_impl_In;
      [| apply (Array_sort_stable snd
                  (fun a b => firstSeenBefore ts (fst a) (fst b)))].
    + intros x y Hx Hy. fold cmp in Hx, Hy.
      unfold ranksBefore, descendingThen.
      rewrite <- (Hfreq x Hx), <- (Hfreq y Hy). tauto.
    + apply StronglySorted_map_inv, Hseen.
Qed.

(** * Further properties of the page *)

(** ** What the engagement pass accumulates *)

Lemma engagementPass_counters (filtered : list Article) :
  let acc := engagementPass filtered in
  Acc.readCount acc = countIf is_read filtered
  /\ Acc.unreadCount acc = countIf (fun a => negb (is_read a)) filtered
  /\ Acc.bookmarkCount acc = countIf is_bookmarked filtered.
Proof.
  unfold engagementPass.
  assert (G : forall acc,
             let acc' := fold_left engagementStep filtered acc in
             Acc.readCount acc' = Acc.readCount acc + countIf is_read filtered
             /\ Acc.unreadCount acc' =
                Acc.unreadCount acc
                + countIf (fun a => negb (is_read a)) filtered
             /\ Acc.bookmarkCount acc' =
                Acc.bookmarkCount acc + countIf is_bookmarked filtered).
  { induction filtered as [| a l IH]; intros acc; cbn [fold_left].
    - unfold countIf. cbn. lia.
    - specialize (IH (engagementStep acc a)). cbv zeta in IH.
      destruct IH as [H1 [H2 H3]]. rewrite H1, H2, H3, !countIf_cons.
      unfold engagementStep.
      cbn [Acc.readCount Acc.unreadCount Acc.bookmarkCount].
      destruct (is_read a), (is_bookmarked a); cbn [negb]; lia. }
  specialize (G Acc.init). cbv zeta in G. cbn [Acc.init Acc.readCount
    Acc.unreadCount Acc.bookmarkCount] in G.
  destruct G as [H1 [H2 H3]]. cbv zeta. rewrite H1, H2, H3. lia.
Qed.

Lemma engagementPass_topicCounts (filtered : list Article) :
  Acc.topicCounts (engagementPass filtered)
  = countTopics (flat_map topicsOf filtered).
Proof.
  unfold engagementPass, countTopics.
  assert (G : forall acc,
             Acc.topicCounts (fold_left engagementStep filtered acc)
             = fold_left tally (flat_map topicsOf filtered)
                 (Acc.topicCounts acc)).
  { induction filtered as [| a l IH]; intros acc; cbn [fold_left flat_map].
    - reflexivity.
    - rewrite IH, fold_left_app. f_equal.
      unfold engagementStep, topicsOf. cbn [Acc.topicCounts].
      destruct (topics a); reflexivity. }
  apply (G Acc.init).
Qed.

Lemma engagementPass_uniqueDays (filtered : list Article) :
  let days := Acc.uniqueDaySet (engagementPass filtered) in
  NoDup days
  /\ (forall d, In d days <-> exists a, In a filtered /\ dayOf a = Some d).
Proof.
  unfold engagementPass.
  assert (G : forall acc (seen : list Article),
             NoDup (Acc.uniqueDaySet acc) ->
             (forall d, In d (Acc.uniqueDaySet acc) <->
                        exists a, In a seen /\ dayOf a = Some d) ->
             let days :=
               Acc.uniqueDaySet (fold_left engagementStep filtered acc) in
             NoDup days
             /\ (forall d, In d days <->
                   exists a, In a (seen ++ filtered) /\ dayOf a = Some d)).
  { induction filtered as [| a l IH]; intros acc seen Hnd Hin;
      cbn [fold_left].
    - rewrite app_nil_r. auto.
    - replace (seen ++ a :: l) with ((seen ++ [a]) ++ l)
        by (rewrite <- app_assoc; reflexivity).
      apply IH.
      + unfold engagementStep. cbn [Acc.uniqueDaySet].
        destruct (parseArticleDate a) as [t |]; [| exact Hnd].
        unfold JSSet.add, JSSet.has.
        destruct (existsb _ _) eqn:E; [exact Hnd |].
        apply NoDup_app; [exact Hnd | repeat constructor; cbn; tauto |].
        intros x Hx [<- | []].
        apply (existsb_eqb_In Z.eqb Zeqb_spec') in Hx. congruence.
      + intros d. unfold engagementStep. cbn [Acc.uniqueDaySet].
        assert (Hsplit : (exists a0, In a0 (seen ++ [a]) /\ dayOf a0 = Some d)
                         <-> (exists a0, In a0 seen /\ dayOf a0 = Some d)
                             \/ dayOf a = Some d).
        { split.
          - intros [a0 [Ha0 Hd]]. apply in_app_or in Ha0.
            destruct Ha0 as [Ha0 | [<- | []]]; eauto.
          - intros [[a0 [Ha0 Hd]] | Hd].
            + exists a0. split; [apply in_or_app; now left | exact Hd].
            + exists a. split; [apply in_or_app; right; now left | exact Hd]. }
        rewrite Hsplit, <- Hin. unfold dayOf.
        destruct (parseArticleDate a) as [t |]; cbn [option_map].
        * unfold JSSet.add, JSSet.has.
          destruct (existsb _ _) eqn:E.
          -- apply (existsb_eqb_In Z.eqb Zeqb_spec') in E.
             split; [tauto |]. intros [H | [= <-]]; assumption.
          -- rewrite in_app_iff. cbn [In]. split.
             ++ intros [H | [<- | []]]; auto.
             ++ intros [H | [= <-]]; auto.
        * split; [tauto |]. intros [H | [=]]. exact H. }
  apply (G Acc.init []); [constructor |].
  intros d. cbn. split; [tauto | intros [a [[] _]]].
Qed.

Lemma engagement_rest (now : Z) (articles : option (list Article))
    (feeds : option (list Feed)) (timeRange : TimeRange) (e : Engagement.t) :
  engagement now articles feeds timeRange = Some e ->
  let filtered := filteredArticles now articles timeRange in
  let acc := engagementPass filtered in
  let size := JSSet.size (Acc.uniqueDaySet acc) in
  Engagement.bookmarkCount e = Acc.bookmarkCount acc
  /\ Engagement.readRate e =
     (if 0 <? Engagement.total e
      then percentOf (Engagement.readCount e) (Engagement.total e) else 0)
  /\ Engagement.uniqueDays e =
     (if size =? 0 then orZero (timeRangeDays timeRange) else size)
  /\ Engagement.averagePerDay e =
     (if 0 <? Engagement.uniqueDays e
      then Math_round (inject_Z (Engagement.total e)
                       / inject_Z (Engagement.uniqueDays e))%Q
      else Engagement.total e)
  /\ Engagement.topTopics e = rankTopics (Acc.topicCounts acc).
Proof.
  unfold engagement.
  destruct feeds as [fs |]; [| discriminate].
  destruct articles as [l |]; [| discriminate].
  intros [= <-]. cbn. repeat split.
Qed.

(** X1.  The counters of the engagement aggregate are the numbers of
    read, unread and bookmarked filtered articles, and none exceeds the
    total. *)
Theorem engagement_counters
    (now : Z) (articles : option (list Article)) (feeds : option (list Feed))
    (timeRange : TimeRange) (e : Engagement.t) :
  engagement now articles feeds timeRange = Some e ->
  let filtered := filteredArticles now articles timeRange in
  Engagement.readCount e = countIf is_read filtered
  /\ Engagement.unreadCount e = countIf (fun a => negb (is_read a)) filtered
  /\ Engagement.bookmarkCount e = countIf is_bookmarked filtered
  /\ 0 <= Engagement.readCount e <= Engagement.total e
  /\ 0 <= Engagement.unreadCount e <= Engagement.total e
  /\ 0 <= Engagement.bookmarkCount e <= Engagement.total e.
Proof.
  intros He filtered.
  destruct (engagement_Some _ _ _ _ _ He) as [Ht [Hr [Hu _]]].
  destruct (engagement_rest _ _ _ _ _ He) as [Hb _].
  destruct (engagementPass_counters filtered) as [Cr [Cu Cb]].
  fold filtered in Ht, Hr, Hu, Hb.
  rewrite Hr, Hu, Hb, Cr, Cu, Cb, Ht.
  assert (G : forall f : Article -> bool,
             0 <= countIf f filtered <= Z.of_nat (length filtered)).
  { intros f. unfold countIf. pose proof (filter_length_le f filtered). lia. }
  repeat split; try apply G.
Qed.

Lemma engagement_counters_witness :
  exists e,
    engagement Sample.now (Some Sample.threeArticles) (Some Sample.feedList)
      Range7 = Some e
    /\ Engagement.readCount e = 2
    /\ Engagement.bookmarkCount e = 0.
Proof.
  eexists. split; [reflexivity |].
  pose proof (engagement_counters Sample.now (Some Sample.threeArticles)
                (Some Sample.feedList) Range7 _ eq_refl) as H.
  cbv zeta in H. destruct H as [Hr [_ [Hb _]]].
  split; [exact Hr | exact Hb].
Defined.

(** X2.  The read rate of the aggregate and of every feed-performance
    entry is an integer from 0 to 100. *)
Theorem read_rates_in_range
    (now : Z) (articles : option (list Article)) (feeds : option (list Feed))
    (timeRange : TimeRange) (e : Engagement.t) :
  engagement now articles feeds timeRange = Some e ->
  0 <= Engagement.readRate e <= 100
  /\ Forall (fun entry => 0 <= FeedPerformance.readRate entry <= 100)
       (Engagement.feedPerformance e).
Proof.
  intros He.
  destruct (engagement_Some _ _ _ _ _ He) as [Ht [Hr [_ [Hf _]]]].
  destruct (engagement_rest _ _ _ _ _ He) as [_ [Hrate _]].
  set (filtered := filteredArticles now articles timeRange) in *.
  split.
  - rewrite Hrate. destruct (Z.ltb_spec 0 (Engagement.total e)); [| lia].
    apply percentOf_bounds; [| assumption].
    destruct (engagementPass_counters filtered) as [Cr _].
    rewrite Hr, Cr, Ht. unfold countIf.
    pose proof (filter_length_le is_read filtered). lia.
  - rewrite Hf. apply Forall_forall. intros entry Hin.
    apply rankFeeds_In in Hin. destruct Hin as [k [stats [Hin [-> Hpos]]]].
    unfold feedPerformanceOf. cbn [FeedPerformance.readRate].
    apply Z.ltb_lt in Hpos. rewrite Hpos. apply Z.ltb_lt in Hpos.
    apply percentOf_bounds; [| exact Hpos].
    assert (Hget : JSMap.get Z.eqb k
                     (Acc.feedTotals (engagementPass filtered)) = Some stats).
    { apply (In_get Z.eqb Zeqb_spec'); [| exact Hin].
      apply engagementPass_feedTotals_NoDup. }
    pose proof (engagementPass_feed_lookup filtered k) as [Ct [Cr _]].
    rewrite Hget in Ct, Cr. cbn [Counts.orZero] in Ct, Cr.
    rewrite Ct, Cr. unfold countIf. split; [lia |].
    apply Nat2Z.inj_le.
    clear. induction filtered as [| a l IH]; cbn [filter]; [lia |].
    destruct (ofFeed k a); cbn [andb].
    + destruct (is_read a); cbn [length]; lia.
    + exact IH.
Qed.

Lemma read_rates_in_range_witness :
  exists e,
    engagement Sample.now (Some Sample.threeArticles) (Some Sample.feedList)
      Range7 = Some e
    /\ 0 <= Engagement.readRate e <= 100.
Proof.
  eexists. split; [reflexivity |].
  pose proof (read_rates_in_range Sample.now (Some Sample.threeArticles)
                (Some Sample.feedList) Range7 _ eq_refl) as H.
  exact (proj1 H).
Defined.

(** ** The per-source totals *)

Lemma engagementPass_feed_positive (filtered : list Article) :
  Forall (fun kv => 0 < Counts.total (snd kv))
    (Acc.feedTotals (engagementPass filtered)).
Proof.
  unfold engagementPass.
  assert (G : forall acc,
             Forall (fun kv => 0 < Counts.total (snd kv))
               (Acc.feedTotals acc) ->
             Forall (fun kv => 0 < Counts.total (snd kv))
               (Acc.feedTotals (fold_left engagementStep filtered acc))).
  { induction filtered as [| a l IH]; intros acc Hacc; cbn [fold_left];
      [exact Hacc |].
    apply IH. unfold engagementStep. cbn [Acc.feedTotals].
    apply (set_Forall Z.eqb (fun s => 0 < Counts.total s)); [exact Hacc |].
    assert (H0 : 0 <= Counts.total
                        (Counts.orZero
                           (JSMap.get Z.eqb (feed_id a)
                              (Acc.feedTotals acc)))).
    { destruct (JSMap.get Z.eqb (feed_id a) (Acc.feedTotals acc))
        as [s |] eqn:Es; cbn [Counts.orZero].
      - pose proof (get_Forall Z.eqb
                      (fun s => 0 < Counts.total s) Zeqb_spec'
                      _ _ _ Hacc Es) as H. cbv beta in H. lia.
      - cbn. lia. }
    unfold Counts.bump. cbn [Counts.total]. lia. }
  apply (G Acc.init (Forall_nil _)).
Qed.

Lemma engagementPass_feed_keys (filtered : list Article) (feed : Z) :
  In feed (JSMap.keys (Acc.feedTotals (engagementPass filtered)))
  <-> exists a, In a filtered /\ feed_id a = feed.
Proof.
  pose proof (engagementPass_feed_lookup filtered feed) as [Ht _].
  split.
  - intros Hin.
    destruct (JSMap.get Z.eqb feed
                (Acc.feedTotals (engagementPass filtered))) as [stats |] eqn:E.
    + cbn [Counts.orZero] in Ht.
      assert (Hpos : 0 < countIf (ofFeed feed) filtered).
      { rewrite <- Ht.
        apply (get_Forall Z.eqb (fun s => 0 < Counts.total s) Zeqb_spec'
                 _ _ _ (engagementPass_feed_positive filtered) E). }
      unfold countIf in Hpos.
      destruct (filter (ofFeed feed) filtered) as [| a l] eqn:Ef;
        [cbn in Hpos; lia |].
      assert (Ha : In a (filter (ofFeed feed) filtered))
        by (rewrite Ef; now left).
      apply filter_In in Ha. destruct Ha as [Ha Hf].
      exists a. split; [exact Ha |]. apply Z.eqb_eq, Hf.
    + apply (get_None_keys Z.eqb Zeqb_spec') in E. contradiction.
  - intros [a [Ha Hf]].
    destruct (in_dec Z.eq_dec feed
                (JSMap.keys (Acc.feedTotals (engagementPass filtered))))
      as [Hin | Hnin]; [exact Hin |].
    apply (get_None_keys Z.eqb Zeqb_spec') in Hnin.
    rewrite Hnin in Ht. cbn [Counts.orZero Counts.zero Counts.total] in Ht.
    assert (0 < countIf (ofFeed feed) filtered).
    { apply countIf_pos with a; [exact Ha |]. apply Z.eqb_eq, Hf. }
    lia.
Qed.

(** X3.  Every feed-performance entry counts the filtered articles of its
    feed: its total is their number, and its read and unread counts are
    the numbers of those read and not read. *)
Theorem feed_performance_counts
    (now : Z) (articles : option (list Article)) (feeds : option (list Feed))
    (timeRange : TimeRange) (e : Engagement.t) :
  engagement now articles feeds timeRange = Some e ->
  let filtered := filteredArticles now articles timeRange in
  Forall (fun entry =>
            let feed := FeedPerformance.feedId entry in
            FeedPerformance.total entry = countIf (ofFeed feed) filtered
            /\ FeedPerformance.read entry =
               countIf (fun a => ofFeed feed a && is_read a) filtered
            /\ FeedPerformance.unread entry =
               countIf (fun a => ofFeed feed a && negb (is_read a)) filtered)
    (Engagement.feedPerformance e).
Proof.
  intros He filtered.
  destruct (engagement_Some _ _ _ _ _ He) as [_ [_ [_ [Hf _]]]].
  fold filtered in Hf. rewrite Hf. apply Forall_forall. intros entry Hin.
  apply rankFeeds_In in Hin. destruct Hin as [k [stats [Hin [-> _]]]].
  unfold feedPerformanceOf.
  cbn [FeedPerformance.feedId FeedPerformance.total FeedPerformance.read
       FeedPerformance.unread].
  assert (Hget : JSMap.get Z.eqb k
                   (Acc.feedTotals (engagementPass filtered)) = Some stats).
  { apply (In_get Z.eqb Zeqb_spec'); [| exact Hin].
    apply engagementPass_feedTotals_NoDup. }
  pose proof (engagementPass_feed_lookup filtered k) as H.
  cbv zeta in H. rewrite Hget in H. exact H.
Qed.

Lemma feed_performance_counts_witness :
  exists e,
    engagement Sample.now (Some Sample.threeArticles) (Some Sample.feedList)
      Range7 = Some e
    /\ map FeedPerformance.total (Engagement.feedPerformance e) = [2; 1]
    /\ Forall (fun entry =>
                 FeedPerformance.total entry =
                 countIf (ofFeed (FeedPerformance.feedId entry))
                   (filteredArticles Sample.now (Some Sample.threeArticles)
                      Range7))
         (Engagement.feedPerformance e).
Proof.
  eexists. split; [reflexivity |]. split; [reflexivity |].
  pose proof (feed_performance_counts Sample.now (Some Sample.threeArticles)
                (Some Sample.feedList) Range7 _ eq_refl) as H.
  cbv zeta in H. eapply Forall_impl; [| exact H].
  intros entry [Ht _]. exact Ht.
Defined.

Lemma positive_totals_kept (feedsById : JSMap.t Z Feed)
    (totals : JSMap.t Z Counts.t) :
  Forall (fun kv => 0 < Counts.total (snd kv)) totals ->
  filter (fun item => 0 <? FeedPerformance.total item)
    (map (feedPerformanceOf feedsById) (JSMap.entries totals))
  = map (feedPerformanceOf feedsById) (JSMap.entries totals).
Proof.
  unfold JSMap.entries.
  induction 1 as [| [k stats] l Hkv Hl IH]; cbn [map filter];
    [reflexivity |].
  cbn [feedPerformanceOf FeedPerformance.total snd] in *.
  apply Z.ltb_lt in Hkv. rewrite Hkv. f_equal. exact IH.
Qed.

(** X4.  The ranking keeps one entry for each feed that has a filtered
    article, up to ten: no feed appears twice, every listed feed has a
    filtered article, and a feed with a filtered article is listed
    whenever at most ten feeds have one. *)
Theorem feed_performance_feeds
    (now : Z) (articles : option (list Article)) (feeds : option (list Feed))
    (timeRange : TimeRange) (e : Engagement.t) :
  engagement now articles feeds timeRange = Some e ->
  let filtered := filteredArticles now articles timeRange in
  let listed := map FeedPerformance.feedId (Engagement.feedPerformance e) in
  let perSourceTotals := Acc.feedTotals (engagementPass filtered) in
  NoDup listed
  /\ (forall feed, In feed listed ->
        exists a, In a filtered /\ feed_id a = feed)
  /\ length listed = Nat.min 10 (length perSourceTotals)
  /\ ((length perSourceTotals <= 10)%nat ->
      forall a, In a filtered -> In (feed_id a) listed).
Proof.
  intros He filtered listed totals.
  destruct (engagement_Some _ _ _ _ _ He) as [_ [_ [_ [Hf _]]]].
  fold filtered in Hf. fold totals in Hf.
  set (cmp := fun a b => FeedPerformance.total b - FeedPerformance.total a).
  set (mapped := map (feedPerformanceOf (feedsById feeds))
                   (JSMap.entries totals)).
  assert (Hkeep : filter (fun item => 0 <? FeedPerformance.total item) mapped
                  = mapped).
  { apply positive_totals_kept, engagementPass_feed_positive. }
  assert (Hranked : Engagement.feedPerformance e
                    = firstn 10 (Array_sort cmp mapped)).
  { rewrite Hf. unfold rankFeeds, slice0. fold mapped. fold cmp.
    now rewrite Hkeep. }
  assert (Hids : Permutation
                   (map FeedPerformance.feedId (Array_sort cmp mapped))
                   (JSMap.keys totals)).
  { eapply perm_trans; [apply Permutation_map, Array_sort_perm |].
    unfold mapped, JSMap.entries, JSMap.keys. rewrite map_map.
    apply Permutation_refl' , map_ext. intros [k stats]. reflexivity. }
  assert (Hlisted : listed
                    = firstn 10
                        (map FeedPerformance.feedId (Array_sort cmp mapped))).
  { unfold listed. rewrite Hranked. symmetry. apply firstn_map. }
  split; [| split; [| split]].
  - rewrite Hlisted. apply NoDup_firstn.
    eapply Permutation_NoDup; [apply Permutation_sym, Hids |].
    apply engagementPass_feedTotals_NoDup.
  - intros feed Hin. rewrite Hlisted in Hin. apply firstn_In in Hin.
    apply (Permutation_in _ Hids) in Hin.
    apply engagementPass_feed_keys, Hin.
  - rewrite Hlisted, length_firstn, (Permutation_length Hids).
    unfold JSMap.keys. now rewrite length_map.
  - intros Hle a Ha. rewrite Hlisted, firstn_all2.
    + apply (Permutation_in _ (Permutation_sym Hids)).
      apply engagementPass_feed_keys. eauto.
    + rewrite (Permutation_length Hids). unfold JSMap.keys.
      now rewrite length_map.
Qed.

Lemma feed_performance_feeds_witness :
  exists e,
    engagement Sample.now (Some Sample.threeArticles) (Some Sample.feedList)
      Range7 = Some e
    /\ NoDup (map FeedPerformance.feedId (Engagement.feedPerformance e)).
Proof.
  eexists. split; [reflexivity |].
  pose proof (feed_performance_feeds Sample.now (Some Sample.threeArticles)
                (Some Sample.feedList) Range7 _ eq_refl) as H.
  cbv zeta in H. exact (proj1 H).
Defined.

(** ** The topic ranking *)

(** Sorting the tally by descending count ranks the topics by frequency,
    ties in first-seen order. *)
Lemma countTopics_sorted (ts : list string) :
  let sorted :=
    Array_sort (fun a b : string * Z => snd b - snd a) (countTopics ts) in
  NoDup (map fst sorted)
  /\ (forall t, In t (map fst sorted) <-> In t ts)
  /\ StronglySorted (ranksBefore ts) (map fst sorted)
  /\ Forall (fun item => snd item = frequency ts (fst item)) sorted.
Proof.
  intros sorted.
  destruct (countTopics_keys ts) as [Hnd [Hkeys Hseen]].
  assert (Hperm : Permutation sorted (countTopics ts))
    by apply Array_sort_perm.
  assert (Hfreq : forall kv, In kv sorted -> snd kv = frequency ts (fst kv)).
  { intros [t c] Hin. apply (Permutation_in _ Hperm) in Hin.
    apply countTopics_entry, Hin. }
  split; [| split; [| split]].
  - eapply Permutation_NoDup; [| exact Hnd].
    apply Permutation_sym, Permutation_map, Hperm.
  - intros t. rewrite <- Hkeys. unfold JSMap.keys.
    split; apply Permutation_in;
      [| apply Permutation_sym]; apply Permutation_map, Hperm.
  - apply StronglySorted_map.
    eapply StronglySorted_impl_In;
      [| apply (Array_sort_stable snd
                  (fun a b => firstSeenBefore ts (fst a) (fst b)))].
    + intros x y Hx Hy. unfold ranksBefore, descendingThen.
      rewrite <- (Hfreq x Hx), <- (Hfreq y Hy). tauto.
    + apply StronglySorted_map_inv, Hseen.
  - apply Forall_forall, Hfreq.
Qed.

(** X5.  The top topics are the first fifteen of the ranking of the
    topics of the filtered articles by frequency, ties in the order in
    which the topics are first seen, each with its frequency. *)
Theorem top_topics_ranking
    (now : Z) (articles : option (list Article)) (feeds : option (list Feed))
    (timeRange : TimeRange) (e : Engagement.t) :
  engagement now articles feeds timeRange = Some e ->
  let ts := flat_map topicsOf (filteredArticles now articles timeRange) in
  exists ranking,
    NoDup ranking
    /\ (forall t, In t ranking <-> In t ts)
    /\ StronglySorted (ranksBefore ts) ranking
    /\ map fst (Engagement.topTopics e) = firstn 15 ranking
    /\ Forall (fun item => snd item = frequency ts (fst item))
         (Engagement.topTopics e).
Proof.
  intros He ts.
  destruct (engagement_rest _ _ _ _ _ He) as [_ [_ [_ [_ Htop]]]].
  rewrite engagementPass_topicCounts in Htop. fold ts in Htop.
  destruct (countTopics_sorted ts) as [H1 [H2 [H3 H4]]].
  set (sorted := Array_sort (fun a b : string * Z => snd b - snd a)
                   (countTopics ts)) in *.
  exists (map fst sorted).
  split; [exact H1 |]. split; [exact H2 |]. split; [exact H3 |].
  assert (E : Engagement.topTopics e = firstn 15 sorted)
    by (rewrite Htop; reflexivity).
  rewrite E. split; [symmetry; apply firstn_map |].
  apply Forall_forall. intros item Hin. apply firstn_In in Hin.
  rewrite Forall_forall in H4. apply H4, Hin.
Qed.

Lemma top_topics_ranking_witness :
  exists e,
    engagement Sample.now (Some Sample.threeArticles) (Some Sample.feedList)
      Range7 = Some e
    /\ Engagement.topTopics e = [("AI", 2); ("Tech", 1); ("Climate", 1)]%string
    /\ exists ranking,
         map fst (Engagement.topTopics e) = firstn 15 ranking.
Proof.
  eexists. split; [reflexivity |]. split; [reflexivity |].
  destruct (top_topics_ranking Sample.now (Some Sample.threeArticles)
              (Some Sample.feedList) Range7 _ eq_refl)
    as [ranking [_ [_ [_ [H _]]]]].
  exists ranking. exact H.
Defined.

(** ** Days and averages *)

(** X6.  The unique days are the number of distinct calendar days on
    which a filtered article with a parseable date falls; when there is
    none, the length of the window stands in, 0 for the unbounded
    window. *)
Theorem unique_days_count
    (now : Z) (articles : option (list Article)) (feeds : option (list Feed))
    (timeRange : TimeRange) (e : Engagement.t) :
  engagement now articles feeds timeRange = Some e ->
  let filtered := filteredArticles now articles timeRange in
  exists days,
    NoDup days
    /\ (forall d, In d days <-> exists a, In a filtered /\ dayOf a = Some d)
    /\ Engagement.uniqueDays e =
       match days with
       | [] => orZero (timeRangeDays timeRange)
       | _ => Z.of_nat (length days)
       end.
Proof.
  intros He filtered.
  destruct (engagement_rest _ _ _ _ _ He) as [_ [_ [Hu _]]].
  fold filtered in Hu.
  destruct (engagementPass_uniqueDays filtered) as [Hnd Hin].
  exists (Acc.uniqueDaySet (engagementPass filtered)).
  split; [exact Hnd |]. split; [exact Hin |].
  rewrite Hu. unfold JSSet.size.
  destruct (Acc.uniqueDaySet (engagementPass filtered)) as [| d ds];
    [reflexivity |].
  cbn [length]. destruct (Z.eqb_spec (Z.of_nat (S (length ds))) 0); [lia |].
  reflexivity.
Qed.

Lemma unique_days_count_witness :
  exists e,
    engagement Sample.now (Some Sample.threeArticles) (Some Sample.feedList)
      Range7 = Some e
    /\ Engagement.uniqueDays e = 2.
Proof.
  eexists. split; [reflexivity |].
  destruct (unique_days_count Sample.now (Some Sample.threeArticles)
              (Some Sample.feedList) Range7 _ eq_refl)
    as [[| d days] [_ [Hin Hu]]].
  - exfalso. apply (proj2 (Hin 20000)).
    exists (Sample.article 1 1 Sample.now true (Some (6 # 10))
              (Some ["AI"; "Tech"]%string)).
    split; [left; reflexivity | reflexivity].
  - reflexivity.
Defined.

(** X7.  The average per day never divides by zero: with a finite window
    the unique days are positive; they are 0 exactly when the window is
    unbounded and no filtered article has a parseable date, and the
    average is then the total itself. *)
Theorem average_per_day_guard
    (now : Z) (articles : option (list Article)) (feeds : option (list Feed))
    (timeRange : TimeRange) (e : Engagement.t) :
  engagement now articles feeds timeRange = Some e ->
  let filtered := filteredArticles now articles timeRange in
  0 <= Engagement.uniqueDays e
  /\ (Engagement.uniqueDays e = 0 <->
      timeRange = RangeAll /\ countIf hasDate filtered = 0)
  /\ (Engagement.uniqueDays e = 0 ->
      Engagement.averagePerDay e = Engagement.total e)
  /\ (0 < Engagement.uniqueDays e ->
      Engagement.averagePerDay e =
      Math_round (inject_Z (Engagement.total e)
                  / inject_Z (Engagement.uniqueDays e))%Q).
Proof.
  intros He filtered.
  destruct (engagement_rest _ _ _ _ _ He) as [_ [_ [Hu [Havg _]]]].
  fold filtered in Hu.
  destruct (engagementPass_uniqueDays filtered) as [_ Hin].
  remember (Acc.uniqueDaySet (engagementPass filtered)) as days eqn:Edays.
  clear Edays.
  assert (Hdays : days = [] <-> countIf hasDate filtered = 0).
  { split.
    - intros Hnil. apply countIf_zero. intros a Ha.
      unfold hasDate. destruct (parseArticleDate a) as [t |] eqn:Et;
        [| reflexivity].
      assert (Hd : In (format_yyyy_MM_dd t) days).
      { apply Hin. exists a. split; [exact Ha |].
        unfold dayOf. now rewrite Et. }
      rewrite Hnil in Hd. destruct Hd.
    - intros Hzero. destruct days as [| d ds]; [reflexivity |].
      destruct (proj1 (Hin d) (or_introl eq_refl)) as [a [Ha Hday]].
      assert (0 < countIf hasDate filtered).
      { apply countIf_pos with a; [exact Ha |].
        unfold hasDate. unfold dayOf in Hday.
        now destruct (parseArticleDate a). }
      lia. }
  assert (Hsize : JSSet.size days = 0 <-> days = []).
  { unfold JSSet.size. destruct days; cbn [length]; split;
      intros; try reflexivity; try discriminate; lia. }
  assert (Hnonneg : 0 <= JSSet.size days) by (unfold JSSet.size; lia).
  split; [| split; [| split]].
  - rewrite Hu. destruct (Z.eqb_spec (JSSet.size days) 0); [| lia].
    destruct timeRange; cbn; lia.
  - rewrite Hu. destruct (Z.eqb_spec (JSSet.size days) 0) as [E | E].
    + apply Hsize, Hdays in E. split.
      * intros H0. split; [| exact E].
        destruct timeRange; cbn in H0; try discriminate. reflexivity.
      * intros [-> _]. reflexivity.
    + split; [contradiction |]. intros [_ H0].
      apply Hdays, Hsize in H0. contradiction.
  - intros H0. rewrite Havg, H0. reflexivity.
  - intros Hpos. rewrite Havg. apply Z.ltb_lt in Hpos. now rewrite Hpos.
Qed.

Lemma average_per_day_guard_witness :
  exists e,
    engagement Sample.now (Some [Sample.article 1 1 0 true None None])
      (Some Sample.feedList) Range7 = Some e
    /\ 0 <= Engagement.uniqueDays e.
Proof.
  eexists. split; [reflexivity |].
  pose proof (average_per_day_guard Sample.now
                (Some [Sample.article 1 1 0 true None None])
                (Some Sample.feedList) Range7 _ eq_refl) as H.
  cbv zeta in H. exact (proj1 H).
Defined.

(** ** The sentiment buckets, continued *)

Lemma Buckets_sum_values (b : Buckets.t) :
  Buckets.sum b =
  Buckets.value Positive b + Buckets.value SlightlyPositive b
  + Buckets.value Neutral b + Buckets.value SlightlyNegative b
  + Buckets.value Negative b.
Proof. unfold Buckets.sum, Buckets.value. cbn [fold_left]. lia. Qed.

Lemma scoredAs_partition (filtered : list Article) :
  countIf (scoredAs Positive) filtered
  + countIf (scoredAs SlightlyPositive) filtered
  + countIf (scoredAs Neutral) filtered
  + countIf (scoredAs SlightlyNegative) filtered
  + countIf (scoredAs Negative) filtered
  = countIf hasScore filtered.
Proof.
  induction filtered as [| a l IH]; [reflexivity |].
  rewrite !countIf_cons, <- IH. unfold scoredAs, hasScore.
  destruct (sentiment_score a) as [score |]; [| lia].
  destruct (classify score); cbn [Sentiment_eqb]; lia.
Qed.

Lemma fallback_counters_facts
    (now : Z) (articles : option (list Article)) (feeds : option (list Feed))
    (timeRange : TimeRange) (e : Engagement.t) :
  engagement now articles feeds timeRange = Some e ->
  let fallback := Engagement.fallbackSentiments e in
  (forall bucket, 0 <= Buckets.value bucket fallback)
  /\ Buckets.sum fallback =
     countIf hasScore (filteredArticles now articles timeRange)
  /\ Buckets.sum fallback <= Engagement.total e.
Proof.
  intros He fallback.
  destruct (engagement_Some _ _ _ _ _ He) as [Ht [_ [_ [_ Hfb]]]].
  set (filtered := filteredArticles now articles timeRange) in *.
  assert (Hv : forall bucket,
             Buckets.value bucket fallback = countIf (scoredAs bucket) filtered).
  { intros bucket. unfold fallback. rewrite Hfb. unfold engagementPass.
    rewrite engagementPass_buckets. destruct bucket; cbn; lia. }
  assert (Hsum : Buckets.sum fallback = countIf hasScore filtered).
  { rewrite Buckets_sum_values, !Hv. apply scoredAs_partition. }
  split; [intros bucket; rewrite Hv; apply countIf_nonneg |].
  split; [exact Hsum |].
  rewrite Hsum, Ht. unfold countIf.
  pose proof (filter_length_le hasScore filtered). lia.
Qed.

(** X8.  The fallback counters are not negative and add up to the number
    of filtered articles that carry a score, which is at most the total:
    an article without a score is in the total and in no bucket. *)
Theorem fallback_counters_sum
    (now : Z) (articles : option (list Article)) (feeds : option (list Feed))
    (timeRange : TimeRange) (e : Engagement.t) :
  engagement now articles feeds timeRange = Some e ->
  let fallback := Engagement.fallbackSentiments e in
  (forall bucket, 0 <= Buckets.value bucket fallback)
  /\ Buckets.sum fallback =
     countIf hasScore (filteredArticles now articles timeRange)
  /\ Buckets.sum fallback <= Engagement.total e.
Proof. exact (fallback_counters_facts now articles feeds timeRange e). Qed.

Lemma fallback_counters_sum_witness :
  exists e,
    engagement Sample.now (Some Sample.threeArticles) (Some Sample.feedList)
      Range7 = Some e
    /\ Buckets.sum (Engagement.fallbackSentiments e) <= Engagement.total e.
Proof.
  eexists. split; [reflexivity |].
  pose proof (fallback_counters_sum Sample.now (Some Sample.threeArticles)
                (Some Sample.feedList) Range7 _ eq_refl) as H.
  cbv zeta in H. exact (proj2 (proj2 H)).
Defined.

(** X9.  Without an aggregate of the server, the five buckets are shown
    in the order positive, slightly positive, neutral, slightly negative,
    negative, and every percent is an integer from 0 to 100. *)
Theorem fallback_percents_in_range
    (now : Z) (articles : option (list Article)) (feeds : option (list Feed))
    (timeRange : TimeRange) (e : Engagement.t) :
  engagement now articles feeds timeRange = Some e ->
  let buckets := sentimentBuckets now articles feeds None timeRange in
  map SentimentBucket.id buckets =
    ["positive"; "slightlyPositive"; "neutral"; "slightlyNegative";
     "negative"]%string
  /\ Forall (fun bucket => 0 <= SentimentBucket.percent bucket <= 100)
       buckets.
Proof.
  intros He buckets.
  destruct (fallback_counters_facts _ _ _ _ _ He) as [Hv [_ _]].
  unfold buckets, sentimentBuckets. rewrite He.
  split; [reflexivity |].
  set (fallback := Engagement.fallbackSentiments e) in *.
  assert (Hpct : forall bucket,
             let v := Buckets.value bucket fallback in
             let S := Buckets.sum fallback in
             0 <= (if 0 <? S then percentOf v S else 0) <= 100).
  { intros bucket v S. destruct (Z.ltb_spec 0 S); [| lia].
    apply percentOf_bounds; [| assumption].
    split; [apply Hv |]. unfold v, S. rewrite Buckets_sum_values.
    pose proof (Hv Positive). pose proof (Hv SlightlyPositive).
    pose proof (Hv Neutral). pose proof (Hv SlightlyNegative).
    pose proof (Hv Negative). destruct bucket; lia. }
  unfold resolveSentiment, bucketRows, withPercent. cbn [map].
  apply Forall_cons; [apply (Hpct Positive) |].
  apply Forall_cons; [apply (Hpct SlightlyPositive) |].
  apply Forall_cons; [apply (Hpct Neutral) |].
  apply Forall_cons; [apply (Hpct SlightlyNegative) |].
  apply Forall_cons; [apply (Hpct Negative) |].
  apply Forall_nil.
Qed.

Lemma fallback_percents_in_range_witness :
  engagement Sample.now (Some Sample.threeArticles) (Some Sample.feedList)
    Range7 <> None
  /\ Forall (fun bucket => 0 <= SentimentBucket.percent bucket <= 100)
       (sentimentBuckets Sample.now (Some Sample.threeArticles)
          (Some Sample.feedList) None Range7).
Proof.
  split; [discriminate |].
  pose proof (fallback_percents_in_range Sample.now
                (Some Sample.threeArticles) (Some Sample.feedList) Range7 _
                eq_refl) as H.
  cbv zeta in H. exact (proj2 H).
Defined.

(** X10.  With an aggregate of the server whose total is positive, the
    buckets carry its five counts, whatever the articles, the feeds and
    the time range are, each with the percent
    [Math.round((count / total) * 100)] as doubles compute it.  When the
    counts lie between 0 and a total below 2^32, every percent is an
    integer from 0 to 100: the exact rounding of count / total * 100, or
    one less when that value lies halfway between two integers.  For the
    counts 23, 0, 17, 0, 0 of the total 40 the percents are 57, 0, 43, 0,
    0, where the exact roundings are 58, 0, 43, 0, 0. *)
Theorem aggregate_buckets_verbatim
    (now : Z) (articles : option (list Article)) (feeds : option (list Feed))
    (timeRange : TimeRange) (sa : SentimentAnalytics.t) :
  0 < SentimentAnalytics.total sa ->
  let total := SentimentAnalytics.total sa in
  let buckets := sentimentBuckets now articles feeds (Some sa) timeRange in
  map SentimentBucket.value buckets =
    [SentimentAnalytics.positive sa; SentimentAnalytics.slightly_positive sa;
     SentimentAnalytics.neutral sa; SentimentAnalytics.slightly_negative sa;
     SentimentAnalytics.negative sa]
  /\ Forall (fun bucket =>
               SentimentBucket.percent bucket =
               percentOf (SentimentBucket.value bucket) total) buckets
  /\ buckets = resolveSentiment (Some sa) None
  /\ (total < 2 ^ 32 ->
      Forall (fun bucket => 0 <= SentimentBucket.value bucket <= total)
        buckets ->
      Forall (fun bucket =>
                0 <= SentimentBucket.percent bucket <= 100
                /\ (SentimentBucket.percent bucket =
                    exactPercent (SentimentBucket.value bucket) total
                    \/ ((200 * SentimentBucket.value bucket + total)
                         mod (2 * total) = 0
                        /\ SentimentBucket.percent bucket =
                           exactPercent (SentimentBucket.value bucket) total
                           - 1))) buckets)
  /\ map SentimentBucket.percent
       (resolveSentiment (Some (SentimentAnalytics.mk 23 0 17 0 0 40)) None)
     = [57; 0; 43; 0; 0]
  /\ map (fun count => exactPercent count 40) [23; 0; 17; 0; 0]
     = [58; 0; 43; 0; 0].
Proof.
  intros Hpos total buckets.
  assert (Hrows :
            map SentimentBucket.value buckets =
              [SentimentAnalytics.positive sa;
               SentimentAnalytics.slightly_positive sa;
               SentimentAnalytics.neutral sa;
               SentimentAnalytics.slightly_negative sa;
               SentimentAnalytics.negative sa]
            /\ Forall (fun bucket =>
                         SentimentBucket.percent bucket =
                         percentOf (SentimentBucket.value bucket) total)
                 buckets
            /\ buckets = resolveSentiment (Some sa) None).
  { assert (Hb : (0 <? SentimentAnalytics.total sa) = true)
      by (apply Z.ltb_lt; exact Hpos).
    unfold buckets, total, sentimentBuckets, resolveSentiment. rewrite Hb.
    unfold bucketRows, withPercent. cbn [map]. rewrite Hb.
    split; [reflexivity |]. split; [repeat constructor | reflexivity]. }
  destruct Hrows as [Hvalues [Hpct Hsame]].
  split; [exact Hvalues |]. split; [exact Hpct |]. split; [exact Hsame |].
  split; [| split; vm_compute; reflexivity].
  intros Hlt Hrange. rewrite Forall_forall in *. intros bucket Hin.
  rewrite (Hpct bucket Hin). specialize (Hrange bucket Hin). split.
  - apply percentOf_bounds; [exact Hrange | exact Hpos].
  - apply percentOf_exact; [exact Hrange |]. split; [exact Hpos | exact Hlt].
Qed.

Lemma aggregate_buckets_verbatim_witness :
  map SentimentBucket.value
    (sentimentBuckets Sample.now None None
       (Some (SentimentAnalytics.mk 3 1 4 1 1 10)) RangeAll)
  = [3; 1; 4; 1; 1]
  /\ Forall (fun bucket => 0 <= SentimentBucket.percent bucket <= 100)
       (sentimentBuckets Sample.now None None
          (Some (SentimentAnalytics.mk 3 1 4 1 1 10)) RangeAll).
Proof.
  pose proof (aggregate_buckets_verbatim Sample.now None None RangeAll
                (SentimentAnalytics.mk 3 1 4 1 1 10) eq_refl) as H.
  cbv zeta in H. destruct H as [H1 [_ [_ [H4 _]]]].
  split; [exact H1 |].
  eapply Forall_impl; [| apply H4].
  - intros bucket Hb. exact (proj1 Hb).
  - reflexivity.
  - apply Forall_forall. intros bucket Hin. vm_compute in Hin.
    decompose [or] Hin; try contradiction; subst bucket; vm_compute;
      split; discriminate.
Defined.

(** ** The filter, continued *)

Lemma filter_absorb {A : Type} (f g : A -> bool) (l : list A) :
  (forall x, In x l -> f x = true -> g x = true) ->
  filter f (filter g l) = filter f l.
Proof.
  induction l as [| x l IH]; intros H; cbn [filter]; [reflexivity |].
  destruct (g x) eqn:Eg; cbn [filter].
  - destruct (f x); rewrite IH; auto; intros y Hy; apply H; now right.
  - destruct (f x) eqn:Ef.
    + rewrite (H x (or_introl eq_refl) Ef) in Eg. discriminate.
    + apply IH. intros y Hy. apply H. now right.
Qed.

(** X11.  The windows nest: filtering by a range the articles already
    filtered by a range that is not shorter gives the articles of the
    first range, in their order; in particular a range applied twice
    changes nothing, and the articles of a range are among the articles
    of every longer one. *)
Theorem windows_nest (now : Z) (l : list Article) (inner outer : TimeRange) :
  withinRange inner outer = true ->
  filteredArticles now
    (Some (filteredArticles now (Some l) outer)) inner
  = filteredArticles now (Some l) inner.
Proof.
  intros Hw. unfold filteredArticles. apply filter_absorb.
  intros a _. unfold cutoffDate, withinRange in *.
  destruct (timeRangeDays outer) as [b |]; [| reflexivity].
  destruct (timeRangeDays inner) as [n |]; [| discriminate].
  apply Z.leb_le in Hw.
  destruct (parseArticleDate a) as [t |]; [| discriminate].
  rewrite !Z.leb_le. unfold subDays. pose proof MS_PER_DAY_pos. nia.
Qed.

Lemma windows_nest_witness :
  withinRange Range7 Range30 = true
  /\ filteredArticles Sample.now
       (Some (filteredArticles Sample.now (Some Sample.threeArticles)
                Range30)) Range7
     = filteredArticles Sample.now (Some Sample.threeArticles) Range7.
Proof.
  split; [reflexivity |].
  apply (windows_nest Sample.now Sample.threeArticles Range7 Range30).
  reflexivity.
Defined.



(** ** The daily activity series, continued *)

Lemma daily_points_lookup
    (now : Z) (articles : option (list Article)) (timeRange : TimeRange) :
  let filtered := filteredArticles now articles timeRange in
  Forall (fun p =>
            let day := DailyActivityPoint.dateKey p in
            DailyActivityPoint.total p = countIf (onDay day) filtered
            /\ DailyActivityPoint.read p =
               countIf (fun a => onDay day a && is_read a) filtered
            /\ DailyActivityPoint.unread p =
               countIf (fun a => onDay day a && negb (is_read a)) filtered
            /\ DailyActivityPoint.read p + DailyActivityPoint.unread p
               = DailyActivityPoint.total p)
    (dailyActivity now articles timeRange).
Proof.
  intros filtered. unfold dailyActivity.
  destruct articles as [l |]; [| constructor].
  fold filtered. unfold buildDailyActivity.
  assert (G : forall k,
             let e := Counts.orZero (JSMap.get Z.eqb k (countsOf filtered)) in
             Counts.total e = countIf (onDay k) filtered
             /\ Counts.read e =
                countIf (fun a => onDay k a && is_read a) filtered
             /\ Counts.unread e =
                countIf (fun a => onDay k a && negb (is_read a)) filtered
             /\ Counts.read e + Counts.unread e = Counts.total e).
  { intros k e. destruct (countsOf_lookup filtered k) as [Ht [Hr Hu]].
    fold e in Ht, Hr, Hu. rewrite Ht, Hr, Hu. repeat split.
    clear. induction filtered as [| a rest IH]; [reflexivity |].
    rewrite !countIf_cons.
    destruct (onDay k a), (is_read a); cbn [andb negb]; lia. }
  apply Forall_forall. intros p Hp.
  destruct (timeRangeDays timeRange) as [n |].
  - apply in_map_iff in Hp. destruct Hp as [offset [<- _]].
    unfold pointAtOffset.
    cbn [DailyActivityPoint.dateKey DailyActivityPoint.total
         DailyActivityPoint.read DailyActivityPoint.unread].
    apply G.
  - apply in_map_iff in Hp. destruct Hp as [k [<- _]].
    unfold pointAtKey.
    cbn [DailyActivityPoint.dateKey DailyActivityPoint.total
         DailyActivityPoint.read DailyActivityPoint.unread].
    apply G.
Qed.

(** X13.  Every point of the daily series, finite window or not, counts
    the filtered articles of its calendar day: its total is their number,
    its read and unread counts are the numbers of those read and not
    read, and read and unread add up to the total. *)
Theorem daily_points_counts
    (now : Z) (articles : option (list Article)) (timeRange : TimeRange) :
  let filtered := filteredArticles now articles timeRange in
  Forall (fun p =>
            let day := DailyActivityPoint.dateKey p in
            DailyActivityPoint.total p = countIf (onDay day) filtered
            /\ DailyActivityPoint.read p =
               countIf (fun a => onDay day a && is_read a) filtered
            /\ DailyActivityPoint.unread p =
               countIf (fun a => onDay day a && negb (is_read a)) filtered
            /\ DailyActivityPoint.read p + DailyActivityPoint.unread p
               = DailyActivityPoint.total p)
    (dailyActivity now articles timeRange).
Proof. exact (daily_points_lookup now articles timeRange). Qed.

(** X14.  For the unbounded window the series has exactly one point for
    each calendar day on which a filtered article with a parseable date
    falls, in strictly ascending order of the days, and every point
    counts at least one article: no day is filled with zeros. *)
Theorem daily_activity_unbounded (now : Z) (l : list Article) :
  let points := dailyActivity now (Some l) RangeAll in
  let days := map DailyActivityPoint.dateKey points in
  StronglySorted Z.lt days
  /\ (forall d, In d days <-> exists a, In a l /\ dayOf a = Some d)
  /\ Forall (fun p => 1 <= DailyActivityPoint.total p) points.
Proof.
  intros points days.
  assert (Hfiltered : filteredArticles now (Some l) RangeAll = l)
    by apply unbounded_window_keeps_all.
  assert (Hdays : forall d, In d days <-> 0 < countIf (onDay d) l).
  { intros d. unfold days, points, dailyActivity, buildDailyActivity.
    cbn [timeRangeDays]. rewrite Hfiltered, map_map.
    cbn [pointAtKey DailyActivityPoint.dateKey]. rewrite map_id.
    rewrite Array_sort_In. apply countsOf_keys_onDay. }
  split; [apply daily_activity_unbounded_ascending |]. split.
  - intros d. rewrite Hdays. split.
    + intros Hpos. unfold countIf in Hpos.
      destruct (filter (onDay d) l) as [| a rest] eqn:E;
        [cbn in Hpos; lia |].
      assert (Ha : In a (filter (onDay d) l)) by (rewrite E; now left).
      apply filter_In in Ha. destruct Ha as [Ha Hd].
      exists a. split; [exact Ha |]. unfold onDay in Hd.
      destruct (dayOf a) as [d' |]; [| discriminate].
      apply Z.eqb_eq in Hd. now subst.
    + intros [a [Ha Hd]]. apply countIf_pos with a; [exact Ha |].
      unfold onDay. rewrite Hd. apply Z.eqb_refl.
  - apply Forall_forall. intros p Hp.
    pose proof (daily_points_lookup now (Some l) RangeAll) as Hc.
    cbv zeta in Hc. rewrite Forall_forall in Hc.
    destruct (Hc p Hp) as [Ht _]. rewrite Ht, Hfiltered.
    assert (In (DailyActivityPoint.dateKey p) days)
      by (unfold days; apply in_map, Hp).
    apply Hdays in H. lia.
Qed.

(** ** The read streak, continued *)

Lemma countIf_run (run : list DailyActivityPoint.t) :
  isRun run -> countIf hasRead run = Z.of_nat (length run).
Proof.
  intros [Hreads _]. induction Hreads as [| p run Hp _ IH]; [reflexivity |].
  rewrite countIf_cons, IH. unfold hasRead. apply Z.ltb_lt in Hp.
  rewrite Hp. cbn [length]. lia.
Qed.

(** X15.  The streak is never negative and never more than the number of
    days with a read article, so never more than the number of points; it
    is 0 exactly when no day has a read article; and for a finite window
    of [n] days it is at most [n]. *)
Theorem streak_bounds :
  (forall series,
     0 <= streakOf series <= countIf hasRead series
     /\ countIf hasRead series <= Z.of_nat (length series)
     /\ (streakOf series = 0 <-> countIf hasRead series = 0))
  /\ (forall now l timeRange n,
        timeRangeDays timeRange = Some n ->
        0 <= longestReadStreak now (Some l) timeRange <= n).
Proof.
  assert (G : forall series,
             0 <= streakOf series <= countIf hasRead series
             /\ countIf hasRead series <= Z.of_nat (length series)
             /\ (streakOf series = 0 <-> countIf hasRead series = 0)).
  { intros series.
    pose proof (streakInv_fold series [] _ streakInv_init) as Hinv.
    cbn [app] in Hinv. rewrite streakOf_fold.
    destruct (fold_left streakStep series (0, 0, None)) as [[best cur] prev].
    destruct Hinv as [_ [_ [_ [[l1 [run [l2 [E [Hrun Hlen]]]]] He]]]].
    cbn [fst].
    assert (Hle : best <= countIf hasRead series).
    { rewrite E, !countIf_app, (countIf_run run Hrun), <- Hlen.
      pose proof (countIf_nonneg hasRead l1).
      pose proof (countIf_nonneg hasRead l2). lia. }
    assert (Hlen' : countIf hasRead series <= Z.of_nat (length series)).
    { unfold countIf. pose proof (filter_length_le hasRead series). lia. }
    split; [lia |]. split; [exact Hlen' |]. split.
    - intros Hzero.
      destruct (Z.eq_dec (countIf hasRead series) 0) as [H0 | Hne];
        [exact H0 |].
      exfalso. unfold countIf in Hne.
      destruct (filter hasRead series) as [| p rest] eqn:Ef;
        [cbn in Hne; lia |].
      assert (Hp : In p (filter hasRead series)) by (rewrite Ef; now left).
      apply filter_In in Hp. destruct Hp as [Hp Hread].
      apply in_split in Hp. destruct Hp as [a [b Hsplit]].
      assert (Hone : Z.of_nat (length [p]) <= best).
      { apply (He a [p] b); [exact Hsplit |].
        split; [| exact I]. repeat constructor.
        apply Z.ltb_lt, Hread. }
      cbn [length] in Hone. lia.
    - intros H0. pose proof (countIf_nonneg hasRead series). lia. }
  split; [exact G |].
  intros now l timeRange n Hn.
  unfold longestReadStreak.
  destruct (G (dailyActivity now (Some l) timeRange)) as [H1 [H2 _]].
  assert (Hlen : length (dailyActivity now (Some l) timeRange) = Z.to_nat n).
  { unfold dailyActivity, buildDailyActivity. rewrite Hn, length_map.
    generalize (Z.to_nat n). intros m. induction m; cbn; congruence. }
  rewrite Hlen in H2. pose proof (timeRangeDays_pos _ _ Hn). lia.
Qed.

Lemma streak_bounds_witness :
  timeRangeDays Range7 = Some 7
  /\ 0 <= longestReadStreak Sample.now (Some Sample.threeArticles) Range7
       <= 7.
Proof.
  split; [reflexivity |].
  apply (proj2 streak_bounds Sample.now Sample.threeArticles Range7 7
           eq_refl).
Defined.

(** ** The sentiment trend *)

Lemma keepSome_In {A B : Type} (f : A -> option B) (l : list A) (y : B) :
  In y (keepSome f l) <-> exists x, In x l /\ f x = Some y.
Proof.
  induction l as [| x l IH]; cbn [keepSome In].
  - split; [tauto | intros [x [[] _]]].
  - destruct (f x) as [y' |] eqn:E; cbn [In]; rewrite IH; split.
    + intros [<- | [x' [Hx' Hf]]]; eauto.
    + intros [x' [[<- | Hx'] Hf]]; [left; congruence | right; eauto].
    + intros [x' [Hx' Hf]]. eauto.
    + intros [x' [[<- | Hx'] Hf]]; [congruence | eauto].
Qed.

Lemma keepSome_length {A B : Type} (f : A -> option B) (l : list A) :
  Z.of_nat (length (keepSome f l))
  = countIf (fun x => match f x with Some _ => true | None => false end) l.
Proof.
  induction l as [| x l IH]; [reflexivity |].
  rewrite countIf_cons, <- IH. cbn [keepSome].
  destruct (f x); cbn [length]; lia.
Qed.

(** X16.  The sentiment trend has one point for each entry of the
    server's day map whose key parses to a date not before the cutoff,
    with the counts of that entry, in ascending order of the dates;
    entries with a key that does not parse are dropped, and without a
    day map the trend is empty. *)
Theorem sentiment_trend_points
    (now : Z) (timeRange : TimeRange) (entries : list (DateString * Trend.t)) :
  let cutoff := cutoffDate now timeRange in
  let points := sentimentTrendData now timeRange (Some entries) in
  StronglySorted
    (fun a b => TrendPoint.fullDate a <= TrendPoint.fullDate b) points
  /\ (forall p,
        In p points <->
        exists counts,
          In (DateValid (TrendPoint.fullDate p), counts) entries
          /\ match cutoff with
             | Some c => c <= TrendPoint.fullDate p
             | None => True
             end
          /\ p = TrendPoint.mk (TrendPoint.fullDate p)
                  (MMM_d (format_yyyy_MM_dd (TrendPoint.fullDate p)))
                  (Trend.positive counts) (Trend.neutral counts)
                  (Trend.negative counts))
  /\ Z.of_nat (length points) = countIf (trendKept cutoff) entries
  /\ sentimentTrendData now timeRange None = [].
Proof.
  intros cutoff points.
  unfold points, sentimentTrendData, sentimentTrendDataOf. fold cutoff.
  set (cmp := fun a b => TrendPoint.fullDate a - TrendPoint.fullDate b).
  split; [| split; [| split; [| reflexivity]]].
  - eapply StronglySorted_impl; [| apply (Array_sort_sorted cmp)].
    + unfold before, cmp. intros x y. lia.
    + unfold cmp. intros x y. lia.
    + unfold cmp. intros x y z. lia.
  - intros p. rewrite Array_sort_In, keepSome_In. split.
    + intros [[key counts] [Hin Hf]]. unfold trendPointOf in Hf.
      destruct key as [| | date]; try discriminate.
      exists counts.
      destruct cutoff as [c |].
      * destruct (Z.ltb_spec date c); [discriminate |].
        injection Hf as <-. cbn [TrendPoint.fullDate]. auto.
      * injection Hf as <-. cbn [TrendPoint.fullDate]. auto.
    + intros [counts [Hin [Hc Hp]]].
      exists (DateValid (TrendPoint.fullDate p), counts).
      split; [exact Hin |]. unfold trendPointOf.
      destruct cutoff as [c |].
      * destruct (Z.ltb_spec (TrendPoint.fullDate p) c); [lia |].
        now rewrite <- Hp.
      * now rewrite <- Hp.
  - rewrite Array_sort_length, keepSome_length.
    apply countIf_ext. intros [key counts] _.
    unfold trendPointOf, trendKept. cbn [fst].
    destruct key as [| | date]; try reflexivity.
    destruct cutoff as [c |]; [| reflexivity].
    destruct (Z.ltb_spec date c), (Z.leb_spec c date); try reflexivity; lia.
Qed.

(** ** Trending topics *)

(** X17.  A non-empty list of the server is shown as it is, topic, count
    and growth, in its order, whatever the articles are.  Without one, or
    with an empty one, the trending topics are the first eight top topics
    with their counts and no growth. *)
Theorem trending_topics_source
    (now : Z) (articles : option (list Article)) (feeds : option (list Feed))
    (timeRange : TimeRange) :
  (forall item rest,
     let shown :=
       trendingTopics now articles feeds timeRange (Some (item :: rest)) in
     map TrendingTopic.topic shown = map TopicTrend.topic (item :: rest)
     /\ map TrendingTopic.count shown = map TopicTrend.count (item :: rest)
     /\ map TrendingTopic.growth shown =
        map (fun i => Some (TopicTrend.growth i)) (item :: rest))
  /\ (forall trending e,
        trending = None \/ trending = Some [] ->
        engagement now articles feeds timeRange = Some e ->
        let shown := trendingTopics now articles feeds timeRange trending in
        map TrendingTopic.topic shown
          = firstn 8 (map fst (Engagement.topTopics e))
        /\ map TrendingTopic.count shown
           = firstn 8 (map snd (Engagement.topTopics e))
        /\ Forall (fun t => TrendingTopic.growth t = None) shown
        /\ (length shown <= 8)%nat).
Proof.
  split.
  - intros item rest shown. unfold shown, trendingTopics, trendingTopicsOf.
    rewrite !map_map. cbn [TrendingTopic.topic TrendingTopic.count
                            TrendingTopic.growth]. auto.
  - intros trending e Htr He shown.
    assert (E : shown =
                map (fun item : string * Z =>
                       TrendingTopic.mk (fst item) (snd item) None)
                  (firstn 8 (Engagement.topTopics e))).
    { unfold shown, trendingTopics, trendingTopicsOf. rewrite He.
      destruct Htr as [-> | ->]; reflexivity. }
    rewrite E, !map_map.
    cbn [TrendingTopic.topic TrendingTopic.count TrendingTopic.growth].
    split; [symmetry; apply firstn_map |].
    split; [symmetry; apply firstn_map |].
    split.
    + apply Forall_forall. intros t Ht. apply in_map_iff in Ht.
      destruct Ht as [item [<- _]]. reflexivity.
    + rewrite length_map. apply firstn_le_length.
Qed.

Lemma trending_topics_source_witness :
  exists e,
    engagement Sample.now (Some Sample.threeArticles) (Some Sample.feedList)
      Range7 = Some e
    /\ map TrendingTopic.topic
         (trendingTopics Sample.now (Some Sample.threeArticles)
            (Some Sample.feedList) Range7 None)
       = firstn 8 (map fst (Engagement.topTopics e)).
Proof.
  eexists. split; [reflexivity |].
  pose proof (proj2 (trending_topics_source Sample.now
                       (Some Sample.threeArticles) (Some Sample.feedList)
                       Range7)
                None _ (or_introl eq_refl) eq_refl) as H.
  cbv zeta in H. exact (proj1 H).
Defined.

(** ** Clusters *)

(** X18.  For a selected cluster other than 0 the cluster articles are
    the articles of the snapshot that carry that cluster id, in their
    order; for cluster 0, as for no selection, none is listed, whatever
    the articles carry. *)
Theorem cluster_articles_selection :
  (forall (selected : Z) (l : list Article),
     selected <> 0 ->
     clusterArticles (Some selected) (Some l)
     = filter (fun a => match cluster_id a with
                        | Some c => c =? selected
                        | None => false
                        end) l
     /\ forall a, In a (clusterArticles (Some selected) (Some l)) <->
                  In a l /\ cluster_id a = Some selected)
  /\ (forall l, clusterArticles (Some 0) (Some l) = [])
  /\ (forall l, clusterArticles None (Some l) = []).
Proof.
  split; [| split; reflexivity].
  intros selected l Hne.
  assert (E : clusterArticles (Some selected) (Some l)
              = filter (fun a => match cluster_id a with
                                 | Some c => c =? selected
                                 | None => false
                                 end) l).
  { unfold clusterArticles.
    destruct (Z.eqb_spec selected 0); [contradiction | reflexivity]. }
  split; [exact E |].
  intros a. rewrite E, filter_In.
  destruct (cluster_id a) as [c |].
  - rewrite Z.eqb_eq. split; intros [H1 H2]; split; congruence.
  - split; intros [_ H]; discriminate.
Qed.

Lemma cluster_articles_selection_witness :
  3 <> 0
  /\ clusterArticles (Some 3)
       (Some [mkArticle 1 1 None DateEmpty (Some 3) None None true false;
              mkArticle 2 1 None DateEmpty (Some 0) None None true false;
              mkArticle 3 1 None DateEmpty None None None true false])
     = [mkArticle 1 1 None DateEmpty (Some 3) None None true false].
Proof.
  split; [discriminate |].
  destruct (proj1 cluster_articles_selection 3
              [mkArticle 1 1 None DateEmpty (Some 3) None None true false;
               mkArticle 2 1 None DateEmpty (Some 0) None None true false;
               mkArticle 3 1 None DateEmpty None None None true false])
    as [E _]; [discriminate |].
  rewrite E. reflexivity.
Defined.

Lemma fold_left_add (f : Cluster.t -> Z) (l : list Cluster.t) (z : Z) :
  fold_left (fun sum cluster => sum + f cluster) l z = z + sumZ (map f l).
Proof.
  revert z. induction l as [| c l IH]; intros z; cbn [fold_left map sumZ
    fold_right]; [lia |].
  rewrite IH. unfold sumZ. lia.
Qed.

Lemma sumZ_perm (l1 l2 : list Z) :
  Permutation l1 l2 -> sumZ l1 = sumZ l2.
Proof.
  induction 1; cbn [sumZ fold_right] in *; try lia.
  unfold sumZ in *. lia.
Qed.

(** X19.  The clusters are listed by size: the same clusters, in
    non-increasing order of their article count, clusters of equal count
    in the order of the server; and the number of clustered articles is
    the sum of the counts, in whichever order. *)
Theorem clusters_by_size (clusters : list Cluster.t) :
  let listed := clustersBySize clusters in
  Permutation listed clusters
  /\ StronglySorted
       (fun a b => Cluster.article_count b <= Cluster.article_count a) listed
  /\ (forall T : Cluster.t -> Cluster.t -> Prop,
        StronglySorted T clusters ->
        StronglySorted (descendingThen Cluster.article_count T) listed)
  /\ clusteredArticleCount clusters
     = sumZ (map Cluster.article_count clusters)
  /\ clusteredArticleCount listed = clusteredArticleCount clusters.
Proof.
  intros listed. unfold listed, clustersBySize.
  set (cmp := fun a b => Cluster.article_count b - Cluster.article_count a).
  assert (Hperm : Permutation (Array_sort cmp clusters) clusters)
    by apply Array_sort_perm.
  split; [exact Hperm |]. split; [| split; [| split]].
  - eapply StronglySorted_impl; [| apply (Array_sort_sorted cmp)].
    + unfold before, cmp. intros x y. lia.
    + unfold cmp. intros x y. lia.
    + unfold cmp. intros x y z. lia.
  - intros T HT. apply (Array_sort_stable Cluster.article_count T), HT.
  - unfold clusteredArticleCount. rewrite fold_left_add. lia.
  - unfold clusteredArticleCount. rewrite !fold_left_add.
    f_equal. apply sumZ_perm, Permutation_map, Hperm.
Qed.

Lemma clusters_by_size_witness :
  let clusters :=
    [Cluster.mk 0 2 [1; 2]; Cluster.mk 1 5 [3; 4; 5; 6; 7];
     Cluster.mk 2 2 [8; 9]] in
  StronglySorted (fun a b => Cluster.cluster_id a < Cluster.cluster_id b)
    clusters
  /\ StronglySorted
       (descendingThen Cluster.article_count
          (fun a b => Cluster.cluster_id a < Cluster.cluster_id b))
       (clustersBySize clusters).
Proof.
  cbv zeta.
  assert (H : StronglySorted
                (fun a b => Cluster.cluster_id a < Cluster.cluster_id b)
                [Cluster.mk 0 2 [1; 2]; Cluster.mk 1 5 [3; 4; 5; 6; 7];
                 Cluster.mk 2 2 [8; 9]])
    by (repeat constructor).
  split; [exact H |].
  apply (proj1 (proj2 (proj2 (clusters_by_size _))) _ H).
Defined.

(** ** The cluster topics of the two pages *)

Lemma existsb_mem_ext (ids ids' : list Z) (k : Z) :
  (forall i, In i ids <-> In i ids') ->
  existsb (Z.eqb k) ids = existsb (Z.eqb k) ids'.
Proof.
  intros H.
  destruct (existsb (Z.eqb k) ids) eqn:E1, (existsb (Z.eqb k) ids') eqn:E2;
    try reflexivity.
  - apply (existsb_eqb_In Z.eqb Zeqb_spec'), H in E1.
    apply (existsb_eqb_In Z.eqb Zeqb_spec') in E1. congruence.
  - apply (existsb_eqb_In Z.eqb Zeqb_spec'), H in E2.
    apply (existsb_eqb_In Z.eqb Zeqb_spec') in E2. congruence.
Qed.

(** X20.  On the clusters page the topics of a cluster depend on the
    member ids as a set only: repeating an id or reordering the ids
    changes nothing. *)
Theorem clusters_page_ids_as_set
    (ids ids' : list Z) (allArticles : option (list Article)) :
  (forall i, In i ids <-> In i ids') ->
  Clusters.getClusterTopics ids allArticles
  = Clusters.getClusterTopics ids' allArticles.
Proof.
  intros H. unfold Clusters.getClusterTopics, Clusters.collectTopics.
  destruct allArticles as [l |]; [| reflexivity].
  replace (filter (fun a => existsb (Z.eqb (id a)) ids) l)
    with (filter (fun a => existsb (Z.eqb (id a)) ids') l); [reflexivity |].
  apply filter_ext. intros a. symmetry. apply existsb_mem_ext, H.
Qed.

Lemma clusters_page_ids_as_set_witness :
  Clusters.getClusterTopics [1; 2; 2] (Some Sample.clusterArticles)
  = Clusters.getClusterTopics [2; 1] (Some Sample.clusterArticles).
Proof.
  apply (clusters_page_ids_as_set [1; 2; 2] [2; 1]).
  intros i. cbn [In]. tauto.
Defined.

Lemma clusters_collect_flat_map (l : list Article) (ids : list Z) :
  Clusters.collectTopics l ids
  = flat_map topicsOf (filter (fun a => existsb (Z.eqb (id a)) ids) l).
Proof.
  unfold Clusters.collectTopics.
  generalize (filter (fun a => existsb (Z.eqb (id a)) ids) l). intros kept.
  assert (G : forall acc,
             fold_left Clusters.pushArticleTopics kept acc
             = acc ++ flat_map topicsOf kept).
  { induction kept as [| a kept IH]; intros acc; cbn [fold_left flat_map].
    - now rewrite app_nil_r.
    - rewrite IH, app_assoc. f_equal.
      unfold Clusters.pushArticleTopics, topicsOf.
      destruct (topics a); [reflexivity | now rewrite app_nil_r]. }
  apply (G []).
Qed.

Lemma memberTopics_cons (a : Article) (l : list Article) (i : Z) :
  memberTopics (a :: l) i =
  if id a =? i then topicsOf a else memberTopics l i.
Proof.
  unfold memberTopics, topicsOf. cbn [find].
  destruct (id a =? i); reflexivity.
Qed.

Lemma memberTopics_absent (l : list Article) (i : Z) :
  ~ In i (map id l) -> memberTopics l i = [].
Proof.
  intros Hnin. unfold memberTopics.
  destruct (find (fun item => id item =? i) l) as [a |] eqn:E;
    [| reflexivity].
  apply find_some in E. destruct E as [Ha Hi]. apply Z.eqb_eq in Hi.
  exfalso. apply Hnin. rewrite <- Hi. apply in_map, Ha.
Qed.

Lemma flat_map_member_without (a : Article) (l : list Article)
    (ids : list Z) :
  ~ In (id a) ids ->
  flat_map (memberTopics (a :: l)) ids = flat_map (memberTopics l) ids.
Proof.
  intros Hnin. induction ids as [| i ids IH]; [reflexivity |].
  cbn [flat_map]. rewrite IH by (intros H; apply Hnin; now right).
  rewrite memberTopics_cons.
  destruct (Z.eqb_spec (id a) i) as [E | _]; [| reflexivity].
  exfalso. apply Hnin. now left.
Qed.

Lemma collect_perm (l : list Article) (ids : list Z) :
  NoDup ids -> NoDup (map id l) ->
  Permutation (flat_map (memberTopics l) ids)
    (flat_map topicsOf (filter (fun a => existsb (Z.eqb (id a)) ids) l)).
Proof.
  intros Hids. induction l as [| a l IH]; intros Hl.
  - cbn [filter flat_map].
    assert (E : flat_map (memberTopics []) ids = []).
    { clear. induction ids as [| i ids IH]; [reflexivity |].
      cbn [flat_map]. rewrite IH. reflexivity. }
    rewrite E. constructor.
  - cbn [map] in Hl. inversion Hl as [| ? ? Ha Hl']; subst.
    specialize (IH Hl'). cbn [filter].
    destruct (existsb (Z.eqb (id a)) ids) eqn:E.
    + apply (existsb_eqb_In Z.eqb Zeqb_spec') in E.
      apply in_split in E. destruct E as [ids1 [ids2 ->]].
      apply NoDup_remove in Hids. destruct Hids as [Hnd Hnin].
      assert (H1 : ~ In (id a) ids1)
        by (intros H; apply Hnin, in_or_app; now left).
      assert (H2 : ~ In (id a) ids2)
        by (intros H; apply Hnin, in_or_app; now right).
      rewrite flat_map_app in *. cbn [flat_map] in *.
      rewrite !flat_map_member_without by assumption.
      rewrite memberTopics_cons, Z.eqb_refl.
      rewrite (memberTopics_absent l (id a) Ha) in IH. cbn [app] in IH.
      eapply perm_trans; [apply Permutation_app_swap_app |].
      apply Permutation_app_head. exact IH.
    + rewrite flat_map_member_without; [exact IH |].
      intros H. apply (existsb_eqb_In Z.eqb Zeqb_spec') in H. congruence.
Qed.

Lemma countIf_perm {A : Type} (f : A -> bool) (l1 l2 : list A) :
  Permutation l1 l2 -> countIf f l1 = countIf f l2.
Proof.
  induction 1; rewrite ?countIf_cons; lia.
Qed.

(** X21.  When the member ids are distinct and the articles have distinct
    ids, the analytics page and the clusters page accumulate the same
    topics up to order, so both count the same frequency for every
    topic. *)
Theorem cluster_topics_pages_agree (l : list Article) (ids : list Z) :
  NoDup ids -> NoDup (map id l) ->
  Permutation (collectTopics l ids) (Clusters.collectTopics l ids)
  /\ forall topic,
       frequency (collectTopics l ids) topic
       = frequency (Clusters.collectTopics l ids) topic.
Proof.
  intros Hids Hl.
  assert (Hperm : Permutation (collectTopics l ids)
                    (Clusters.collectTopics l ids)).
  { rewrite collectTopics_flat_map, clusters_collect_flat_map.
    apply collect_perm; assumption. }
  split; [exact Hperm |].
  intros topic. unfold frequency. apply countIf_perm, Hperm.
Qed.

Lemma cluster_topics_pages_agree_witness :
  Permutation (collectTopics Sample.clusterArticles [2; 1])
    (Clusters.collectTopics Sample.clusterArticles [2; 1]).
Proof.
  apply (cluster_topics_pages_agree Sample.clusterArticles [2; 1]).
  - repeat constructor; cbn; intuition discriminate.
  - repeat constructor; cbn; intuition discriminate.
Defined.

(** ** The label of the article card *)

(** X22.  The label the article card shows for a score is the label of
    the sentiment bucket into which the engagement pass counts an article
    of that score; for an article without a score the card shows none. *)
Theorem card_label_matches_bucket (score : Q) (e : Engagement.t) :
  (exists bucket,
     In bucket (resolveSentiment None (Some e))
     /\ ArticleCard.getSentimentInfo (Some score)
        = Some (SentimentBucket.label bucket)
     /\ SentimentBucket.value bucket
        = Buckets.value (classify score) (Engagement.fallbackSentiments e))
  /\ ArticleCard.getSentimentInfo None = None.
Proof.
  split; [| reflexivity].
  unfold ArticleCard.getSentimentInfo, classify, resolveSentiment,
    bucketRows, withPercent. cbn [map].
  destruct (Qle_bool (1 # 2) score).
  { eexists. split; [left; reflexivity |]. split; reflexivity. }
  destruct (Qle_bool (1 # 20) score).
  { eexists. split; [right; left; reflexivity |]. split; reflexivity. }
  destruct (Qle_bool score (- 1 # 2)).
  { eexists. split; [do 4 right; left; reflexivity |]. split; reflexivity. }
  destruct (Qle_bool score (- 1 # 20)).
  { eexists. split; [do 3 right; left; reflexivity |]. split; reflexivity. }
  eexists. split; [do 2 right; left; reflexivity |]. split; reflexivity.
Qed.

(** ** The tick labels of the feed chart *)

Lemma string_length_append (s1 s2 : string) :
  String.length (s1 ++ s2)%string
  = (String.length s1 + String.length s2)%nat.
Proof.
  induction s1 as [| c s1 IH]; cbn [String.append String.length];
    [reflexivity | now rewrite IH].
Qed.

Lemma substring_length (n : nat) (s : string) :
  String.length (String.substring 0 n s) = Nat.min n (String.length s).
Proof.
  revert n. induction s as [| c s IH]; intros [| n];
    cbn [String.substring String.length Nat.min]; try reflexivity.
  now rewrite IH.
Qed.

Lemma substring_prefix_append (s1 s2 : string) :
  String.substring 0 (String.length s1) (s1 ++ s2)%string = s1.
Proof.
  induction s1 as [| c s1 IH];
    cbn [String.append String.length String.substring].
  - now destruct s2.
  - now rewrite IH.
Qed.

Lemma substring_suffix_append (s1 s2 : string) :
  String.substring (String.length s1) (String.length s2) (s1 ++ s2)%string
  = s2.
Proof.
  induction s1 as [| c s1 IH];
    cbn [String.append String.length String.substring].
  - induction s2 as [| c s2 IH]; cbn [String.length String.substring];
      [reflexivity | now rewrite IH].
  - exact IH.
Qed.

Lemma substring_idem (n : nat) (s : string) :
  String.substring 0 n (String.substring 0 n s) = String.substring 0 n s.
Proof.
  revert n. induction s as [| c s IH]; intros [| n];
    cbn [String.substring]; try reflexivity.
  now rewrite IH.
Qed.

(** X23.  A tick label is never longer than 19 characters: a name of at
    most 16 characters is shown as it is, and a longer one is cut to its
    first 16 characters followed by three dots. *)
Theorem tick_formatter_cut (value : string) :
  (String.length (tickFormatter value) <= 19)%nat
  /\ ((String.length value <= 16)%nat -> tickFormatter value = value)
  /\ ((16 < String.length value)%nat ->
      String.length (tickFormatter value) = 19%nat
      /\ String.substring 0 16 (tickFormatter value)
         = String.substring 0 16 value
      /\ String.substring 16 3 (tickFormatter value) = "..."%string).
Proof.
  unfold tickFormatter.
  destruct (Nat.ltb_spec 16 (String.length value)) as [Hlong | Hshort].
  - assert (Hlen : String.length (String.substring 0 16 value) = 16%nat)
      by (rewrite substring_length; lia).
    split; [| split].
    + rewrite string_length_append, Hlen. cbn. lia.
    + lia.
    + intros _. split; [| split].
      * rewrite string_length_append, Hlen. reflexivity.
      * rewrite <- Hlen at 1. rewrite substring_prefix_append.
        reflexivity.
      * rewrite <- Hlen at 1.
        apply (substring_suffix_append (String.substring 0 16 value) "...").
  - split; [lia |]. split; [reflexivity | lia].
Qed.

Lemma tick_formatter_cut_witness :
  (String.length "Hacker News" <= 16)%nat
  /\ tickFormatter "Hacker News" = "Hacker News"%string.
Proof.
  assert (H : (String.length "Hacker News" <= 16)%nat) by (cbn; lia).
  split; [exact H |].
  apply (proj1 (proj2 (tick_formatter_cut "Hacker News")) H).
Defined.

(** ** The feeds by id *)

Lemma find_app {A : Type} (f : A -> bool) (l1 l2 : list A) :
  find f (l1 ++ l2) =
  match find f l1 with Some x => Some x | None => find f l2 end.
Proof.
  induction l1 as [| x l1 IH]; cbn [app find]; [reflexivity |].
  destruct (f x); [reflexivity | exact IH].
Qed.

Lemma feedsById_fold (fs : list Feed) (m : JSMap.t Z Feed) (k : Z) :
  JSMap.get Z.eqb k
    (fold_left (fun m feed => JSMap.set Z.eqb (feed_ident feed) feed m) fs m)
  = match find (fun f => feed_ident f =? k) (rev fs) with
    | Some f => Some f
    | None => JSMap.get Z.eqb k m
    end.
Proof.
  revert m. induction fs as [| f fs IH]; intros m; cbn [fold_left rev find];
    [reflexivity |].
  rewrite IH, find_app.
  destruct (find (fun f0 => feed_ident f0 =? k) (rev fs)); [reflexivity |].
  cbn [find]. destruct (Z.eqb_spec (feed_ident f) k) as [<- | Hne].
  - apply (get_set_eq Z.eqb Zeqb_spec').
  - apply (get_set_ne Z.eqb Zeqb_spec'). congruence.
Qed.

(** X24.  Looking a feed up by id finds the last feed of the list with
    that id, and none when no feed has it; when the ids are distinct,
    every feed of the list is found under its id. *)
Theorem feeds_by_id_lookup (fs : list Feed) :
  (forall k,
     JSMap.get Z.eqb k (feedsById (Some fs))
     = find (fun f => feed_ident f =? k) (rev fs))
  /\ (forall k,
        ~ In k (map feed_ident fs) ->
        JSMap.get Z.eqb k (feedsById (Some fs)) = None)
  /\ (NoDup (map feed_ident fs) ->
      forall f, In f fs ->
                JSMap.get Z.eqb (feed_ident f) (feedsById (Some fs)) = Some f).
Proof.
  assert (Hget : forall k,
             JSMap.get Z.eqb k (feedsById (Some fs))
             = find (fun f => feed_ident f =? k) (rev fs)).
  { intros k. unfold feedsById. rewrite feedsById_fold.
    now destruct (find _ (rev fs)). }
  split; [exact Hget |]. split.
  - intros k Hnin. rewrite Hget.
    destruct (find (fun f => feed_ident f =? k) (rev fs)) as [f |] eqn:E;
      [| reflexivity].
    apply find_some in E. destruct E as [Hin Hk].
    apply in_rev in Hin. apply Z.eqb_eq in Hk.
    exfalso. apply Hnin. rewrite <- Hk. apply in_map, Hin.
  - intros Hnd f Hin. rewrite Hget.
    destruct (find (fun f0 => feed_ident f0 =? feed_ident f) (rev fs))
      as [g |] eqn:E.
    + apply find_some in E. destruct E as [Hg Hk].
      apply in_rev in Hg. apply Z.eqb_eq in Hk. f_equal.
      clear Hget. induction fs as [| h fs IH]; [destruct Hin |].
      cbn [map] in Hnd. inversion Hnd as [| ? ? Hh Hnd']; subst.
      destruct Hin as [-> | Hin], Hg as [-> | Hg]; auto.
      * exfalso. apply Hh. rewrite <- Hk. apply in_map, Hg.
      * exfalso. apply Hh. rewrite Hk. apply in_map, Hin.
    + apply find_none with (x := f) in E; [| apply -> in_rev; exact Hin].
      rewrite Z.eqb_refl in E. discriminate.
Qed.

Lemma feeds_by_id_lookup_witness :
  NoDup (map feed_ident Sample.feedList)
  /\ JSMap.get Z.eqb 2 (feedsById (Some Sample.feedList))
     = Some (mkFeed 2 None false).
Proof.
  assert (H : NoDup (map feed_ident Sample.feedList))
    by (repeat constructor; cbn; intuition discriminate).
  split; [exact H |].
  apply (proj2 (proj2 (feeds_by_id_lookup Sample.feedList)) H
           (mkFeed 2 None false)).
  right. left. reflexivity.
Defined.

(** ** Before the data is there *)

(** X25.  The engagement aggregate is absent exactly when the articles
    or the feeds are; the feed chart is then empty, no sentiment bucket
    is shown unless the server sent an aggregate with a positive total,
    and no trending topic is shown unless the server sent some. *)
Theorem engagement_absent
    (now : Z) (articles : option (list Article)) (feeds : option (list Feed))
    (timeRange : TimeRange) :
  (engagement now articles feeds timeRange = None
   <-> articles = None \/ feeds = None)
  /\ (engagement now articles feeds timeRange = None ->
      topFeedsForChart now articles feeds timeRange = []
      /\ sentimentBuckets now articles feeds None timeRange = []
      /\ (forall sa, SentimentAnalytics.total sa <= 0 ->
            sentimentBuckets now articles feeds (Some sa) timeRange = [])
      /\ trendingTopics now articles feeds timeRange None = []
      /\ trendingTopics now articles feeds timeRange (Some []) = []).
Proof.
  split.
  - unfold engagement. destruct feeds, articles; split;
      try discriminate; try tauto; intros [H | H]; discriminate.
  - intros He.
    unfold topFeedsForChart, sentimentBuckets, trendingTopics,
      trendingTopicsOf, resolveSentiment.
    rewrite He. repeat split.
    intros sa Hle.
    assert (E : (0 <? SentimentAnalytics.total sa) = false)
      by (apply Z.ltb_ge; exact Hle).
    now rewrite E.
Qed.

Lemma engagement_absent_witness :
  engagement Sample.now (Some Sample.threeArticles) None Range7 = None
  /\ topFeedsForChart Sample.now (Some Sample.threeArticles) None Range7 = [].
Proof.
  split; [reflexivity |].
  apply (proj2 (engagement_absent Sample.now (Some Sample.threeArticles)
                  None Range7) eq_refl).
Defined.

(** ** The finite window and the empty aggregate, as computed *)

(** X26.  With a finite window of [n] days an article passes the filter
    exactly when its effective date parses and is not before the last
    millisecond of the day [today - (n - 1)]: articles of later days
    pass, articles of earlier days and articles dated on that day before
    its last millisecond do not. *)
Theorem finite_window_as_computed
    (now : Z) (l : list Article) (timeRange : TimeRange) (n : Z)
    (a : Article) :
  timeRangeDays timeRange = Some n ->
  let firstDay := format_yyyy_MM_dd now - (n - 1) in
  let filtered := filteredArticles now (Some l) timeRange in
  (In a filtered <->
   In a l /\ exists t, parseArticleDate a = Some t
                       /\ dateOfKey firstDay + (MS_PER_DAY - 1) <= t)
  /\ (In a l -> forall d, dayOf a = Some d -> firstDay < d -> In a filtered)
  /\ (forall d, dayOf a = Some d -> d < firstDay -> ~ In a filtered)
  /\ (forall t, parseArticleDate a = Some t ->
                format_yyyy_MM_dd t = firstDay ->
                t < dateOfKey firstDay + (MS_PER_DAY - 1) ->
                ~ In a filtered).
Proof.
  intros Hn firstDay filtered.
  assert (Hiff : In a filtered <->
                 In a l /\ exists t, parseArticleDate a = Some t
                                     /\ dateOfKey firstDay + (MS_PER_DAY - 1)
                                        <= t).
  { unfold filtered. rewrite filteredArticles_In.
    rewrite (finite_window_cutoff _ _ _ Hn). reflexivity. }
  split; [exact Hiff |]. split; [| split].
  - intros Ha d Hd Hlt.
    apply (finite_window_keeps_later_days now l timeRange n a d);
      assumption.
  - intros d Hd Hlt Hin. apply Hiff in Hin.
    destruct Hin as [_ [t [Ht Hle]]].
    unfold dayOf in Hd. rewrite Ht in Hd. injection Hd as <-.
    assert (Hday : firstDay <= format_yyyy_MM_dd t).
    { rewrite <- (format_dateOfKey firstDay). apply format_mono.
      pose proof MS_PER_DAY_pos. lia. }
    lia.
  - intros t Ht Hday Hlt Hin. apply Hiff in Hin.
    destruct Hin as [_ [t' [Ht' Hle]]]. rewrite Ht in Ht'.
    injection Ht' as <-. lia.
Qed.

Lemma finite_window_as_computed_witness :
  timeRangeDays Range7 = Some 7
  /\ ~ In Sample.sixDaysAgo
        (filteredArticles Sample.now (Some [Sample.sixDaysAgo]) Range7).
Proof.
  split; [reflexivity |].
  pose proof (finite_window_as_computed Sample.now [Sample.sixDaysAgo]
                Range7 7 Sample.sixDaysAgo eq_refl) as H.
  cbv zeta in H. destruct H as [_ [_ [_ H]]].
  apply (H (Sample.now - 6 * MS_PER_DAY - 3 * 3600000)); reflexivity.
Defined.

(** X27.  When the server sends an aggregate whose total is not positive,
    the buckets carry the fallback counters of the engagement pass and
    every percent is 0, whatever the counters are. *)
Theorem empty_aggregate_percents
    (now : Z) (articles : option (list Article)) (feeds : option (list Feed))
    (timeRange : TimeRange) (sa : SentimentAnalytics.t) (e : Engagement.t) :
  SentimentAnalytics.total sa <= 0 ->
  engagement now articles feeds timeRange = Some e ->
  let fallback := Engagement.fallbackSentiments e in
  let buckets := sentimentBuckets now articles feeds (Some sa) timeRange in
  map SentimentBucket.value buckets =
    [Buckets.positive fallback; Buckets.slightlyPositive fallback;
     Buckets.neutral fallback; Buckets.slightlyNegative fallback;
     Buckets.negative fallback]
  /\ map SentimentBucket.percent buckets = [0; 0; 0; 0; 0].
Proof.
  intros Hle He fallback buckets.
  unfold buckets, sentimentBuckets. rewrite He.
  apply (sentiment_with_empty_aggregate sa e Hle).
Qed.

Lemma empty_aggregate_percents_witness :
  map SentimentBucket.percent
    (sentimentBuckets Sample.now (Some Sample.threeArticles)
       (Some Sample.feedList) (Some Sample.emptyAggregate) Range7)
  = [0; 0; 0; 0; 0].
Proof.
  pose proof (empty_aggregate_percents Sample.now
                (Some Sample.threeArticles) (Some Sample.feedList) Range7
                Sample.emptyAggregate _ (Z.le_refl 0) eq_refl) as H.
  cbv zeta in H. exact (proj2 H).
Defined.

(** ** The cluster topics of the analytics page, continued *)

(** X28.  When no accumulated topic is an inherited key or an
    integer-like string, the cluster topics are the first three of the
    ranking of the accumulated topics by frequency, ties in the order in
    which the topics are first seen. *)
Theorem cluster_topics_top_three (ids : list Z) (l : list Article) :
  let ts := collectTopics l ids in
  Forall (fun t => JSObject.inherited t = false) ts ->
  Forall (fun t => JSObject.arrayIndex t = None) ts ->
  exists ranking,
    NoDup ranking
    /\ (forall t, In t ranking <-> In t ts)
    /\ StronglySorted (ranksBefore ts) ranking
    /\ getClusterTopics ids (Some l) = firstn 3 ranking.
Proof.
  intros ts _ Hplain.
  destruct (cluster_topics_ranking ids l) as [_ [_ [_ [_ [_ H]]]]].
  apply H, Hplain.
Qed.

Lemma cluster_topics_top_three_witness :
  exists ranking,
    getClusterTopics [1; 2] (Some Sample.clusterArticles) = firstn 3 ranking.
Proof.
  destruct (cluster_topics_top_three [1; 2] Sample.clusterArticles)
    as [ranking [_ [_ [_ H]]]].
  - repeat constructor.
  - repeat constructor.
  - exists ranking. exact H.
Defined.

(** X29.  Member ids without a matching article, or whose article has no
    topics, contribute nothing: dropping them from the id list changes
    neither the accumulation nor the topics returned.  The topics
    returned are at most three, distinct, and none when nothing was
    accumulated; when no accumulated topic is an inherited key they are
    in non-increasing order of frequency. *)
Theorem unknown_ids_skipped (ids : list Z) (l : list Article) :
  let known := filter (fun i => negb (Nat.eqb (length (memberTopics l i)) 0))
                 ids in
  collectTopics l known = collectTopics l ids
  /\ getClusterTopics known (Some l) = getClusterTopics ids (Some l)
  /\ (length (getClusterTopics ids (Some l)) <= 3)%nat
  /\ NoDup (getClusterTopics ids (Some l))
  /\ (collectTopics l ids = [] -> getClusterTopics ids (Some l) = [])
  /\ (Forall (fun t => JSObject.inherited t = false) (collectTopics l ids) ->
      StronglySorted
        (fun t1 t2 => frequency (collectTopics l ids) t2
                      <= frequency (collectTopics l ids) t1)
        (getClusterTopics ids (Some l))).
Proof.
  intros known.
  assert (E : collectTopics l known = collectTopics l ids).
  { unfold known. rewrite !collectTopics_flat_map.
    induction ids as [| i ids IH]; [reflexivity |].
    cbn [filter flat_map].
    destruct (memberTopics l i) as [| t ts] eqn:Em; cbn [length Nat.eqb negb].
    - exact IH.
    - cbn [flat_map]. rewrite Em, IH. reflexivity. }
  destruct (cluster_topics_ranking ids l) as [H1 [H2 [_ [H4 [H5 _]]]]].
  split; [exact E |]. split.
  - unfold getClusterTopics. now rewrite E.
  - auto.
Qed.

Lemma unknown_ids_skipped_witness :
  collectTopics Sample.clusterArticles [1; 2] <> []
  /\ Forall (fun t => JSObject.inherited t = false)
       (collectTopics Sample.clusterArticles [7; 1; 2])
  /\ getClusterTopics [1; 2] (Some Sample.clusterArticles)
     = getClusterTopics [7; 1; 2] (Some Sample.clusterArticles)
  /\ StronglySorted
       (fun t1 t2 =>
          frequency (collectTopics Sample.clusterArticles [7; 1; 2]) t2
          <= frequency (collectTopics Sample.clusterArticles [7; 1; 2]) t1)
       (getClusterTopics [7; 1; 2] (Some Sample.clusterArticles)).
Proof.
  pose proof (unknown_ids_skipped [7; 1; 2] Sample.clusterArticles) as H.
  cbv zeta in H. destruct H as [_ [H2 [_ [_ [_ H6]]]]].
  split; [discriminate |].
  split; [repeat constructor |].
  split; [exact H2 |].
  apply H6. repeat constructor.
Defined.
